(** * The vector-collection migration engine of sengol-api

    A shallow embedding of
      - [cloud-jobs/qdrant-migrate/main.py]        (module [Migrate]),
      - [cloud-jobs/export-qdrant-to-gcs/main.py]  (module [Exporter]),
      - [cloud-functions-fixed/qdrant-loader/main.py] (module [Loader]),
    and the properties the specification states about them.

    Python integers are [Z]; Python floats are IEEE 754 binary64 values,
    taken from the Standard Library's [SpecFloat]; dictionaries read from
    JSON are association lists; the destination store is a finite map from
    point ids to points; the calls a job makes and the lines it prints are
    recorded, in order, in a trace. *)

From Stdlib Require Import ZArith Lia Bool.
From Stdlib Require Import Floats.SpecFloat.
From stdpp Require Import base decidable option list strings gmap fin_maps.

Local Open Scope string_scope.
Local Open Scope list_scope.
Local Open Scope Z_scope.

(** ** Python exceptions and results *)

(** The exceptions the modelled code can meet. [SystemExit] is what
    [sys.exit] raises; it is not an [Exception], so [except Exception]
    lets it through. [UnexpectedResponse] is the client library's error for
    a request the store refuses (a collection that does not exist).
    [AssertionError] is what a client method raises when it is called with
    a keyword it does not know. [ValueError] stands for its subclasses
    too: the [ValidationError] with which [PointStruct] refuses an
    argument is one. *)
Inductive exn :=
| KeyError (key : string)
| ValueError
| TypeError
| AttributeError
| OverflowError
| ZeroDivisionError
| AssertionError
| UnexpectedResponse
| SystemExit (code : Z).

Definition is_Exception (e : exn) : bool :=
  match e with SystemExit _ => false | _ => true end.

(** The result of a pure Python expression: a value or a raised
    exception. *)
Inductive result (A : Type) :=
| Ok (a : A)
| Raise (e : exn).
Arguments Ok {A} a.
Arguments Raise {A} e.

Definition rbind {A B} (r : result A) (k : A -> result B) : result B :=
  match r with Ok a => k a | Raise e => Raise e end.

Declare Scope result_scope.
Delimit Scope result_scope with result.
Notation "'let?' x := r 'in' k" := (rbind r (fun x => k))
  (at level 10, x pattern, r at level 100, k at level 200)
  : result_scope.

(** ** Floats

    [float] is binary64: 53 bits of precision, infinities at exponent
    1024. The operations are those of [SpecFloat], the executable
    specification the Standard Library gives of the machine operations;
    what Python adds is when an exception is raised instead of an infinity
    or a NaN being produced. *)
Module PyFloat.

Definition prec : Z := 53.
Definition emax : Z := 1024.

Definition float := spec_float.

Definition fdiv : float -> float -> float := SFdiv prec emax.
Definition fmul : float -> float -> float := SFmul prec emax.
Definition fltb : float -> float -> bool := SFltb.
Definition feqb : float -> float -> bool := SFeqb.

Definition fzero : float := S754_zero false.

Definition is_zero (x : float) : bool :=
  match x with S754_zero _ => true | _ => false end.

Definition is_finite (x : float) : bool :=
  match x with S754_zero _ | S754_finite _ _ _ => true | _ => false end.

(** [float(n)] for an int [n]: the nearest float, ties to even;
    [OverflowError] when [n] is beyond the largest float. *)
Definition of_int (n : Z) : result float :=
  match binary_normalize prec emax n 0 false with
  | S754_infinity _ => Raise OverflowError
  | x => Ok x
  end.

(** An int as an unrounded operand of a division: mantissa [|n|],
    exponent 0. *)
Definition raw_of_int (n : Z) : float :=
  match n with
  | Z0 => S754_zero false
  | Zpos p => S754_finite false p 0
  | Zneg p => S754_finite true p 0
  end.

(** [a / b] for two ints (true division): the exact quotient rounded
    once to the nearest float, ties to even. [ZeroDivisionError] for
    [b = 0], [OverflowError] when the quotient is beyond the largest
    float. *)
Definition int_truediv (a b : Z) : result float :=
  if decide (b = 0) then Raise ZeroDivisionError
  else if decide (a = 0) then Ok (S754_zero (b <? 0))
  else match fdiv (raw_of_int a) (raw_of_int b) with
       | S754_infinity _ => Raise OverflowError
       | x => Ok x
       end.

(** [x / y] for two floats: the IEEE quotient, except that Python
    raises [ZeroDivisionError] for a zero divisor. *)
Definition truediv (x y : float) : result float :=
  if is_zero y then Raise ZeroDivisionError else Ok (fdiv x y).

(** The integer part of [m * 2^e] and whether the discarded fraction is
    below, at or above one half. *)
Definition split_fraction (m : positive) (e : Z) : Z * comparison :=
  match e with
  | Zneg k =>
      let d := Z.pow_pos 2 k in
      (Z.pos m / d, (2 * (Z.pos m mod d) ?= d))
  | _ => (Z.pos m * 2 ^ e, Lt)
  end.

Definition sign_apply (s : bool) (n : Z) : Z := if s then - n else n.

(** [round(x)] with one argument: the nearest int, ties to the even
    one. *)
Definition round (x : float) : result Z :=
  match x with
  | S754_zero _ => Ok 0
  | S754_infinity _ => Raise OverflowError
  | S754_nan => Raise ValueError
  | S754_finite s m e =>
      let '(q, c) := split_fraction m e in
      let up := match c with
                | Lt => false
                | Eq => Z.odd q
                | Gt => true
                end in
      Ok (sign_apply s (if up then q + 1 else q))
  end.

(** [int(x)]: truncation toward zero. *)
Definition to_int (x : float) : result Z :=
  match x with
  | S754_zero _ => Ok 0
  | S754_infinity _ => Raise OverflowError
  | S754_nan => Raise ValueError
  | S754_finite s m e => Ok (sign_apply s (fst (split_fraction m e)))
  end.

End PyFloat.

(** A Python number as the progress arithmetic meets it: an int or a
    float. *)
Inductive number :=
| Int (n : Z)
| Float (x : PyFloat.float).

Module PyNum.
Import PyFloat.
Local Open Scope result_scope.

Definition to_float (a : number) : result float :=
  match a with Int n => of_int n | Float x => Ok x end.

(** [a / b] *)
Definition truediv (a b : number) : result number :=
  match a, b with
  | Int m, Int n => let? q := int_truediv m n in Ok (Float q)
  | _, _ =>
      let? x := to_float a in
      let? y := to_float b in
      let? q := PyFloat.truediv x y in
      Ok (Float q)
  end.

(** [a * b] *)
Definition mul (a b : number) : result number :=
  match a, b with
  | Int m, Int n => Ok (Int (m * n))
  | _, _ =>
      let? x := to_float a in
      let? y := to_float b in
      Ok (Float (fmul x y))
  end.

(** [a > 0] for the literal int 0; a comparison with a NaN is false. *)
Definition gt0 (a : number) : bool :=
  match a with
  | Int n => bool_decide (0 < n)
  | Float x => fltb fzero x
  end.

(** [round(a)] *)
Definition round (a : number) : result Z :=
  match a with Int n => Ok n | Float x => PyFloat.round x end.

(** [int(a)] *)
Definition to_int (a : number) : result Z :=
  match a with Int n => Ok n | Float x => PyFloat.to_int x end.

End PyNum.

(** ** Values, points and pages *)

(** A Python value as [json.loads] produces it, and as the jobs put into
    the dictionaries they return. A dictionary is an association list in
    insertion order; [json.loads] and dictionary displays leave no
    duplicate keys. A [string] stands for the sequence of characters of a
    [str], one [ascii] for each character: the model tells 256 characters
    apart. *)
#[local] Unset Elimination Schemes.
Inductive value :=
| VNone
| VBool (b : bool)
| VInt (n : Z)
| VFloat (x : PyFloat.float)
| VStr (s : string)
| VList (l : list value)
| VDict (d : list (string * value)).
#[local] Set Elimination Schemes.

Definition dict := list (string * value).

(** [d.get(key)] seen as an option; [None] when the key is absent. *)
Fixpoint dict_lookup (d : dict) (key : string) : option value :=
  match d with
  | [] => None
  | (k, v) :: d' => if decide (k = key) then Some v else dict_lookup d' key
  end.

(** A point id: the client accepts an unsigned integer or a string. *)
Inductive point_id :=
| IdInt (n : Z)
| IdStr (s : string).

Global Instance point_id_eq_dec : EqDecision point_id.
Proof. solve_decision. Defined.

Global Instance point_id_countable : Countable point_id.
Proof.
  refine (inj_countable'
            (fun i => match i with IdInt n => inl n | IdStr s => inr s end)
            (fun x => match x with inl n => IdInt n | inr s => IdStr s end) _).
  by intros [].
Defined.

(** A point, as [PointStruct] builds it and as [scroll] returns it. *)
Record PointStruct := {
  pt_id : point_id;
  pt_vector : value;
  pt_payload : value;
}.

Inductive Distance := COSINE | EUCLID | DOT | MANHATTAN.

Global Instance Distance_eq_dec : EqDecision Distance.
Proof. solve_decision. Defined.

(** The pair [scroll] returns: the points and the offset of the next
    page, [None] when the store reports there is none. *)
Record Page := {
  records : list PointStruct;
  next_offset : option Z;
}.

(** The number of components of a point's vector, when it is a list. *)
Definition vector_dim (p : PointStruct) : option Z :=
  match pt_vector p with
  | VList l => Some (Z.of_nat (length l))
  | _ => None
  end.

(** ** The two stores

    A source collection is what the source store answers: the count and
    vector parameters [get_collection] reports, and the page [scroll]
    returns for an offset and a limit. Nothing ties the reported count to
    the pages: a store may mis-report it. *)
Record SourceCollection := {
  points_count : Z;
  vectors_size : Z;
  vectors_distance : Distance;
  scroll : Z -> Z -> Page;
}.

(** A destination collection: its vector parameters and its points, keyed
    by id. *)
Record TargetCollection := {
  tc_size : Z;
  tc_distance : Distance;
  tc_points : gmap point_id PointStruct;
}.

(** What [get_collection] reports. *)
Record CollectionInfo := {
  info_points_count : Z;
  info_size : Z;
  info_distance : Distance;
}.

(** Writing points by id: a point whose id is present replaces the one
    stored, a new id adds a point. Later points of the batch win. *)
Definition upsert_points (ps : list PointStruct)
    (m : gmap point_id PointStruct) : gmap point_id PointStruct :=
  foldl (fun acc p => <[pt_id p := p]> acc) m ps.

(** A source collection that follows the paginator contract of the
    specification over a list of records: [offset] is the number of
    records already returned, a page holds at most [limit] records, and
    [next_offset] is the offset after the page unless the list is
    exhausted. The count it reports is a separate field, so that a store
    that mis-reports it can be written down too. This is a store that
    counts; the store the jobs connect to is the one below, which reads
    [offset] as an id. *)
Definition list_scroll (recs : list PointStruct) (offset limit : Z) : Page :=
  let page := take (Z.to_nat limit) (drop (Z.to_nat offset) recs) in
  let next := offset + Z.of_nat (length page) in
  {| records := page;
     next_offset := if decide (next < Z.of_nat (length recs))
                    then Some next else None |}.

Definition list_collection (count size : Z) (distance : Distance)
    (recs : list PointStruct) : SourceCollection :=
  {| points_count := count;
     vectors_size := size;
     vectors_distance := distance;
     scroll := list_scroll recs |}.

(** The same with the true count. *)
Definition honest_collection (size : Z) (distance : Distance)
    (recs : list PointStruct) : SourceCollection :=
  list_collection (Z.of_nat (length recs)) size distance recs.

(** The store the jobs connect to. Its [scroll] reads [offset] as the id
    of the point to start from, not as a number of points to skip: the
    page holds the first [limit] points, in the order of the store
    (ascending ids, the numbers before the texts), whose id is not below
    [offset]; an integer [offset] is below every id that is a text.
    [next_offset] is the id of the point after the page when there is one
    and its id is a number; the jobs never read it. [recs] are the stored
    points in the order of the store. *)
Definition id_not_below (offset : Z) (p : PointStruct) : Prop :=
  match pt_id p with
  | IdInt n => offset <= n
  | IdStr _ => True
  end.

Global Instance id_not_below_dec offset p : Decision (id_not_below offset p).
Proof. unfold id_not_below. destruct (pt_id p); apply _. Defined.

Definition cursor_scroll (recs : list PointStruct) (offset limit : Z) : Page :=
  let from := filter (id_not_below offset) recs in
  {| records := take (Z.to_nat limit) from;
     next_offset := match from !! Z.to_nat limit with
                    | Some {| pt_id := IdInt n |} => Some n
                    | _ => None
                    end |}.

Definition cursor_collection (size : Z) (distance : Distance)
    (recs : list PointStruct) : SourceCollection :=
  {| points_count := Z.of_nat (length recs);
     vectors_size := size;
     vectors_distance := distance;
     scroll := cursor_scroll recs |}.

(** ** The world a job runs in *)

(** Lines the jobs print, one constructor per [print] statement, with the
    values the line is formatted from. [MsgError] is the line [main]
    writes to the standard error stream, followed there by the
    traceback. *)
Inductive message :=
| MsgConnectingSource (host : string) (port : Z)
| MsgConnectingTarget (host : string)
| MsgAlreadyExists (name : string)
| MsgCreating (name : string)
| MsgCreated
| MsgGettingSourceInfo (name : string)
| MsgSourceHas (name : string) (total_points : Z)
| MsgVectorSize (size : Z)
| MsgFetching (from to : Z)
| MsgUploading (n : Z)
| MsgProgress (progress migrated_count total_points : Z) (rate : number)
    (eta : Z)
| MsgVerifying
| MsgWarningMismatch
| MsgSourceTarget (source_points target_points : Z)
| MsgCheckingSource
| MsgSourceCollections (names : list string)
| MsgErrorNotFound (name : string)
| MsgCheckingTarget
| MsgTargetCollections (names : list string)
| MsgStarting (name : string)
| MsgCompleted
| MsgSourcePoints (v : value)
| MsgTargetPoints (v : value)
| MsgDuration (v : value)
| MsgResultVectorSize (v : value)
| MsgExportGettingInfo (name : string)
| MsgExportHas (name : string) (total_points : Z)
| MsgExportFetching (from to : Z)
| MsgExportProgress (progress offset total_points : Z)
| MsgError (e : exn).

(** Requests to the stores. A [SrcScroll] carries the page that came
    back, [None] when the store refused the request. *)
Inductive call :=
| SrcGetCollections
| SrcGetCollection (name : string)
| SrcScroll (name : string) (offset limit : Z) (page : option Page)
| TgtGetCollections
| TgtGetCollection (name : string)
| TgtRecreateCollection (name : string) (size : Z) (distance : Distance)
| TgtUpsert (name : string) (points : list PointStruct).

Inductive event :=
| Called (c : call)
| Printed (m : message).

(** The environment variables, the store each client reaches, the clock
    (the [n]-th reading of [datetime.utcnow], in microseconds since the
    first instant a [datetime] can hold), and what has happened so far. *)
Record World := {
  environ : gmap string string;
  source_store : gmap string SourceCollection;
  target_store : gmap string TargetCollection;
  clock : nat -> Z;
  ticks : nat;
  trace : list event;
}.

(** ** The monad of a run

    A computation takes the world and gives an outcome and the world it
    leaves. [OutOfFuel] is not a Python outcome: it says the model's loop
    counter ran out before the loop ended. *)
Inductive outcome (A : Type) :=
| Done (a : A)
| Raised (e : exn)
| OutOfFuel.
Arguments Done {A} a.
Arguments Raised {A} e.
Arguments OutOfFuel {A}.

Definition M (A : Type) : Type := World -> outcome A * World.

Definition ret {A} (a : A) : M A := fun w => (Done a, w).

Definition bind {A B} (c : M A) (k : A -> M B) : M B :=
  fun w =>
    match c w with
    | (Done a, w') => k a w'
    | (Raised e, w') => (Raised e, w')
    | (OutOfFuel, w') => (OutOfFuel, w')
    end.

Definition raise {A} (e : exn) : M A := fun w => (Raised e, w).

Definition out_of_fuel {A} : M A := fun w => (OutOfFuel, w).

Definition lift {A} (r : result A) : M A :=
  match r with Ok a => ret a | Raise e => raise e end.

(** [try: body except Exception as e: handler e] *)
Definition try_except {A} (body : M A) (handler : exn -> M A) : M A :=
  fun w =>
    match body w with
    | (Raised e, w') => if is_Exception e then handler e w' else (Raised e, w')
    | r => r
    end.

Declare Scope run_scope.
Delimit Scope run_scope with run.
Bind Scope run_scope with M.
Notation "x <- c ;; k" := (bind c (fun x => k))
  (at level 100, c at next level, k at level 200, right associativity,
   only parsing) : run_scope.
Notation "c ;; k" := (bind c (fun _ => k))
  (at level 100, k at level 200, right associativity, only parsing)
  : run_scope.
Local Open Scope run_scope.

(** The world after some more events, after a change of the destination,
    and after a reading of the clock. *)
Definition log (evs : list event) (w : World) : World :=
  {| environ := environ w; source_store := source_store w;
     target_store := target_store w; clock := clock w;
     ticks := ticks w; trace := trace w ++ evs |}.

Definition with_target (t : gmap string TargetCollection) (w : World)
    : World :=
  {| environ := environ w; source_store := source_store w;
     target_store := t; clock := clock w;
     ticks := ticks w; trace := trace w |}.

Definition tick (w : World) : World :=
  {| environ := environ w; source_store := source_store w;
     target_store := target_store w; clock := clock w;
     ticks := S (ticks w); trace := trace w |}.

Definition record (e : event) : M unit :=
  fun w => (Done tt, log [e] w).

Definition print (m : message) : M unit := record (Printed m).

(** [os.getenv(name, default)] *)
Definition getenv_default (name dflt : string) : M string :=
  fun w => (Done (default dflt (environ w !! name)), w).

(** [os.getenv(name)] *)
Definition getenv (name : string) : M (option string) :=
  fun w => (Done (environ w !! name), w).

(** [datetime.utcnow()]: the next reading of the clock. *)
Definition utcnow : M Z :=
  fun w => (Done (clock w (ticks w)), tick w).

(** [(later - earlier).total_seconds()]: the microseconds between two
    readings, divided by [10**6]. *)
Definition total_seconds (later earlier : Z) : result number :=
  PyNum.truediv (Int (later - earlier)) (Int (10 ^ 6)).

(** [sys.exit(code)] *)
Definition sys_exit {A} (code : Z) : M A := raise (SystemExit code).

(** [v[key]] *)
Definition subscript (v : value) (key : string) : result value :=
  match v with
  | VDict d => match dict_lookup d key with
               | Some x => Ok x
               | None => Raise (KeyError key)
               end
  | _ => Raise TypeError
  end.

(** ** The client calls *)
Module Qdrant.

Definition set_target (t : gmap string TargetCollection) : M unit :=
  fun w => (Done tt, with_target t w).

Definition names_of {A} (m : gmap string A) : list string :=
  (map_to_list m).*1.

(** [source_client.get_collections()], as the list of names. *)
Definition source_get_collections : M (list string) :=
  record (Called SrcGetCollections);;
  fun w => (Done (names_of (source_store w)), w).

(** [source_client.get_collection(name)] *)
Definition source_get_collection (name : string) : M CollectionInfo :=
  record (Called (SrcGetCollection name));;
  fun w =>
    match source_store w !! name with
    | Some c => (Done {| info_points_count := points_count c;
                         info_size := vectors_size c;
                         info_distance := vectors_distance c |}, w)
    | None => (Raised UnexpectedResponse, w)
    end.

(** [source_client.scroll(name, offset=offset, limit=limit,
    with_payload=True, with_vectors=True)]: a call with keywords the
    method takes. *)
Definition source_scroll (name : string) (offset limit : Z) : M Page :=
  fun w =>
    match source_store w !! name with
    | Some c =>
        let page := scroll c offset limit in
        (record (Called (SrcScroll name offset limit (Some page)));;
         ret page) w
    | None =>
        (record (Called (SrcScroll name offset limit None));;
         raise UnexpectedResponse) w
    end.

(** The keyword arguments [scroll] takes besides the name of the
    collection. A call that carries any other keyword is refused with
    [AssertionError] before a request is made. *)
Definition scroll_keywords : list string :=
  ["scroll_filter"; "limit"; "order_by"; "offset"; "with_payload";
   "with_vectors"; "consistency"; "shard_key_selector"; "timeout"].

(** [source_client.scroll(name, offset=offset, limit=limit, k=True, ...)]
    for the keywords [k] of [flags]. *)
Definition source_scroll_with (flags : list string) (name : string)
    (offset limit : Z) : M Page :=
  if forallb (fun k => bool_decide (k ∈ scroll_keywords)) flags
  then source_scroll name offset limit
  else raise AssertionError.

(** [target_client.get_collections()] *)
Definition target_get_collections : M (list string) :=
  record (Called TgtGetCollections);;
  fun w => (Done (names_of (target_store w)), w).

(** [target_client.get_collection(name)] *)
Definition target_get_collection (name : string) : M CollectionInfo :=
  record (Called (TgtGetCollection name));;
  fun w =>
    match target_store w !! name with
    | Some c => (Done {| info_points_count := Z.of_nat (size (tc_points c));
                         info_size := tc_size c;
                         info_distance := tc_distance c |}, w)
    | None => (Raised UnexpectedResponse, w)
    end.

(** [target_client.recreate_collection(name, VectorParams(size,
    distance))]: whatever was stored under the name is dropped and an
    empty collection takes its place. *)
Definition target_recreate_collection (name : string) (size : Z)
    (distance : Distance) : M unit :=
  record (Called (TgtRecreateCollection name size distance));;
  fun w =>
    set_target (<[name := {| tc_size := size; tc_distance := distance;
                             tc_points := ∅ |}]> (target_store w)) w.

(** [target_client.upsert(name, points)]: refused when the collection
    does not exist or when a vector has not the collection's dimension;
    applied whole otherwise. *)
Definition target_upsert (name : string) (points : list PointStruct)
    : M unit :=
  record (Called (TgtUpsert name points));;
  fun w =>
    match target_store w !! name with
    | Some c =>
        if forallb (fun p => bool_decide (vector_dim p = Some (tc_size c)))
             points
        then set_target
               (<[name := {| tc_size := tc_size c;
                             tc_distance := tc_distance c;
                             tc_points := upsert_points points (tc_points c)
                          |}]> (target_store w)) w
        else (Raised UnexpectedResponse, w)
    | None => (Raised UnexpectedResponse, w)
    end.

End Qdrant.

(** ** [cloud-jobs/qdrant-migrate/main.py] *)
Module Migrate.
Import Qdrant.

(** The progress arithmetic of the scan loop. *)

(** [min(100, round((migrated_count / total_points) * 100))] *)
Definition progress_of (migrated_count total_points : Z) : result Z :=
  (let? q := PyNum.truediv (Int migrated_count) (Int total_points) in
   let? p := PyNum.mul q (Int 100) in
   let? r := PyNum.round p in
   Ok (Z.min 100 r))%result.

(** [migrated_count / elapsed if elapsed > 0 else 0] *)
Definition rate_of (migrated_count : Z) (elapsed : number) : result number :=
  if PyNum.gt0 elapsed then PyNum.truediv (Int migrated_count) elapsed
  else Ok (Int 0).

(** [(total_points - migrated_count) / rate if rate > 0 else 0] *)
Definition eta_of (migrated_count total_points : Z) (rate : number)
    : result number :=
  if PyNum.gt0 rate
  then PyNum.truediv (Int (total_points - migrated_count)) rate
  else Ok (Int 0).

Record loop_state := {
  migrated_count : Z;
  offset : Z;
}.

Section Job.
(** The number a text of an environment variable stands for, if any,
    and [datetime.isoformat] for a clock reading: library functions
    the job calls and whose results it only passes on. *)
Variable int_of_str : string -> option Z.
Variable isoformat : Z -> string.

(** [int(text)]: [ValueError] for a text that is not a number. *)
Definition int (text : string) : result Z :=
  match int_of_str text with
  | Some n => Ok n
  | None => Raise ValueError
  end.

Definition get_source_qdrant_client : M unit :=
  qdrant_host <- getenv_default "SOURCE_QDRANT_HOST" "10.128.0.2";;
  port_text <- getenv_default "SOURCE_QDRANT_PORT" "6333";;
  qdrant_port <- lift (int port_text);;
  print (MsgConnectingSource qdrant_host qdrant_port).

Definition get_target_qdrant_client : M unit :=
  qdrant_host <- getenv "TARGET_QDRANT_HOST";;
  qdrant_api_key <- getenv "TARGET_QDRANT_API_KEY";;
  match qdrant_host, qdrant_api_key with
  | Some host, Some key =>
      if bool_decide (host = "") || bool_decide (key = "")
      then raise ValueError
      else print (MsgConnectingTarget host)
  | _, _ => raise ValueError
  end.

Definition ensure_collection_exists (collection_name : string)
    (vector_size : Z) : M unit :=
  try_except
    (target_get_collection collection_name;;
     print (MsgAlreadyExists collection_name))
    (fun _ =>
       print (MsgCreating collection_name);;
       target_recreate_collection collection_name vector_size COSINE;;
       print MsgCreated).

(** The [while offset < total_points] loop; [fuel] bounds the number
    of iterations the model follows. *)
Fixpoint scan_loop (fuel : nat) (collection_name : string)
    (batch_size total_points start_time : Z) (st : loop_state)
    : M loop_state :=
  if bool_decide (offset st < total_points) then
    match fuel with
    | O => out_of_fuel
    | S fuel' =>
        let remaining := total_points - offset st in
        let limit := Z.min batch_size remaining in
        print (MsgFetching (offset st) (offset st + limit));;
        response <- source_scroll collection_name (offset st) limit;;
        let points := records response in
        match points with
        | [] => ret st
        | _ :: _ =>
            print (MsgUploading (Z.of_nat (length points)));;
            let upsert_points :=
              map (fun p => {| pt_id := pt_id p;
                               pt_vector := pt_vector p;
                               pt_payload := pt_payload p |}) points in
            target_upsert collection_name upsert_points;;
            let migrated_count :=
              migrated_count st + Z.of_nat (length points) in
            let offset := offset st + limit in
            progress <- lift (progress_of migrated_count total_points);;
            now <- utcnow;;
            elapsed <- lift (total_seconds now start_time);;
            rate <- lift (rate_of migrated_count elapsed);;
            eta_seconds <-
              lift (eta_of migrated_count total_points rate);;
            eta <- lift (PyNum.to_int eta_seconds);;
            print (MsgProgress progress migrated_count total_points
                     rate eta);;
            scan_loop fuel' collection_name batch_size total_points
              start_time
              {| migrated_count := migrated_count; offset := offset |}
        end
    end
  else ret st.

Definition migrate_collection (fuel : nat) (collection_name : string)
    (batch_size : Z) : M value :=
  print (MsgGettingSourceInfo collection_name);;
  source_collection_info <- source_get_collection collection_name;;
  let total_points := info_points_count source_collection_info in
  print (MsgSourceHas collection_name total_points);;
  print (MsgVectorSize (info_size source_collection_info));;
  let vector_size := info_size source_collection_info in
  ensure_collection_exists collection_name vector_size;;
  start_time <- utcnow;;
  scan_loop fuel collection_name batch_size total_points start_time
    {| migrated_count := 0; offset := 0 |};;
  print MsgVerifying;;
  target_collection_info <- target_get_collection collection_name;;
  let target_point_count := info_points_count target_collection_info in
  (if bool_decide (target_point_count ≠ total_points) then
     print MsgWarningMismatch;;
     print (MsgSourceTarget total_points target_point_count)
   else ret tt);;
  migrated_at <- utcnow;;
  finished <- utcnow;;
  duration <- lift (total_seconds finished start_time);;
  ret (VDict
         [("metadata",
           VDict
             [("collection", VStr collection_name);
              ("migrated_at", VStr (isoformat migrated_at +:+ "Z"));
              ("source_points", VInt total_points);
              ("target_points", VInt target_point_count);
              ("vector_size", VInt vector_size);
              ("migration_duration_seconds",
               match duration with
               | Int n => VInt n
               | Float x => VFloat x
               end)])]).

Definition metadata_field (migration_result : value) (key : string)
    : result value :=
  (let? metadata := subscript migration_result "metadata" in
   subscript metadata key)%result.

Definition main (fuel : nat) : M Z :=
  collection_name <- getenv_default "COLLECTION_NAME" "sengol_incidents";;
  try_except
    (get_source_qdrant_client;;
     get_target_qdrant_client;;
     print MsgCheckingSource;;
     source_collection_names <- source_get_collections;;
     print (MsgSourceCollections source_collection_names);;
     (if bool_decide (collection_name ∉ source_collection_names) then
        print (MsgErrorNotFound collection_name);;
        sys_exit 1
      else ret tt);;
     print MsgCheckingTarget;;
     target_collection_names <- target_get_collections;;
     print (MsgTargetCollections target_collection_names);;
     print (MsgStarting collection_name);;
     migration_result <- migrate_collection fuel collection_name 100;;
     print MsgCompleted;;
     v <- lift (metadata_field migration_result "source_points");;
     print (MsgSourcePoints v);;
     v <- lift (metadata_field migration_result "target_points");;
     print (MsgTargetPoints v);;
     v <- lift (metadata_field migration_result
                  "migration_duration_seconds");;
     print (MsgDuration v);;
     v <- lift (metadata_field migration_result "vector_size");;
     print (MsgResultVectorSize v);;
     ret 0)
    (fun e =>
       print (MsgError e);;
       sys_exit 1).

(** [sys.exit(main())]: the exit status of the process, [None] when
    the model ran out of fuel. *)
Definition script (fuel : nat) (w : World) : option Z * World :=
  match main fuel w with
  | (Done code, w') => (Some code, w')
  | (Raised (SystemExit code), w') => (Some code, w')
  | (Raised _, w') => (Some 1, w')
  | (OutOfFuel, w') => (None, w')
  end.

End Job.
End Migrate.

(** ** [cloud-jobs/export-qdrant-to-gcs/main.py] *)
Module Exporter.
Import Qdrant.

Record loop_state := {
  all_points : list PointStruct;
  offset : Z;
}.

Definition value_of_id (i : point_id) : value :=
  match i with IdInt n => VInt n | IdStr s => VStr s end.

Section Job.
Variable isoformat : Z -> string.

(** The [while offset < total_points] loop of [export_collection]. Its
    [scroll] call passes [with_vector=True], where the migration passes
    [with_vectors=True]. *)
Fixpoint scan_loop (fuel : nat) (collection_name : string)
    (batch_size total_points : Z) (st : loop_state) : M loop_state :=
  if bool_decide (offset st < total_points) then
    match fuel with
    | O => out_of_fuel
    | S fuel' =>
        let remaining := total_points - offset st in
        let limit := Z.min batch_size remaining in
        print (MsgExportFetching (offset st) (offset st + limit));;
        response <- source_scroll_with ["with_payload"; "with_vector"]
                      collection_name (offset st) limit;;
        let all_points := all_points st ++ records response in
        let offset := offset st + limit in
        progress <- lift (Migrate.progress_of offset total_points);;
        print (MsgExportProgress progress offset total_points);;
        scan_loop fuel' collection_name batch_size total_points
          {| all_points := all_points; offset := offset |}
    end
  else ret st.

Definition export_collection (fuel : nat) (collection_name : string)
    (batch_size : Z) : M value :=
  print (MsgExportGettingInfo collection_name);;
  collection_info <- source_get_collection collection_name;;
  let total_points := info_points_count collection_info in
  print (MsgExportHas collection_name total_points);;
  st <- scan_loop fuel collection_name batch_size total_points
          {| all_points := []; offset := 0 |};;
  exported_at <- utcnow;;
  ret (VDict
         [("metadata",
           VDict
             [("collection", VStr collection_name);
              ("exported_at", VStr (isoformat exported_at +:+ "Z"));
              ("total_points",
               VInt (Z.of_nat (length (all_points st))))]);
          ("points",
           VList
             (map (fun p =>
                     VDict [("id", value_of_id (pt_id p));
                            ("vector", pt_vector p);
                            ("payload", pt_payload p)])
                (all_points st)))]).

End Job.
End Exporter.

(** ** [cloud-functions-fixed/qdrant-loader/main.py]: the transformer *)
Module Loader.
Local Open Scope result_scope.

(** [v.get(key, dflt)]; a value that is not a dictionary has no [get]. *)
Definition get (v : value) (key : string) (dflt : value) : result value :=
  match v with
  | VDict d => Ok (default dflt (dict_lookup d key))
  | _ => Raise AttributeError
  end.

(** The truth value [or] tests. *)
Definition truthy (v : value) : bool :=
  match v with
  | VNone => false
  | VBool b => b
  | VInt n => negb (n =? 0)
  | VFloat x => negb (PyFloat.is_zero x)
  | VStr s => negb (bool_decide (s = ""))
  | VList l => negb (bool_decide (l = []))
  | VDict d => negb (bool_decide (d = []))
  end.

(** [a or b], with [b] evaluated only when [a] is false. *)
Definition or_else (a : result value) (b : result value) : result value :=
  let? x := a in if truthy x then Ok x else b.

(** The first [n] characters of a string. *)
Fixpoint string_take (n : nat) (s : string) : string :=
  match n, s with
  | S n', String c s' => String c (string_take n' s')
  | _, _ => ""
  end.

(** [v[:n]]: strings and lists can be sliced, nothing else. *)
Definition slice_prefix (v : value) (n : nat) : result value :=
  match v with
  | VStr s => Ok (VStr (string_take n s))
  | VList l => Ok (VList (take n l))
  | _ => Raise TypeError
  end.

(** The [id] argument of [PointStruct]: an integer or a string, anything
    else is refused by the constructor. *)
Definition as_point_id (v : value) : result point_id :=
  match v with
  | VInt n => Ok (IdInt n)
  | VStr s => Ok (IdStr s)
  | _ => Raise ValueError
  end.

(** A component of a vector: a float, or an integer, which the
    constructor turns into the nearest float. *)
Definition as_component (v : value) : result value :=
  match v with
  | VFloat x => Ok (VFloat x)
  | VInt n => let? x := PyFloat.of_int n in Ok (VFloat x)
  | _ => Raise ValueError
  end.

Fixpoint as_components (l : list value) : result (list value) :=
  match l with
  | [] => Ok []
  | v :: rest =>
      let? x := as_component v in
      let? xs := as_components rest in
      Ok (x :: xs)
  end.

(** The [vector] argument of [PointStruct]: the constructor validates
    it. A list of numbers is a dense vector and is stored as floats; a
    text, a number, a truth value or null is refused ([ValidationError]).
    The other shapes the constructor knows (named, sparse and
    multi-vectors, written as dictionaries and lists of lists) are not
    followed: the embeddings file holds dense vectors, and here they are
    refused. *)
Definition as_vector (v : value) : result value :=
  match v with
  | VList l => let? xs := as_components l in Ok (VList xs)
  | _ => Raise ValueError
  end.

(** The body of [for emb in batch]: the point built from one parsed
    line of the embeddings file. *)
Definition point_of_embedding (emb : value) : result PointStruct :=
  let? metadata := get emb "metadata" (VDict []) in
  let? original_record := get metadata "original_record" (VDict []) in
  let? content :=
    or_else (get original_record "description" VNone)
      (or_else (get original_record "text" VNone)
         (or_else (get original_record "abstract" VNone)
            (get emb "embedding_text" (VStr "")))) in
  let? id := subscript emb "id" in
  let? embedding := subscript emb "embedding" in
  let? embedding_id := get emb "embedding_id" VNone in
  let? embedding_text := get emb "embedding_text" (VStr "") in
  let? content_1000 := slice_prefix content 1000 in
  let? metadata_1 := get emb "metadata" (VDict []) in
  let? source_file := get metadata_1 "source_file" VNone in
  let? metadata_2 := get emb "metadata" (VDict []) in
  let? category := get metadata_2 "category" VNone in
  let? title := get original_record "title" VNone in
  let? severity := get original_record "severity" VNone in
  let? organization := get original_record "organization" VNone in
  let? incident_date := get original_record "incident_date" VNone in
  let? point_id := as_point_id id in
  let? vector := as_vector embedding in
  Ok {| pt_id := point_id;
        pt_vector := vector;
        pt_payload :=
          VDict [("embedding_id", embedding_id);
                 ("embedding_text", embedding_text);
                 ("content", content_1000);
                 ("source_file", source_file);
                 ("category", category);
                 ("metadata",
                  VDict [("title", title);
                         ("severity", severity);
                         ("organization", organization);
                         ("incident_date", incident_date)])] |}.

(** The inner loop: [points] after [for emb in batch: ...
    points.append(point)]. *)
Fixpoint points_of_batch (batch : list value) : result (list PointStruct) :=
  match batch with
  | [] => Ok []
  | emb :: rest =>
      let? point := point_of_embedding emb in
      let? points := points_of_batch rest in
      Ok (point :: points)
  end.

End Loader.

(** ** Reading a trace *)

Definition is_scan (e : event) : bool :=
  match e with Called (SrcScroll _ _ _ _) => true | _ => false end.

Definition is_create (e : event) : bool :=
  match e with Called (TgtRecreateCollection _ _ _) => true | _ => false end.

Definition is_upsert (e : event) : bool :=
  match e with Called (TgtUpsert _ _) => true | _ => false end.

Definition is_write (e : event) : bool := is_create e || is_upsert e.

Definition is_progress (e : event) : bool :=
  match e with
  | Printed (MsgProgress _ _ _ _ _) | Printed (MsgExportProgress _ _ _) => true
  | _ => false
  end.

(** The pages the scroll calls of a trace returned, in order. *)
Definition scroll_pages (tr : list event) : list Page :=
  omap (fun e => match e with
                 | Called (SrcScroll _ _ _ (Some page)) => Some page
                 | _ => None
                 end) tr.

(** The percentages of the progress lines of a trace, in order. *)
Definition reported_percent (tr : list event) : list Z :=
  omap (fun e => match e with
                 | Printed (MsgProgress p _ _ _ _) => Some p
                 | Printed (MsgExportProgress p _ _) => Some p
                 | _ => None
                 end) tr.

(** The collection name [main] reads from the environment. *)
Definition configured_collection (w : World) : string :=
  default "sengol_incidents" (environ w !! "COLLECTION_NAME").

(** * What the statements are written with *)

(** ** Ranges *)

(** The last instant a [datetime] can hold, in microseconds since the
    first one: 9999-12-31 23:59:59.999999. *)
Definition datetime_max : Z := 315537897599999999.

Definition clock_in_range (w : World) : Prop :=
  forall n, 0 <= clock w n <= datetime_max.

(** [ceil(a / b)] for a positive [b]. *)
Definition ceil_div (a b : Z) : Z := (a + b - 1) / b.

(** ** Sources and destinations *)

(** A source collection respects the paginator contract for vectors of
    [size] components: a page holds at most [limit] records, and every
    record has a vector of that size. *)
Definition respects_contract (size : Z) (c : SourceCollection) : Prop :=
  forall offset limit,
    Z.of_nat (length (records (scroll c offset limit))) <= Z.max 0 limit /\
    Forall (fun p => vector_dim p = Some size) (records (scroll c offset limit)).

(** A source collection that holds what it counts: a page asked for
    within the count it reports comes back full. *)
Definition full_pages (c : SourceCollection) : Prop :=
  forall offset limit,
    0 <= offset -> 0 <= limit <= points_count c - offset ->
    Z.of_nat (length (records (scroll c offset limit))) = limit.

(** The ids a store gives its points: unsigned integers or texts, no two
    points sharing one. *)
Definition unsigned_id (p : PointStruct) : Prop :=
  match pt_id p with IdInt n => 0 <= n | IdStr _ => True end.

Definition stored_under_ids (recs : list PointStruct) : Prop :=
  NoDup (pt_id <$> recs) /\ Forall unsigned_id recs.

(** The pages a scan loop fetches from [offset] on: one page per
    iteration while [offset < total_points], the offset advancing by the
    limit asked for; with [stop_on_empty] the first empty page is the last
    one fetched. [n] bounds the number of pages. *)
Fixpoint planned_pages (stop_on_empty : bool) (n : nat) (c : SourceCollection)
    (batch_size total_points offset : Z) : list Page :=
  if bool_decide (offset < total_points) then
    match n with
    | O => []
    | S n' =>
        let limit := Z.min batch_size (total_points - offset) in
        let page := scroll c offset limit in
        let rest := planned_pages stop_on_empty n' c batch_size total_points
                      (offset + limit) in
        page :: match records page with
                | [] => if stop_on_empty then [] else rest
                | _ :: _ => rest
                end
    end
  else [].

(** The records of a sequence of pages, in order. *)
Definition fetched (pages : list Page) : list PointStruct :=
  concat (records <$> pages).

(** The destination collection a migration writes into: the one that
    exists, or the empty one [ensure_collection_exists] creates. *)
Definition destination_before (w : World) (name : string) (size : Z)
    : TargetCollection :=
  match target_store w !! name with
  | Some tc => tc
  | None => {| tc_size := size; tc_distance := COSINE; tc_points := ∅ |}
  end.

(** The number of points the destination holds under [name]. *)
Definition target_count (w : World) (name : string) : Z :=
  match target_store w !! name with
  | Some tc => Z.of_nat (size (tc_points tc))
  | None => 0
  end.

(** ** Worlds and traces *)

(** [w'] is [w] after the events [evs]: same environment, source and
    clock, and a trace longer by [evs]. *)
Definition extends (w w' : World) (evs : list event) : Prop :=
  environ w' = environ w /\ source_store w' = source_store w /\
  clock w' = clock w /\ trace w' = trace w ++ evs.

(** A computation that never runs out of fuel: whatever the world, it
    returns or raises. *)
Definition within_fuel {A} (c : M A) : Prop :=
  forall w, fst (c w) <> OutOfFuel.

(** The events an iteration of the migration scan loop leaves. *)
Definition is_loop_event (e : event) : bool :=
  match e with
  | Printed (MsgFetching _ _) | Printed (MsgUploading _)
  | Printed (MsgProgress _ _ _ _ _)
  | Called (SrcScroll _ _ _ _) | Called (TgtUpsert _ _) => true
  | _ => false
  end.

(** The events of a whole [migrate_collection] run around those of its
    scan loop. *)
Definition migration_events (name : string) (size total_points : Z)
    (existed : bool) (loop_events : list event) (target_point_count : Z)
    : list event :=
  [Printed (MsgGettingSourceInfo name); Called (SrcGetCollection name);
   Printed (MsgSourceHas name total_points); Printed (MsgVectorSize size);
   Called (TgtGetCollection name)]
  ++ (if existed then [Printed (MsgAlreadyExists name)]
      else [Printed (MsgCreating name);
            Called (TgtRecreateCollection name size COSINE);
            Printed MsgCreated])
  ++ loop_events
  ++ [Printed MsgVerifying; Called (TgtGetCollection name)]
  ++ (if bool_decide (target_point_count ≠ total_points)
      then [Printed MsgWarningMismatch;
            Printed (MsgSourceTarget total_points target_point_count)]
      else []).

(** The events of [main] before it calls [migrate_collection]. *)
Definition prelude_events (w : World) (port : Z) (host : string)
    : list event :=
  [Printed (MsgConnectingSource
            (default "10.128.0.2" (environ w !! "SOURCE_QDRANT_HOST")) port);
   Printed (MsgConnectingTarget host);
   Printed MsgCheckingSource; Called SrcGetCollections;
   Printed (MsgSourceCollections (Qdrant.names_of (source_store w)));
   Printed MsgCheckingTarget; Called TgtGetCollections;
   Printed (MsgTargetCollections (Qdrant.names_of (target_store w)));
   Printed (MsgStarting (configured_collection w))].

(** An event that neither scans the source nor writes to the
    destination. *)
Definition quiet (e : event) : bool := negb (is_scan e) && negb (is_write e).

(** ** Magnitudes of floats *)

(** [d] is the number of binary digits of the positive integer [m]. *)
Definition has_digits (m d : Z) : Prop := 0 < d /\ 2 ^ (d - 1) <= m < 2 ^ d.

(** A finite, non-zero float whose leading bit has a weight between
    [2^(lo-1)] and [2^(hi-1)]. *)
Definition finite_in (lo hi : Z) (x : PyFloat.float) : Prop :=
  match x with
  | S754_finite _ m e => lo <= Z.pos (digits2_pos m) + e <= hi
  | _ => False
  end.

(** The sign bit of a float. *)
Definition sign_of (x : PyFloat.float) : bool :=
  match x with
  | S754_zero s | S754_infinity s | S754_finite s _ _ => s
  | S754_nan => false
  end.

(** ** The specification's words *)

(** *** The stopping rule of the scan, as the specification states it *)

(** A page that signals exhaustion: it is empty or its [next_offset] is
    null. *)
Definition exhausted (p : Page) : bool :=
  bool_decide (records p = []) || bool_decide (next_offset p = None).

(** Pages fetched up to, and only up to, the first exhausted one. *)
Fixpoint stops_at_first_exhausted (pages : list Page) : bool :=
  match pages with
  | [] => true
  | [p] => exhausted p
  | p :: rest => negb (exhausted p) && stops_at_first_exhausted rest
  end.

(** *** The percentage, as the specification states it *)

(** [round(a / b)] for the exact quotient of two integers, [b > 0]: the
    nearest integer, ties to the even one. *)
Definition round_quotient (a b : Z) : Z :=
  let q := a / b in
  match 2 * (a mod b) ?= b with
  | Lt => q
  | Eq => if Z.even q then q else q + 1
  | Gt => q + 1
  end.

(** [min(100, round(100 * migrated_count / total_count))] *)
Definition stated_percent (migrated_count total_count : Z) : Z :=
  Z.min 100 (round_quotient (100 * migrated_count) total_count).

(** The same formula evaluated by Python from left to right, on
    floats. *)
Definition stated_percent_float (migrated_count total_count : Z) : result Z :=
  (let? q := PyNum.truediv (Int (100 * migrated_count)) (Int total_count) in
   let? r := PyNum.round q in
   Ok (Z.min 100 r))%result.

(** [rate = migrated_count / elapsed_seconds], 0 if [elapsed_seconds == 0]. *)
Definition stated_rate (migrated_count : Z) (elapsed : PyFloat.float)
    : result number :=
  if PyFloat.is_zero elapsed then Ok (Int 0)
  else PyNum.truediv (Int migrated_count) (Float elapsed).

(** [eta_seconds = (total_count - migrated_count) / rate] if [rate > 0],
    else 0. *)
Definition stated_eta (migrated_count total_count : Z) (rate : number)
    : result number :=
  if PyNum.gt0 rate
  then PyNum.truediv (Int (total_count - migrated_count)) rate
  else Ok (Int 0).

(** The percentage with the quotient taken first: [round] of the float
    nearest to [fl(migrated_count / total_count) * 100]. *)
Definition quotient_first_percent (migrated_count total_count : Z)
    : result Z :=
  (let? q := PyFloat.int_truediv migrated_count total_count in
   let? r := PyFloat.round
               (PyFloat.fmul q (S754_finite false 7036874417766400 (-46))) in
   Ok (Z.min 100 r))%result.

(** *** The transformer, as the specification states it *)
Module TransformerSpec.

(** A field that is absent, null or a text. *)
Definition optional_text (d : dict) (key : string) : Prop :=
  dict_lookup d key = None \/ dict_lookup d key = Some VNone \/
  exists s, dict_lookup d key = Some (VStr s).

(** A field that is absent or a text. *)
Definition absent_or_text (d : dict) (key : string) : Prop :=
  dict_lookup d key = None \/ exists s, dict_lookup d key = Some (VStr s).

(** A field that is absent or a dictionary, as a dictionary. *)
Definition sub_dict (d : dict) (key : string) : option dict :=
  match dict_lookup d key with
  | None => Some []
  | Some (VDict d') => Some d'
  | Some _ => None
  end.

(** The text of a field, empty when the field is absent or null. *)
Definition field_text (d : dict) (key : string) : string :=
  match dict_lookup d key with
  | Some (VStr s) => s
  | _ => ""
  end.

(** The value of a field, null when the field is absent. *)
Definition field_or_null (d : dict) (key : string) : value :=
  default VNone (dict_lookup d key).

(** The first non-empty text of a list, the empty text if there is
    none. *)
Definition first_non_empty (candidates : list string) : string :=
  default "" (head (filter (fun s => s ≠ "") candidates)).

(** A component of an embedding and what is stored for it: a float is
    stored as it is, an integer as the float nearest to it. *)
Definition stored_as (component stored : value) : Prop :=
  (exists x, component = VFloat x /\ stored = VFloat x) \/
  (exists n x, component = VInt n /\ PyFloat.of_int n = Ok x /\
               stored = VFloat x).

(** An embedding that is a list of numbers, and the vector stored for it:
    the same numbers as floats. *)
Definition dense_vector (embedding vector : value) : Prop :=
  exists components floats,
    embedding = VList components /\ vector = VList floats /\
    Forall2 stored_as components floats.

(** An embedding that is no vector at all: null, a truth value, a number
    or a text. *)
Definition no_vector (embedding : value) : Prop :=
  match embedding with
  | VNone | VBool _ | VInt _ | VFloat _ | VStr _ => True
  | VList _ | VDict _ => False
  end.

(** The destination record of a source record with fields [d], metadata
    [md] and original record [orig], for the id and the vector the
    constructor makes of [id] and [embedding]. *)
Definition destination_record (d md orig : dict) (id : point_id)
    (vector : value) : PointStruct :=
  {| pt_id := id;
     pt_vector := vector;
     pt_payload :=
       VDict
         [("embedding_id", field_or_null d "embedding_id");
          ("embedding_text", VStr (field_text d "embedding_text"));
          ("content",
           VStr (Loader.string_take 1000
                   (first_non_empty
                      [field_text orig "description";
                       field_text orig "text";
                       field_text orig "abstract";
                       field_text d "embedding_text"])));
          ("source_file", field_or_null md "source_file");
          ("category", field_or_null md "category");
          ("metadata",
           VDict [("title", field_or_null orig "title");
                  ("severity", field_or_null orig "severity");
                  ("organization", field_or_null orig "organization");
                  ("incident_date", field_or_null orig "incident_date")])] |}.

End TransformerSpec.

(** ** Worlds the examples run in *)
Module Examples.

(** The point with the id [n]; its vector is [[1.0, 0.0]]. *)
Definition point (n : Z) : PointStruct :=
  {| pt_id := IdInt n;
     pt_vector := VList [VFloat (S754_finite false 4503599627370496 (-52));
                         VFloat (S754_zero false)];
     pt_payload := VDict [("n", VInt n)] |}.

(** A clock that advances by one second per reading for an hour, then
    stands still. *)
Definition seconds_clock (n : nat) : Z := 1000000 * Z.min (Z.of_nat n) 3600.

Definition environment : gmap string string :=
  {[ "TARGET_QDRANT_HOST" := "cluster.example";
     "TARGET_QDRANT_API_KEY" := "secret";
     "COLLECTION_NAME" := "incidents" ]}.

(** A world whose source holds the collection ["incidents"]. *)
Definition world (c : SourceCollection)
    (target : gmap string TargetCollection) : World :=
  {| environ := environment;
     source_store := {[ "incidents" := c ]};
     target_store := target;
     clock := seconds_clock;
     ticks := 0;
     trace := [] |}.

(** A world whose source holds no collection at all. *)
Definition world_without_source : World :=
  {| environ := environment;
     source_store := ∅;
     target_store := ∅;
     clock := seconds_clock;
     ticks := 0;
     trace := [] |}.

Definition three_points : list PointStruct := [point 1; point 2; point 3].

(** The port every text stands for, and the text of every clock reading:
    stand-ins for the two library functions. *)
Definition port_6333 (text : string) : option Z := Some 6333.
Definition no_text (t : Z) : string := "".

(** The three points in the store the jobs connect to. *)
Definition cursor_source : SourceCollection :=
  cursor_collection 2 COSINE three_points.

(** A source whose metric is the dot product. *)
Definition dot_source : SourceCollection := honest_collection 2 DOT three_points.

(** A source that reports three points and holds two, and one that
    reports one point and holds two. *)
Definition over_reporting : SourceCollection :=
  list_collection 3 2 COSINE [point 1; point 2].
Definition under_reporting : SourceCollection :=
  list_collection 1 2 COSINE [point 1; point 2].

(** A destination whose collection exists and is empty. *)
Definition empty_target : gmap string TargetCollection :=
  {[ "incidents" := {| tc_size := 2; tc_distance := COSINE;
                       tc_points := ∅ |} ]}.

(** A destination that already holds a point the source does not. *)
Definition populated_target : gmap string TargetCollection :=
  {[ "incidents" := {| tc_size := 2; tc_distance := COSINE;
                       tc_points := {[ IdInt 99 := point 99 ]} |} ]}.

(** A source record without [id], and one whose embedding is a text. *)
Definition record_without_id : value :=
  VDict [("embedding", VList [VFloat (S754_zero false)]);
         ("embedding_text", VStr "text")].

Definition record_with_text_embedding : value :=
  VDict [("id", VInt 1); ("embedding", VStr "abc")].

(** A record whose embedding holds an integer no float is equal to,
    [2^53 + 1]. *)
Definition record_with_integer_embedding : value :=
  VDict [("id", VInt 1);
         ("embedding", VList [VInt 9007199254740993; VFloat (S754_zero false)])].

(** A complete record. *)
Definition complete_record : dict :=
  [("id", VInt 7);
   ("embedding", VList [VFloat (S754_zero false)]);
   ("embedding_text", VStr "text");
   ("metadata",
    VDict [("category", VStr "breach");
           ("original_record",
            VDict [("description", VStr "");
                   ("text", VStr "a leak");
                   ("title", VStr "Leak")])])].

End Examples.

(** * More of the code

    The rest of the three files: what [main] of the migration prints and
    exits with, the batches and the completion message of the loader, the
    upload and [main] of the export. *)

(** ** Further readers of a trace *)

(** A request to either store. *)
Definition is_call (e : event) : bool :=
  match e with Called _ => true | Printed _ => false end.

(** The progress lines of the migration loop, in order: the percentage,
    the running count and the total each one shows. *)
Definition progress_lines (tr : list event) : list (Z * Z * Z) :=
  omap (fun e => match e with
                 | Printed (MsgProgress p m t _ _) => Some (p, m, t)
                 | _ => None
                 end) tr.

(** The number of records received after each non-empty page of a
    sequence of pages, counting from [start]. *)
Fixpoint running_counts (start : Z) (pages : list Page) : list Z :=
  match pages with
  | [] => []
  | page :: rest =>
      match records page with
      | [] => running_counts start rest
      | _ :: _ =>
          let n := start + Z.of_nat (length (records page)) in
          n :: running_counts n rest
      end
  end.

(** ** Environments *)

(** An environment [main] cannot set its two clients up from: the text of
    the source port is not a number, or the destination's host or its API
    key is unset or empty. *)
Definition unusable_environment (int_of_str : string -> option Z)
    (w : World) : Prop :=
  int_of_str (default "6333" (environ w !! "SOURCE_QDRANT_PORT")) = None \/
  environ w !! "TARGET_QDRANT_HOST" = None \/
  environ w !! "TARGET_QDRANT_HOST" = Some "" \/
  environ w !! "TARGET_QDRANT_API_KEY" = None \/
  environ w !! "TARGET_QDRANT_API_KEY" = Some "".

(** ** More worlds for the examples *)
Module MoreExamples.

(** The world of the examples with another environment. *)
Definition with_environ (env : gmap string string) (w : World) : World :=
  {| environ := env; source_store := source_store w;
     target_store := target_store w; clock := clock w;
     ticks := ticks w; trace := trace w |}.

(** A world whose environment lacks the destination's API key. *)
Definition world_without_key : World :=
  with_environ (delete "TARGET_QDRANT_API_KEY" Examples.environment)
    (Examples.world (honest_collection 2 COSINE Examples.three_points)
       Examples.empty_target).


(** A destination whose collection takes vectors of three components. *)
Definition target_of_dimension_3 : gmap string TargetCollection :=
  {[ "incidents" := {| tc_size := 3; tc_distance := COSINE;
                       tc_points := ∅ |} ]}.

End MoreExamples.

(** ** A destination that may not answer

    [ensure_collection_exists] of the migration asks the destination for
    the collection and takes any exception of that request for the
    absence of the collection. The client of the destination is built
    with a timeout: the request can end in an exception although the
    collection is there. Here is the function over such a connection:
    [fault] is the exception the request ends in when no answer comes,
    [None] when the destination answers. *)
Module Unreliable.
Import Qdrant.

(** [target_client.get_collection(name)] *)
Definition target_get_collection (fault : option exn) (name : string)
    : M CollectionInfo :=
  match fault with
  | None => Qdrant.target_get_collection name
  | Some e => record (Called (TgtGetCollection name));; raise e
  end.

Definition ensure_collection_exists (fault : option exn)
    (collection_name : string) (vector_size : Z) : M unit :=
  try_except
    (target_get_collection fault collection_name;;
     print (MsgAlreadyExists collection_name))
    (fun _ =>
       print (MsgCreating collection_name);;
       target_recreate_collection collection_name vector_size COSINE;;
       print MsgCreated).

End Unreliable.

(** ** What a loop may do to the destination *)

(** A destination store that holds all that another one held: every
    collection, with its vector parameters, a point under every id that
    had one, and no fewer points. *)
Definition keeps_points (before after : gmap string TargetCollection) : Prop :=
  forall name tc,
    before !! name = Some tc ->
    exists tc',
      after !! name = Some tc' /\
      tc_size tc' = tc_size tc /\ tc_distance tc' = tc_distance tc /\
      (forall i, is_Some (tc_points tc !! i) -> is_Some (tc_points tc' !! i)) /\
      (size (tc_points tc) <= size (tc_points tc'))%nat.

(** A computation that, however it ends, leaves a destination that holds
    all it held, has no new collection, and differs in the collection
    [name] at most. *)
Definition writes_into (name : string) {A} (c : M A) : Prop :=
  forall w o w',
    c w = (o, w') ->
    keeps_points (target_store w) (target_store w') /\
    (forall other, other <> name ->
       target_store w' !! other = target_store w !! other) /\
    (target_store w !! name = None -> target_store w' !! name = None).

(** ** What a computation may raise *)

(** A result, and a computation, that raises nothing but what
    [except Exception] catches: it never raises [SystemExit]. *)
Definition result_only_exceptions {A} (r : result A) : Prop :=
  forall e, r = Raise e -> is_Exception e = true.

Definition only_exceptions {A} (c : M A) : Prop :=
  forall w e w', c w = (Raised e, w') -> is_Exception e = true.

(** The lines [main] prints before it exits with status 1. *)
Definition is_error_line (e : event) : bool :=
  match e with
  | Printed (MsgError _) | Printed (MsgErrorNotFound _) => true
  | _ => false
  end.

(** The last line of the summary [main] prints before it returns. *)
Definition is_summary_end (e : event) : bool :=
  match e with Printed (MsgResultVectorSize _) => true | _ => false end.

(** A progress line that shows the count [n] out of [total_points], with
    the percentage the progress computation gives for them. *)
Definition shows (total_points : Z) (line : Z * Z * Z) (n : Z) : Prop :=
  let '(percent, migrated_count, total) := line in
  migrated_count = n /\ total = total_points /\
  Migrate.progress_of n total_points = Ok percent.

(** ** The export *)

(** The entry the export writes for a point. *)
Definition exported_point (p : PointStruct) : value :=
  VDict [("id", Exporter.value_of_id (pt_id p));
         ("vector", pt_vector p);
         ("payload", pt_payload p)].

(** What [export_collection] returns for a collection name, a time text
    and the points collected. *)
Definition export_data (name exported_at : string)
    (points : list PointStruct) : value :=
  VDict
    [("metadata",
      VDict [("collection", VStr name);
             ("exported_at", VStr exported_at);
             ("total_points", VInt (Z.of_nat (length points)))]);
     ("points", VList (map exported_point points))].

(** ** The loader *)

(** The length of a value that has one: a text or a list. *)
Definition value_length (v : value) : option nat :=
  match v with
  | VStr s => Some (String.length s)
  | VList l => Some (length l)
  | _ => None
  end.

(** * Jobs over another state

    The loader and the export's [main] reach services the migration does
    not: a message topic, a storage bucket. Their runs are computations
    over a state of their own, with the same outcomes. *)
Module Job.
Section WithState.
Context {S : Type}.

Definition T (A : Type) : Type := S -> outcome A * S.

Definition ret {A} (a : A) : T A := fun s => (Done a, s).

Definition bind {A B} (c : T A) (k : A -> T B) : T B :=
  fun s =>
    match c s with
    | (Done a, s') => k a s'
    | (Raised e, s') => (Raised e, s')
    | (OutOfFuel, s') => (OutOfFuel, s')
    end.

Definition raise {A} (e : exn) : T A := fun s => (Raised e, s).

Definition lift {A} (r : result A) : T A :=
  match r with Ok a => ret a | Raise e => raise e end.

(** [try: body except Exception as e: handler e] *)
Definition try_except {A} (body : T A) (handler : exn -> T A) : T A :=
  fun s =>
    match body s with
    | (Raised e, s') => if is_Exception e then handler e s' else (Raised e, s')
    | r => r
    end.

End WithState.
Arguments T : clear implicits.
End Job.

Declare Scope job_scope.
Delimit Scope job_scope with job.
Bind Scope job_scope with Job.T.
Notation "x <- c ;; k" := (Job.bind c (fun x => k))
  (at level 100, c at next level, k at level 200, right associativity,
   only parsing) : job_scope.
Notation "c ;; k" := (Job.bind c (fun _ => k))
  (at level 100, k at level 200, right associativity, only parsing)
  : job_scope.

(** ** [cloud-functions-fixed/qdrant-loader/main.py]: the load *)
Module LoaderJob.
Import Loader.
Local Open Scope job_scope.

Definition COLLECTION_NAME : string := "sengol_incidents_full".
Definition EMBEDDING_DIMENSIONS : Z := 1536.
Definition BATCH_SIZE : nat := 100.

(** The lines the function prints, one constructor per [print]
    statement. *)
Inductive line :=
| LineFound (n : Z)
| LineNoEmbeddings
| LineUpsertingBatch (number batches : Z)
| LineUpserted (total_upserted : Z)
| LinePublished
| LineErrorLoading (e : exn)
| LineCreating (name : string)
| LineCreated
| LineExists (name : string)
| LineErrorEnsuring (e : exn).

(** Requests to the vector store. *)
Inductive request :=
| GetCollections
| CreateCollection (name : string) (size : Z) (distance : Distance)
| Upsert (name : string) (points : list PointStruct).

(** What happens in a run: a line printed, a request to the store, a
    message accepted by the topic. The message is kept as the dictionary
    [json.dumps] is given, with its attributes. *)
Inductive happening :=
| Said (l : line)
| Asked (r : request)
| Published (topic : string) (data : value)
    (attributes : list (string * string)).

(** The environment variables, the collections of the vector store, and
    what has happened so far. *)
Record Cloud := {
  environ : gmap string string;
  qdrant : gmap string TargetCollection;
  journal : list happening;
}.

Definition Run (A : Type) : Type := Job.T Cloud A.

Definition note (h : happening) : Run unit :=
  fun s => (Done tt, {| environ := environ s; qdrant := qdrant s;
                        journal := journal s ++ [h] |}).

Definition print (l : line) : Run unit := note (Said l).

Definition set_qdrant (q : gmap string TargetCollection) : Run unit :=
  fun s => (Done tt, {| environ := environ s; qdrant := q;
                        journal := journal s |}).

(** [os.environ.get(name, dflt)] *)
Definition environ_get (name dflt : string) : Run string :=
  fun s => (Done (default dflt (environ s !! name)), s).

(** [qdrant_client.get_collections()], as the list of names. *)
Definition get_collections : Run (list string) :=
  note (Asked GetCollections);;
  fun s => (Done (Qdrant.names_of (qdrant s)), s).

(** [qdrant_client.create_collection(name, VectorParams(size,
    distance))]: refused when the name is taken, an empty collection
    otherwise. *)
Definition create_collection (name : string) (size : Z)
    (distance : Distance) : Run unit :=
  note (Asked (CreateCollection name size distance));;
  fun s =>
    match qdrant s !! name with
    | Some _ => (Raised UnexpectedResponse, s)
    | None =>
        set_qdrant (<[name := {| tc_size := size; tc_distance := distance;
                                 tc_points := ∅ |}]> (qdrant s)) s
    end.

(** [qdrant_client.upsert(name, points, wait=True)]: refused when the
    collection does not exist or when a vector has not the collection's
    dimension; applied whole otherwise. *)
Definition upsert (name : string) (points : list PointStruct) : Run unit :=
  note (Asked (Upsert name points));;
  fun s =>
    match qdrant s !! name with
    | Some c =>
        if forallb (fun p => bool_decide (vector_dim p = Some (tc_size c)))
             points
        then set_qdrant
               (<[name := {| tc_size := tc_size c;
                             tc_distance := tc_distance c;
                             tc_points := upsert_points points (tc_points c)
                          |}]> (qdrant s)) s
        else (Raised UnexpectedResponse, s)
    | None => (Raised UnexpectedResponse, s)
    end.

(** An attribute of a message: the topic takes texts only, and refuses
    anything else with [TypeError]. *)
Definition attribute (v : value) : result string :=
  match v with
  | VStr s => Ok s
  | _ => Raise TypeError
  end.

(** [publisher.topic_path(project, topic)] *)
Definition topic_path (project topic : string) : string :=
  "projects/" +:+ project +:+ "/topics/" +:+ topic.

(** [publisher.publish(topic, json.dumps(data).encode('utf-8'),
    sourceId=source_id, category=category)] *)
Definition publish (topic : string) (data source_id category : value)
    : Run unit :=
  source_id_text <- Job.lift (attribute source_id);;
  category_text <- Job.lift (attribute category);;
  note (Published topic data
          [("sourceId", source_id_text); ("category", category_text)]).

(** [range(0, stop, step)] *)
Definition range (stop step : nat) : list nat :=
  (fun k => k * step)%nat <$> seq 0 (Nat.div (stop + step - 1) step).

Definition ensure_collection_exists : Run unit :=
  Job.try_except
    (collection_names <- get_collections;;
     if bool_decide (COLLECTION_NAME ∉ collection_names) then
       print (LineCreating COLLECTION_NAME);;
       create_collection COLLECTION_NAME EMBEDDING_DIMENSIONS COSINE;;
       print LineCreated
     else print (LineExists COLLECTION_NAME))
    (fun e =>
       print (LineErrorEnsuring e);;
       Job.raise e).

(** The [for i in range(0, len(embeddings), BATCH_SIZE)] loop, over the
    indices left; it returns [total_upserted]. *)
Fixpoint upsert_batches (indices : list nat) (embeddings : list value)
    (total_upserted : Z) : Run Z :=
  match indices with
  | [] => Job.ret total_upserted
  | i :: indices' =>
      let batch := take BATCH_SIZE (drop i embeddings) in
      print (LineUpsertingBatch
               (Z.of_nat i / Z.of_nat BATCH_SIZE + 1)
               ((Z.of_nat (length embeddings) - 1) / Z.of_nat BATCH_SIZE + 1));;
      points <- Job.lift (points_of_batch batch);;
      upsert COLLECTION_NAME points;;
      upsert_batches indices' embeddings
        (total_upserted + Z.of_nat (length points))
  end.

(** [load_to_qdrant] from the point where the embeddings file has been
    parsed into [embeddings] (the [print] of their number), with the
    handler of its [try]. [task] is the decoded message: a dictionary,
    for the function has called its [get] before. *)
Definition load_to_qdrant (task : dict) (embeddings : list value)
    : Run unit :=
  Job.try_except
    (print (LineFound (Z.of_nat (length embeddings)));;
     if bool_decide (length embeddings = 0%nat) then
       print LineNoEmbeddings
     else
       ensure_collection_exists;;
       total_upserted <-
         upsert_batches (range (length embeddings) BATCH_SIZE) embeddings 0;;
       print (LineUpserted total_upserted);;
       project <- environ_get "GCP_PROJECT" "elite-striker-477619-p8";;
       let topic := topic_path project "sengol-qdrant-updated" in
       source_id <- Job.lift (get (VDict task) "sourceId" VNone);;
       source_name <- Job.lift (get (VDict task) "sourceName" VNone);;
       category <- Job.lift (get (VDict task) "category" VNone);;
       let completion_data :=
         VDict [("sourceId", source_id);
                ("sourceName", source_name);
                ("category", category);
                ("vectorsLoaded", VInt total_upserted)] in
       source_id_attribute <- Job.lift (get (VDict task) "sourceId" (VStr ""));;
       category_attribute <- Job.lift (get (VDict task) "category" (VStr ""));;
       publish topic completion_data source_id_attribute category_attribute;;
       print LinePublished)
    (fun e =>
       print (LineErrorLoading e);;
       Job.raise e).

End LoaderJob.

(** ** What the statements about the load are written with *)

(** The state of the loader after some more happenings, and after a
    change of the vector store. *)
Definition noted (hs : list LoaderJob.happening) (s : LoaderJob.Cloud)
    : LoaderJob.Cloud :=
  {| LoaderJob.environ := LoaderJob.environ s;
     LoaderJob.qdrant := LoaderJob.qdrant s;
     LoaderJob.journal := LoaderJob.journal s ++ hs |}.

Definition stored (q : gmap string TargetCollection) (s : LoaderJob.Cloud)
    : LoaderJob.Cloud :=
  {| LoaderJob.environ := LoaderJob.environ s;
     LoaderJob.qdrant := q;
     LoaderJob.journal := LoaderJob.journal s |}.

(** The collection the loader writes into: the one that exists, or the
    empty one [ensure_collection_exists] creates. *)
Definition loader_collection_before (s : LoaderJob.Cloud) : TargetCollection :=
  match LoaderJob.qdrant s !! LoaderJob.COLLECTION_NAME with
  | Some tc => tc
  | None => {| tc_size := LoaderJob.EMBEDDING_DIMENSIONS;
               tc_distance := COSINE; tc_points := ∅ |}
  end.

(** What [ensure_collection_exists] leaves in the journal. *)
Definition ensure_happenings (existed : bool) : list LoaderJob.happening :=
  LoaderJob.Asked LoaderJob.GetCollections
  :: if existed
     then [LoaderJob.Said (LoaderJob.LineExists LoaderJob.COLLECTION_NAME)]
     else [LoaderJob.Said (LoaderJob.LineCreating LoaderJob.COLLECTION_NAME);
           LoaderJob.Asked
             (LoaderJob.CreateCollection LoaderJob.COLLECTION_NAME
                LoaderJob.EMBEDDING_DIMENSIONS COSINE);
           LoaderJob.Said LoaderJob.LineCreated].

(** What the [k]-th batch leaves in the journal: its line, numbered from
    1, and the request with its slice of the points. *)
Definition batch_happenings (points : list PointStruct) (batches : Z)
    (k : nat) : list LoaderJob.happening :=
  [LoaderJob.Said (LoaderJob.LineUpsertingBatch (Z.of_nat k + 1) batches);
   LoaderJob.Asked
     (LoaderJob.Upsert LoaderJob.COLLECTION_NAME
        (take LoaderJob.BATCH_SIZE (drop (k * LoaderJob.BATCH_SIZE) points)))].

(** The point lists of the upsert requests of a journal, in order. *)
Definition upserted_batches (j : list LoaderJob.happening)
    : list (list PointStruct) :=
  omap (fun h => match h with
                 | LoaderJob.Asked (LoaderJob.Upsert _ points) => Some points
                 | _ => None
                 end) j.

(** The messages a journal shows as published: topic, data and
    attributes. *)
Definition published (j : list LoaderJob.happening)
    : list (string * value * list (string * string)) :=
  omap (fun h => match h with
                 | LoaderJob.Published topic data attributes =>
                     Some (topic, data, attributes)
                 | _ => None
                 end) j.

(** The requests of a journal. *)
Definition requests (j : list LoaderJob.happening) : list LoaderJob.request :=
  omap (fun h => match h with
                 | LoaderJob.Asked r => Some r
                 | _ => None
                 end) j.

(** A field of the task that is absent or a text: what the topic accepts
    as an attribute. *)
Definition text_or_absent (task : dict) (key : string) : Prop :=
  dict_lookup task key = None \/ exists s, dict_lookup task key = Some (VStr s).

(** The text of an attribute: the empty text for an absent field. *)
Definition attribute_text (task : dict) (key : string) : string :=
  match dict_lookup task key with
  | Some (VStr s) => s
  | _ => ""
  end.

(** The number of batches of [n] records: the length of
    [range(0, n, BATCH_SIZE)]. *)
Definition batch_count (n : nat) : nat :=
  Nat.div (n + LoaderJob.BATCH_SIZE - 1) LoaderJob.BATCH_SIZE.

(** The message the load publishes once it has upserted [n] vectors:
    the topic, the data and the attributes. *)
Definition completion_message (s : LoaderJob.Cloud) (task : dict) (n : Z)
    : string * value * list (string * string) :=
  (LoaderJob.topic_path
     (default "elite-striker-477619-p8" (LoaderJob.environ s !! "GCP_PROJECT"))
     "sengol-qdrant-updated",
   VDict [("sourceId", default VNone (dict_lookup task "sourceId"));
          ("sourceName", default VNone (dict_lookup task "sourceName"));
          ("category", default VNone (dict_lookup task "category"));
          ("vectorsLoaded", VInt n)],
   [("sourceId", attribute_text task "sourceId");
    ("category", attribute_text task "category")]).

(** What a load that completes leaves in the journal. *)
Definition load_happenings (s : LoaderJob.Cloud) (task : dict)
    (embeddings : list value) (points : list PointStruct)
    : list LoaderJob.happening :=
  let n := Z.of_nat (length embeddings) in
  let batches := (n - 1) / Z.of_nat LoaderJob.BATCH_SIZE + 1 in
  let '(topic, data, attributes) := completion_message s task n in
  [LoaderJob.Said (LoaderJob.LineFound n)]
  ++ ensure_happenings
       (bool_decide (is_Some (LoaderJob.qdrant s !! LoaderJob.COLLECTION_NAME)))
  ++ concat (batch_happenings points batches
             <$> seq 0 (batch_count (length embeddings)))
  ++ [LoaderJob.Said (LoaderJob.LineUpserted n);
      LoaderJob.Published topic data attributes;
      LoaderJob.Said LoaderJob.LinePublished].

(** The collections a journal shows as asked for: name, size and
    metric. *)
Definition created (j : list LoaderJob.happening)
    : list (string * Z * Distance) :=
  omap (fun h => match h with
                 | LoaderJob.Asked (LoaderJob.CreateCollection name size distance) =>
                     Some (name, size, distance)
                 | _ => None
                 end) j.

(** ** A task and a store for the examples *)
Module LoaderExamples.

Definition task : dict :=
  [("sourceId", VStr "source-1");
   ("sourceName", VStr "feed");
   ("category", VStr "breach")].

(** A store whose collection exists, for vectors of one component. *)
Definition state : LoaderJob.Cloud :=
  {| LoaderJob.environ := ∅;
     LoaderJob.qdrant :=
       {[ "sengol_incidents_full" :=
            {| tc_size := 1; tc_distance := COSINE; tc_points := ∅ |} ]};
     LoaderJob.journal := [] |}.

(** The point the transformer makes of [Examples.complete_record]. *)
Definition loaded_point : PointStruct :=
  {| pt_id := IdInt 7;
     pt_vector := VList [VFloat (S754_zero false)];
     pt_payload :=
       VDict [("embedding_id", VNone);
              ("embedding_text", VStr "text");
              ("content", VStr "a leak");
              ("source_file", VNone);
              ("category", VStr "breach");
              ("metadata",
               VDict [("title", VStr "Leak");
                      ("severity", VNone);
                      ("organization", VNone);
                      ("incident_date", VNone)])] |}.

End LoaderExamples.

(** * [cloud-jobs/export-qdrant-to-gcs/main.py]: the upload and [main] *)
Module ExportJob.
Import Qdrant.
Import Stdlib.Strings.Ascii.
Local Open Scope job_scope.

(** The lines [get_qdrant_client], [upload_to_gcs] and [main] print, one
    constructor per [print] statement. *)
Inductive line :=
| LineConnecting (host : string) (port : Z)
| LineChecking
| LineAvailable (names : list string)
| LineErrorNotFound (name : string)
| LineStarting (name : string)
| LineUploading (bucket_name file_name : string)
| LineUploadComplete (file_size_mb : number)
| LineCompleted
| LineDataLocation (gcs_path : string)
| LineTotalPoints (total_points : value)
| LineError (e : exn).

(** What these three functions do: a line printed, an object written to
    a bucket. *)
Inductive happening :=
| Said (l : line)
| Uploaded (bucket_name file_name content : string).

(** The world [export_collection] runs in (environment, vector store,
    clock, and the trace of its calls and lines), the objects of the
    buckets, keyed by bucket and name, and what the three functions have
    done so far. *)
Record Cloud := {
  world : World;
  objects : gmap (string * string) string;
  journal : list happening;
}.

Definition Run (A : Type) : Type := Job.T Cloud A.

(** A computation of the vector-store world, run in the cloud. *)
Definition inner {A} (c : M A) : Run A :=
  fun s =>
    let '(o, w') := c (world s) in
    (o, {| world := w'; objects := objects s; journal := journal s |}).

Definition note (h : happening) : Run unit :=
  fun s => (Done tt, {| world := world s; objects := objects s;
                        journal := journal s ++ [h] |}).

Definition print (l : line) : Run unit := note (Said l).

(** [blob.upload_from_string(content, content_type="application/json")]
    for the blob [file_name] of the bucket [bucket_name]: the object is
    written, over the one of that name if there is one. *)
Definition upload_from_string (bucket_name file_name content : string)
    : Run unit :=
  fun s => (Done tt,
            {| world := world s;
               objects := <[(bucket_name, file_name) := content]> (objects s);
               journal := journal s
                          ++ [Uploaded bucket_name file_name content] |}).

(** [s.replace(old, new)] for two texts of one character. *)
Fixpoint replace_char (old new : ascii) (s : string) : string :=
  match s with
  | EmptyString => EmptyString
  | String c s' =>
      String (if decide (c = old) then new else c) (replace_char old new s')
  end.

Section Job.
(** [int] on a text, [datetime.isoformat] and [json.dumps(data,
    indent=2)]: library functions whose results the job only passes
    on. *)
Variable int_of_str : string -> option Z.
Variable isoformat : Z -> string.
Variable json_dumps : value -> string.

Definition get_qdrant_client : Run unit :=
  qdrant_host <- inner (getenv_default "QDRANT_HOST" "10.128.0.2");;
  port_text <- inner (getenv_default "QDRANT_PORT" "6333");;
  qdrant_port <- Job.lift (Migrate.int int_of_str port_text);;
  print (LineConnecting qdrant_host qdrant_port).

Definition upload_to_gcs (data : value) (bucket_name file_name : string)
    : Run string :=
  print (LineUploading bucket_name file_name);;
  let json_data := json_dumps data in
  upload_from_string bucket_name file_name json_data;;
  file_size_mb <-
    Job.lift
      (let? kb := PyNum.truediv (Int (Z.of_nat (String.length json_data)))
                    (Int 1024) in
       PyNum.truediv kb (Int 1024))%result;;
  print (LineUploadComplete file_size_mb);;
  Job.ret ("gs://" +:+ bucket_name +:+ "/" +:+ file_name).

Definition main (fuel : nat) : Run Z :=
  let collection_name := "sengol_incidents" in
  bucket_name <- inner (getenv_default "GCS_BUCKET" "sengol-data-migrations");;
  Job.try_except
    (get_qdrant_client;;
     print LineChecking;;
     collection_names <- inner source_get_collections;;
     print (LineAvailable collection_names);;
     (if bool_decide (collection_name ∉ collection_names) then
        print (LineErrorNotFound collection_name);;
        Job.raise (SystemExit 1)
      else Job.ret tt);;
     print (LineStarting collection_name);;
     export_data <-
       inner (Exporter.export_collection isoformat fuel collection_name 100);;
     now <- inner utcnow;;
     let timestamp :=
       replace_char "."%char "-"%char
         (replace_char ":"%char "-"%char (isoformat now)) in
     let file_name :=
       "qdrant-exports/sengol_incidents-" +:+ timestamp +:+ ".json" in
     gcs_path <- upload_to_gcs export_data bucket_name file_name;;
     print LineCompleted;;
     print (LineDataLocation gcs_path);;
     total_points <-
       Job.lift (Migrate.metadata_field export_data "total_points");;
     print (LineTotalPoints total_points);;
     Job.ret 0)
    (fun e =>
       print (LineError e);;
       Job.raise (SystemExit 1)).

(** [sys.exit(main())]: the exit status of the process, [None] when the
    model ran out of fuel. *)
Definition script (fuel : nat) (s : Cloud) : option Z * Cloud :=
  match main fuel s with
  | (Done code, s') => (Some code, s')
  | (Raised (SystemExit code), s') => (Some code, s')
  | (Raised _, s') => (Some 1, s')
  | (OutOfFuel, s') => (None, s')
  end.

End Job.
End ExportJob.

(** ** What the statements about the export job are written with *)

(** The cloud after a change of the inner world, and after some more
    happenings. *)
Definition with_world (w : World) (s : ExportJob.Cloud) : ExportJob.Cloud :=
  {| ExportJob.world := w; ExportJob.objects := ExportJob.objects s;
     ExportJob.journal := ExportJob.journal s |}.

Definition journaled (hs : list ExportJob.happening) (s : ExportJob.Cloud)
    : ExportJob.Cloud :=
  {| ExportJob.world := ExportJob.world s;
     ExportJob.objects := ExportJob.objects s;
     ExportJob.journal := ExportJob.journal s ++ hs |}.

(** The objects a journal shows as uploaded: bucket, name and content. *)
Definition uploads (j : list ExportJob.happening)
    : list (string * string * string) :=
  omap (fun h => match h with
                 | ExportJob.Uploaded bucket_name file_name content =>
                     Some (bucket_name, file_name, content)
                 | _ => None
                 end) j.

(** Whether a character occurs in a text. *)
Fixpoint has_char (c : Ascii.ascii) (s : string) : bool :=
  match s with
  | EmptyString => false
  | String c' s' => bool_decide (c' = c) || has_char c s'
  end.

(** The two characters [main] takes out of the time text, the timestamp
    it makes of a clock reading, and the name it gives the file. *)
Module ExportText.
Import Stdlib.Strings.Ascii.

Definition colon : ascii := ":".
Definition full_stop : ascii := ".".

Definition timestamp_of (isoformat : Z -> string) (now : Z) : string :=
  ExportJob.replace_char "." "-"
    (ExportJob.replace_char ":" "-" (isoformat now)).

Definition file_name_of (timestamp : string) : string :=
  "qdrant-exports/sengol_incidents-" +:+ timestamp +:+ ".json".

End ExportText.

(** The bucket [main] reads from the environment. *)
Definition configured_bucket (s : ExportJob.Cloud) : string :=
  default "sengol-data-migrations"
    (environ (ExportJob.world s) !! "GCS_BUCKET").

(** ** A cloud for the examples *)
Module ExportExamples.

(** Stand-ins for [datetime.isoformat] and [json.dumps]. *)
Definition fixed_time (t : Z) : string := "2024-01-02T03:04:05.678901".
Definition braces (v : value) : string := "{}".

(** The source holds three points under the name the export asks for;
    the environment names another collection and no bucket. *)
Definition cloud : ExportJob.Cloud :=
  {| ExportJob.world :=
       {| environ := {[ "COLLECTION_NAME" := "incidents" ]};
          source_store := {[ "sengol_incidents" := Examples.cursor_source ]};
          target_store := ∅;
          clock := Examples.seconds_clock;
          ticks := 0;
          trace := [] |};
     ExportJob.objects := ∅;
     ExportJob.journal := [] |}.

(** The same with a source whose collection holds no point. *)
Definition cloud_of_no_points : ExportJob.Cloud :=
  {| ExportJob.world :=
       {| environ := {[ "COLLECTION_NAME" := "incidents" ]};
          source_store :=
            {[ "sengol_incidents" := cursor_collection 2 COSINE [] ]};
          target_store := ∅;
          clock := Examples.seconds_clock;
          ticks := 0;
          trace := [] |};
     ExportJob.objects := ∅;
     ExportJob.journal := [] |}.

(** The same with a source that holds the collection under the name the
    environment gives only. *)
Definition cloud_without_collection : ExportJob.Cloud :=
  {| ExportJob.world :=
       {| environ := {[ "COLLECTION_NAME" := "incidents" ]};
          source_store :=
            {[ "incidents" :=
                 honest_collection 2 COSINE Examples.three_points ]};
          target_store := ∅;
          clock := Examples.seconds_clock;
          ticks := 0;
          trace := [] |};
     ExportJob.objects := ∅;
     ExportJob.journal := [] |}.

End ExportExamples.

(** ** Further readers *)

(** The batch lines of a journal: the number of the batch and the
    number of batches each one shows. *)
Definition batch_lines (j : list LoaderJob.happening) : list (Z * Z) :=
  omap (fun h => match h with
                 | LoaderJob.Said (LoaderJob.LineUpsertingBatch number batches) =>
                     Some (number, batches)
                 | _ => None
                 end) j.

(** The upsert requests of a trace: the point lists, in order. *)
Definition upsert_attempts (tr : list event) : list (list PointStruct) :=
  omap (fun e => match e with
                 | Called (TgtUpsert _ points) => Some points
                 | _ => None
                 end) tr.

(** * Facts *)

(** ** Floats in the range of normal numbers *)
Section FloatBounds.
Import PyFloat.

Lemma digits2_pos_size p : digits2_pos p = Pos.size p.
Proof. induction p; simpl; congruence. Qed.

Lemma Zdigits2_log2 p : Z.pos (digits2_pos p) = Z.log2 (Z.pos p) + 1.
Proof.
rewrite digits2_pos_size. destruct p; simpl; try lia.
Qed.

Lemma has_digits_pos p : has_digits (Z.pos p) (Z.pos (digits2_pos p)).
Proof.
rewrite Zdigits2_log2. split. { pose proof (Z.log2_nonneg (Z.pos p)). lia. }
replace (Z.log2 (Z.pos p) + 1 - 1) with (Z.log2 (Z.pos p)) by lia.
apply (Z.log2_spec (Z.pos p)). lia.
Qed.

Lemma has_digits_unique m d : has_digits m d -> Zdigits2 m = d.
Proof.
intros [Hd [Hlo Hhi]].
assert (0 < m) by (pose proof (Z.pow_pos_nonneg 2 (d - 1)); lia).
destruct m as [|p|p]; try lia. simpl. rewrite Zdigits2_log2.
rewrite (Z.log2_unique (Z.pos p) (d - 1)); [lia|lia|].
replace (Z.succ (d - 1)) with d by lia. done.
Qed.

Lemma has_digits_fun m d d' : has_digits m d -> has_digits m d' -> d = d'.
Proof. intros H1 H2. rewrite <- (has_digits_unique _ _ H1). by apply has_digits_unique. Qed.

Lemma has_digits_Zdigits2 m : 0 < m -> has_digits m (Zdigits2 m).
Proof. destruct m; try lia. intros _. apply has_digits_pos. Qed.

(** Shifting right by [k < d] bits leaves [d - k] digits. *)
Lemma has_digits_shr m d k :
has_digits m d -> 0 <= k < d -> has_digits (m / 2 ^ k) (d - k).
Proof.
intros [Hd [Hlo Hhi]] Hk. split; [lia|].
assert (0 < 2 ^ k) by (apply Z.pow_pos_nonneg; lia).
split.
- apply Z.div_le_lower_bound; [done|].
  rewrite <- Z.pow_add_r by lia. by replace (k + (d - k - 1)) with (d - 1) by lia.
- apply Z.div_lt_upper_bound; [done|].
  rewrite <- Z.pow_add_r by lia. by replace (k + (d - k)) with d by lia.
Qed.

Lemma has_digits_succ m d :
has_digits m d -> has_digits (m + 1) d \/ (m + 1 = 2 ^ d /\ has_digits (m + 1) (d + 1)).
Proof.
intros [Hd [Hlo Hhi]].
destruct (decide (m + 1 < 2 ^ d)).
- left. split; [done|lia].
- right. assert (m + 1 = 2 ^ d) by lia. split; [done|]. split; [lia|].
  replace (d + 1 - 1) with d by lia. split; [lia|].
  rewrite Z.pow_add_r by lia. lia.
Qed.

Lemma shr_1_m mrs : 0 <= shr_m mrs -> shr_m (shr_1 mrs) = shr_m mrs / 2.
Proof.
destruct mrs as [m r s]. simpl. intros Hm.
rewrite <- Z.div2_div.
destruct m as [|[p|p|]|p]; simpl; try lia; reflexivity.
Qed.

Lemma iter_shr_1_m p : forall mrs, 0 <= shr_m mrs ->
shr_m (SpecFloat.iter_pos shr_1 p mrs) = shr_m mrs / 2 ^ Z.pos p.
Proof.
induction p as [p IH|p IH|]; intros mrs Hm; simpl SpecFloat.iter_pos.
- assert (H1 : 0 <= shr_m (shr_1 mrs)).
  { rewrite shr_1_m by done. apply Z.div_pos; lia. }
  assert (H2 : 0 <= shr_m (SpecFloat.iter_pos shr_1 p (shr_1 mrs))).
  { rewrite IH by done. apply Z.div_pos; [done|]. apply Z.pow_pos_nonneg; lia. }
  rewrite IH, IH, shr_1_m by done.
  assert (0 < 2 ^ Z.pos p) by (apply Z.pow_pos_nonneg; lia).
  rewrite !Z.div_div by lia. f_equal.
  replace (Z.pos p~1) with (1 + Z.pos p + Z.pos p) by lia.
  rewrite !Z.pow_add_r by lia. lia.
- assert (H2 : 0 <= shr_m (SpecFloat.iter_pos shr_1 p mrs)).
  { rewrite IH by done. apply Z.div_pos; [done|]. apply Z.pow_pos_nonneg; lia. }
  rewrite IH, IH by done.
  assert (0 < 2 ^ Z.pos p) by (apply Z.pow_pos_nonneg; lia).
  rewrite !Z.div_div by lia. f_equal.
  replace (Z.pos p~0) with (Z.pos p + Z.pos p) by lia.
  rewrite !Z.pow_add_r by lia. lia.
- by rewrite shr_1_m.
Qed.

(** What [shr] does to the mantissa and the exponent. *)
Lemma shr_spec mrs e n :
0 <= shr_m mrs ->
shr_m (fst (shr mrs e n)) = shr_m mrs / 2 ^ Z.max 0 n /\
snd (shr mrs e n) = e + Z.max 0 n.
Proof.
intros Hm. destruct n as [|p|p]; simpl.
- rewrite Z.div_1_r. lia.
- by rewrite iter_shr_1_m.
- rewrite Z.div_1_r. lia.
Qed.

Lemma shr_record_of_loc_m m l : shr_m (shr_record_of_loc m l) = m.
Proof. by destruct l as [|[]]. Qed.

Lemma round_nearest_even_cases m l :
round_nearest_even m l = m \/ round_nearest_even m l = m + 1.
Proof. destruct l as [|[]]; simpl; auto. destruct (Z.even m); auto. Qed.

(** In the range of normal numbers [shr_fexp] keeps the leading 53 bits. *)
Lemma shr_fexp_spec m e l d :
has_digits m d -> -1000 <= d + e ->
shr_m (fst (shr_fexp prec emax m e l)) = m / 2 ^ Z.max 0 (d - 53) /\
snd (shr_fexp prec emax m e l) = e + Z.max 0 (d - 53).
Proof.
intros Hd Hlo. unfold shr_fexp.
rewrite (has_digits_unique _ _ Hd).
assert (Hf : fexp prec emax (d + e) - e = d - 53).
{ unfold fexp, SpecFloat.emin, prec, emax. lia. }
rewrite Hf.
destruct Hd as [? [? ?]].
assert (0 < m) by (pose proof (Z.pow_pos_nonneg 2 (d - 1)); lia).
pose proof (shr_spec (shr_record_of_loc m l) e (d - 53)) as Hs.
rewrite shr_record_of_loc_m in Hs. apply Hs. lia.
Qed.

(** A mantissa rounded by [binary_round_aux] in the range of normal
  numbers gives a finite float of the same or the next magnitude. *)
Lemma binary_round_aux_finite s m e l d :
has_digits m d -> -900 <= d + e <= 900 ->
exists m' e',
  binary_round_aux prec emax s m e l = S754_finite s m' e' /\
  d + e <= Z.pos (digits2_pos m') + e' <= d + e + 1.
Proof.
intros Hd Hr. unfold binary_round_aux.
destruct (shr_fexp_spec m e l d Hd ltac:(lia)) as [Hm1 He1].
destruct (shr_fexp prec emax m e l) as [mrs1 e1]. simpl in Hm1, He1.
set (m2 := round_nearest_even (shr_m mrs1) (loc_of_shr_record mrs1)).
(* the digits of the first shifted mantissa *)
set (d1 := Z.min d 53).
assert (Hd1 : has_digits (shr_m mrs1) d1).
{ rewrite Hm1. subst d1. destruct (Z.max_spec 0 (d - 53)) as [[? ->]|[? ->]].
  - replace (Z.min d 53) with (d - (d - 53)) by lia.
    apply has_digits_shr; [done|]. destruct Hd. lia.
  - rewrite Z.pow_0_r, Z.div_1_r. by replace (Z.min d 53) with d by lia. }
assert (Hme : d1 + e1 = d + e) by (subst d1; lia).
assert (exists d2, has_digits m2 d2 /\ d1 <= d2 <= d1 + 1 /\ d2 <= 54) as (d2 & Hd2 & Hd12 & Hd2').
{ subst m2. destruct (round_nearest_even_cases (shr_m mrs1) (loc_of_shr_record mrs1)) as [->| ->].
  - exists d1. split; [done|]. subst d1. lia.
  - destruct (has_digits_succ _ _ Hd1) as [?|[_ ?]].
    + exists d1. split; [done|]. subst d1; lia.
    + exists (d1 + 1). split; [done|]. subst d1; lia. }
destruct (shr_fexp_spec m2 e1 loc_Exact d2 Hd2 ltac:(lia)) as [Hm3 He3].
destruct (shr_fexp prec emax m2 e1 loc_Exact) as [mrs3 e3]. simpl in Hm3, He3.
assert (Hd3 : has_digits (shr_m mrs3) (d2 - Z.max 0 (d2 - 53))).
{ rewrite Hm3. apply has_digits_shr; [done|]. destruct Hd2. lia. }
destruct Hd3 as [Hp3 Hb3].
assert (0 < shr_m mrs3) by (pose proof (Z.pow_pos_nonneg 2 (d2 - Z.max 0 (d2 - 53) - 1)); lia).
destruct (shr_m mrs3) as [|m3|m3] eqn:E3; try lia.
assert (Hle : (e3 <=? emax - prec) = true).
{ apply Z.leb_le. unfold emax, prec. destruct Hd as [Hdpos _]. lia. }
rewrite Hle. exists m3, e3. split; [done|].
assert (Z.pos (digits2_pos m3) = d2 - Z.max 0 (d2 - 53)).
{ apply (has_digits_fun (Z.pos m3)); [apply has_digits_pos|done]. }
lia.
Qed.

Lemma fin_weaken lo hi lo' hi' x :
finite_in lo hi x -> lo' <= lo -> hi <= hi' -> finite_in lo' hi' x.
Proof. destruct x; simpl; try done. lia. Qed.

Lemma has_digits_shl m d k :
has_digits m d -> 0 <= k -> has_digits (m * 2 ^ k) (d + k).
Proof.
intros [Hd [Hlo Hhi]] Hk. split; [lia|].
assert (0 < 2 ^ k) by (apply Z.pow_pos_nonneg; lia).
replace (d + k - 1) with (d - 1 + k) by lia.
rewrite !Z.pow_add_r by lia. nia.
Qed.

Lemma has_digits_mul m1 d1 m2 d2 :
has_digits m1 d1 -> has_digits m2 d2 ->
has_digits (m1 * m2) (d1 + d2 - 1) \/ has_digits (m1 * m2) (d1 + d2).
Proof.
intros [Hd1 [Hlo1 Hhi1]] [Hd2 [Hlo2 Hhi2]].
assert (0 < 2 ^ (d1 - 1)) by (apply Z.pow_pos_nonneg; lia).
assert (0 < 2 ^ (d2 - 1)) by (apply Z.pow_pos_nonneg; lia).
assert (Hlo : 2 ^ (d1 + d2 - 1 - 1) <= m1 * m2).
{ replace (d1 + d2 - 1 - 1) with ((d1 - 1) + (d2 - 1)) by lia.
  rewrite Z.pow_add_r by lia. nia. }
assert (Hhi : m1 * m2 < 2 ^ (d1 + d2)).
{ rewrite Z.pow_add_r by lia. nia. }
destruct (decide (m1 * m2 < 2 ^ (d1 + d2 - 1))).
- left. split; [lia|]. done.
- right. split; [lia|]. split; [lia|done].
Qed.

Lemma has_digits_div m1 d1 m2 d2 :
has_digits m1 d1 -> has_digits m2 d2 -> d2 < d1 ->
has_digits (m1 / m2) (d1 - d2) \/ has_digits (m1 / m2) (d1 - d2 + 1).
Proof.
intros [Hd1 [Hlo1 Hhi1]] [Hd2 [Hlo2 Hhi2]] Hlt.
assert (0 < 2 ^ (d2 - 1)) by (apply Z.pow_pos_nonneg; lia).
assert (0 < m2) by lia.
assert (Hlo : 2 ^ (d1 - d2 - 1) <= m1 / m2).
{ apply Z.div_le_lower_bound; [done|].
  assert (0 < 2 ^ (d1 - d2 - 1)) by (apply Z.pow_pos_nonneg; lia).
  assert (m2 * 2 ^ (d1 - d2 - 1) <= 2 ^ d2 * 2 ^ (d1 - d2 - 1)) by nia.
  rewrite <- Z.pow_add_r in * by lia.
  replace (d2 + (d1 - d2 - 1)) with (d1 - 1) in * by lia. lia. }
assert (Hhi : m1 / m2 < 2 ^ (d1 - d2 + 1)).
{ apply Z.div_lt_upper_bound; [done|].
  assert (0 < 2 ^ (d1 - d2 + 1)) by (apply Z.pow_pos_nonneg; lia).
  assert (2 ^ (d2 - 1) * 2 ^ (d1 - d2 + 1) <= m2 * 2 ^ (d1 - d2 + 1)) by nia.
  rewrite <- Z.pow_add_r in * by lia.
  replace (d2 - 1 + (d1 - d2 + 1)) with d1 in * by lia. lia. }
destruct (decide (m1 / m2 < 2 ^ (d1 - d2))).
- left. split; [lia|]. done.
- right. split; [lia|]. replace (d1 - d2 + 1 - 1) with (d1 - d2) by lia. lia.
Qed.

Lemma fmul_fin lo1 hi1 lo2 hi2 x y :
finite_in lo1 hi1 x -> finite_in lo2 hi2 y ->
-800 <= lo1 + lo2 -> hi1 + hi2 <= 800 ->
finite_in (lo1 + lo2 - 1) (hi1 + hi2 + 1) (fmul x y).
Proof.
destruct x as [| | |sx mx ex]; try done. destruct y as [| | |sy my ey]; try done.
simpl. intros Hx Hy Hlo Hhi. unfold fmul. simpl SFmul.
pose proof (has_digits_pos mx) as Hdx. pose proof (has_digits_pos my) as Hdy.
rewrite Pos2Z.inj_mul.
destruct (has_digits_mul _ _ _ _ Hdx Hdy) as [Hd|Hd];
  (edestruct (binary_round_aux_finite (xorb sx sy) _ (ex + ey) loc_Exact _ Hd)
    as (m' & e' & -> & Hb); [lia|]; simpl; lia).
Qed.

Lemma fdiv_fin lo1 hi1 lo2 hi2 x y :
finite_in lo1 hi1 x -> finite_in lo2 hi2 y ->
-800 <= lo1 - hi2 -> hi1 - lo2 <= 800 ->
finite_in (lo1 - hi2) (hi1 - lo2 + 2) (fdiv x y).
Proof.
destruct x as [| | |sx mx ex]; try done. destruct y as [| | |sy my ey]; try done.
simpl. intros Hx Hy Hlo Hhi. unfold fdiv. simpl SFdiv.
pose proof (has_digits_pos mx) as Hdx. pose proof (has_digits_pos my) as Hdy.
set (d1 := Z.pos (digits2_pos mx)) in *. set (d2 := Z.pos (digits2_pos my)) in *.
unfold SFdiv_core_binary. simpl Zdigits2. fold d1 d2.
assert (Hf : fexp prec emax (d1 + ex - (d2 + ey)) = d1 + ex - (d2 + ey) - 53).
{ unfold fexp, SpecFloat.emin, prec, emax. lia. }
rewrite Hf.
set (e' := Z.min (d1 + ex - (d2 + ey) - 53) (ex - ey)).
set (s := ex - ey - e').
assert (Hs : 0 <= s /\ 53 - d1 + d2 <= s) by (subst s e'; lia).
assert (Hm' : match s with Z.pos _ => Z.shiftl (Z.pos mx) s | 0 => Z.pos mx | Z.neg _ => 0 end
              = Z.pos mx * 2 ^ s).
{ destruct s as [|p|p] eqn:Es; [lia| |lia]. rewrite Z.shiftl_mul_pow2; lia. }
rewrite Hm'.
pose proof (has_digits_shl _ _ s Hdx ltac:(lia)) as Hdm.
assert (Hq : Z.div_eucl (Z.pos mx * 2 ^ s) (Z.pos my)
             = ((Z.pos mx * 2 ^ s) / Z.pos my, (Z.pos mx * 2 ^ s) mod Z.pos my)).
{ unfold Z.div, Z.modulo. by destruct (Z.div_eucl _ _). }
rewrite Hq.
destruct (has_digits_div _ _ _ _ Hdm Hdy ltac:(lia)) as [Hd|Hd];
  (edestruct (binary_round_aux_finite (xorb sx sy) _ e'
               (new_location (Z.pos my) ((Z.pos mx * 2 ^ s) mod Z.pos my)) _ Hd)
    as (m' & e'' & -> & Hb); [subst s; lia|]; simpl; subst s; lia).
Qed.

Lemma shl_align_digits mx ex ex' :
has_digits (Z.pos (fst (shl_align mx ex ex')))
  (Z.pos (digits2_pos mx) + ex - snd (shl_align mx ex ex')).
Proof.
unfold shl_align. pose proof (has_digits_pos mx) as Hd.
destruct (ex' - ex) as [|p|p] eqn:E; simpl.
- by replace (Z.pos (digits2_pos mx) + ex - ex) with (Z.pos (digits2_pos mx)) by lia.
- by replace (Z.pos (digits2_pos mx) + ex - ex) with (Z.pos (digits2_pos mx)) by lia.
- change (Pos.iter xO mx p) with (shift_pos p mx). rewrite shift_pos_correct.
  change (Z.pow_pos 2 p) with (2 ^ Z.pos p). rewrite Z.mul_comm.
  replace (Z.pos (digits2_pos mx) + ex - ex') with (Z.pos (digits2_pos mx) + Z.pos p) by lia.
  apply has_digits_shl; [done|lia].
Qed.

(** [float(n)] is defined for every int a 64-bit counter can hold. *)
Lemma of_int_fin n k :
n <> 0 -> Z.abs n < 2 ^ k -> 0 <= k <= 800 ->
exists x, of_int n = Ok x /\ finite_in 1 (k + 1) x.
Proof.
intros Hn Hk Hk8. unfold of_int.
assert (Hgen : forall s p, Z.pos p < 2 ^ k ->
          exists m e, binary_round prec emax s p 0 = S754_finite s m e /\
                      1 <= Z.pos (digits2_pos m) + e <= k + 1).
{ intros s p Hp. unfold binary_round.
  pose proof (shl_align_digits p 0 (fexp prec emax (Z.pos (digits2_pos p) + 0))) as Hd.
  destruct (shl_align _ _ _) as [mz ez]. simpl in Hd.
  pose proof (has_digits_pos p) as [Hp1 [Hp2 Hp3]].
  assert (Z.pos (digits2_pos p) <= k).
  { destruct (decide (Z.pos (digits2_pos p) <= k)); [done|].
    assert (2 ^ k <= 2 ^ (Z.pos (digits2_pos p) - 1)) by (apply Z.pow_le_mono_r; lia). lia. }
  edestruct (binary_round_aux_finite s _ ez loc_Exact _ Hd) as (m' & e' & -> & Hb); [lia|].
  exists m', e'. split; [done|]. lia. }
destruct n as [|p|p]; [done| |]; simpl binary_normalize.
- destruct (Hgen false p ltac:(lia)) as (m & e & -> & Hb). eexists; split; [done|]. done.
- destruct (Hgen true p ltac:(lia)) as (m & e & -> & Hb). eexists; split; [done|]. done.
Qed.

Lemma raw_of_int_fin n k :
n <> 0 -> Z.abs n < 2 ^ k -> 0 <= k -> finite_in 1 k (raw_of_int n).
Proof.
intros Hn Hk Hk0.
assert (Hgen : forall p, Z.pos p < 2 ^ k -> 1 <= Z.pos (digits2_pos p) + 0 <= k).
{ intros p Hp. pose proof (has_digits_pos p) as [Hp1 [Hp2 Hp3]].
  destruct (decide (Z.pos (digits2_pos p) <= k)); [lia|].
  assert (2 ^ k <= 2 ^ (Z.pos (digits2_pos p) - 1)) by (apply Z.pow_le_mono_r; lia). lia. }
destruct n as [|p|p]; [done| |]; simpl; apply Hgen; lia.
Qed.

(** True division of two non-zero ints of bounded size is defined. *)
Lemma int_truediv_fin a b ka kb :
a <> 0 -> b <> 0 -> Z.abs a < 2 ^ ka -> Z.abs b < 2 ^ kb ->
0 <= ka <= 400 -> 0 <= kb <= 400 ->
exists x, int_truediv a b = Ok x /\ finite_in (1 - kb) (ka + 1) x.
Proof.
intros Ha Hb Hka Hkb ? ?. unfold int_truediv.
rewrite decide_False by done. rewrite decide_False by done.
pose proof (fdiv_fin 1 ka 1 kb _ _ (raw_of_int_fin a ka Ha Hka ltac:(lia))
              (raw_of_int_fin b kb Hb Hkb ltac:(lia)) ltac:(lia) ltac:(lia)) as Hf.
destruct (fdiv (raw_of_int a) (raw_of_int b)) as [| | |s m e]; try done.
eexists; split; [done|]. simpl in *. lia.
Qed.

Lemma fin_finite lo hi x : finite_in lo hi x -> exists s m e, x = S754_finite s m e.
Proof. destruct x; try done. eauto. Qed.

Lemma round_defined x : is_finite x = true -> exists n, PyFloat.round x = Ok n.
Proof.
destruct x; try done; simpl; eauto.
destruct (split_fraction m e). eauto.
Qed.

Lemma to_int_defined x : is_finite x = true -> exists n, PyFloat.to_int x = Ok n.
Proof. destruct x; try done; simpl; eauto. Qed.

Lemma fin_is_finite lo hi x : finite_in lo hi x -> is_finite x = true.
Proof. by destruct x. Qed.

Lemma fin_not_zero lo hi x : finite_in lo hi x -> is_zero x = false.
Proof. by destruct x. Qed.

Lemma of_int_100 : of_int 100 = Ok (S754_finite false 7036874417766400 (-46)).
Proof. reflexivity. Qed.

(** The percentage is defined for counts a 64-bit counter can hold. *)
Lemma progress_of_defined m t :
1 <= m < 2 ^ 63 -> 1 <= t < 2 ^ 63 ->
exists p, Migrate.progress_of m t = Ok p.
Proof.
intros Hm Ht. unfold Migrate.progress_of. simpl PyNum.truediv.
destruct (int_truediv_fin m t 63 63) as (q & -> & Hq); try lia.
cbn -[of_int fmul PyFloat.round Z.min]. rewrite of_int_100.
cbn -[of_int fmul PyFloat.round Z.min].
assert (Hp : finite_in (-62 + 7 - 1) (64 + 7 + 1) (fmul q (S754_finite false 7036874417766400 (-46)))).
{ apply fmul_fin; [done|simpl; lia|lia|lia]. }
destruct (round_defined _ (fin_is_finite _ _ _ Hp)) as [n ->].
cbn -[Z.min]. eauto.
Qed.

(** The seconds between two clock readings less than [2^62] microseconds
  apart: zero, or a float of moderate magnitude. *)
Lemma total_seconds_defined now start :
Z.abs (now - start) < 2 ^ 62 ->
exists x, total_seconds now start = Ok (Float x) /\
          (is_zero x = true \/ finite_in (-19) 63 x).
Proof.
intros Hd. unfold total_seconds. simpl PyNum.truediv.
destruct (decide (now - start = 0)) as [->|Hne].
- simpl. eexists; split; [done|]. by left.
- destruct (int_truediv_fin (now - start) (10 ^ 6) 62 20) as (x & -> & Hx); try lia.
  simpl. eexists; split; [done|]. right. done.
Qed.

Lemma gt0_not_zero x : PyNum.gt0 (Float x) = true -> is_zero x = false.
Proof. by destruct x. Qed.

(** Everything the progress line is computed from is defined, for counts
  below [2^63] and clock readings less than [2^62] microseconds apart. *)
Lemma progress_line_defined m t now start :
1 <= m < 2 ^ 63 -> 1 <= t < 2 ^ 63 -> Z.abs (now - start) < 2 ^ 62 ->
exists p elapsed rate eta_seconds eta,
  Migrate.progress_of m t = Ok p /\
  total_seconds now start = Ok elapsed /\
  Migrate.rate_of m elapsed = Ok rate /\
  Migrate.eta_of m t rate = Ok eta_seconds /\
  PyNum.to_int eta_seconds = Ok eta.
Proof.
intros Hm Ht Hc.
destruct (progress_of_defined m t Hm Ht) as [p Hp].
destruct (total_seconds_defined now start Hc) as (el & Hel & Hfin).
exists p, (Float el). unfold Migrate.rate_of.
destruct (PyNum.gt0 (Float el)) eqn:Hgt.
- (* the clock has advanced *)
  destruct Hfin as [Hz|Hfin]; [apply gt0_not_zero in Hgt; congruence|].
  destruct (of_int_fin m 63) as (fm & Hfm & Hfmfin); try lia.
  pose proof (fdiv_fin _ _ _ _ _ _ Hfmfin Hfin ltac:(lia) ltac:(lia)) as Hrate.
  exists (Float (fdiv fm el)).
  unfold Migrate.eta_of.
  assert (Hr : PyNum.truediv (Int m) (Float el) = Ok (Float (fdiv fm el))).
  { simpl. rewrite Hfm. simpl. unfold PyFloat.truediv.
    by rewrite (fin_not_zero _ _ _ Hfin). }
  destruct (PyNum.gt0 (Float (fdiv fm el))) eqn:Hgt2.
  + destruct (decide (t - m = 0)) as [Hz|Hnz].
    * rewrite Hz. exists (Float (fdiv (S754_zero false) (fdiv fm el))), 0.
      repeat split; try done.
      -- simpl. unfold PyFloat.truediv. by rewrite (fin_not_zero _ _ _ Hrate).
      -- destruct (fin_finite _ _ _ Hrate) as (s & mm & e & ->). reflexivity.
    * destruct (of_int_fin (t - m) 63) as (ft & Hft & Hftfin); try lia.
      pose proof (fdiv_fin _ _ _ _ _ _ Hftfin Hrate ltac:(lia) ltac:(lia)) as Heta.
      destruct (to_int_defined _ (fin_is_finite _ _ _ Heta)) as [n Hn].
      exists (Float (fdiv ft (fdiv fm el))), n.
      repeat split; try done.
      simpl. rewrite Hft. simpl. unfold PyFloat.truediv.
      by rewrite (fin_not_zero _ _ _ Hrate).
  + exists (Int 0), 0. done.
- exists (Int 0), (Int 0), 0. done.
Qed.

Lemma fmul_sign lo1 hi1 lo2 hi2 x y :
  finite_in lo1 hi1 x -> finite_in lo2 hi2 y ->
  -800 <= lo1 + lo2 -> hi1 + hi2 <= 800 ->
  sign_of (fmul x y) = xorb (sign_of x) (sign_of y).
Proof.
  destruct x as [| | |sx mx ex]; try done. destruct y as [| | |sy my ey]; try done.
  simpl. intros Hx Hy Hlo Hhi. unfold fmul. simpl SFmul.
  pose proof (has_digits_pos mx) as Hdx. pose proof (has_digits_pos my) as Hdy.
  rewrite Pos2Z.inj_mul.
  destruct (has_digits_mul _ _ _ _ Hdx Hdy) as [Hd|Hd];
    (edestruct (binary_round_aux_finite (xorb sx sy) _ (ex + ey) loc_Exact _ Hd)
      as (m' & e' & -> & Hb); [lia|]; reflexivity).
Qed.

Lemma int_truediv_positive a b :
  0 < a < 2 ^ 63 -> 0 < b < 2 ^ 63 ->
  exists m e, int_truediv a b = Ok (S754_finite false m e) /\
              -62 <= Z.pos (digits2_pos m) + e <= 64.
Proof.
  intros Ha Hb.
  destruct (int_truediv_fin a b 63 63) as (x & Hx & Hfin); try lia.
  assert (Hs : sign_of x = false).
  { revert Hx. unfold int_truediv. rewrite !decide_False by lia.
    destruct a as [|pa|pa]; try lia. destruct b as [|pb|pb]; try lia.
    unfold fdiv. simpl SFdiv.
    destruct (SFdiv_core_binary prec emax (Z.pos pa) 0 (Z.pos pb) 0) as [[mz ez] lz].
    unfold binary_round_aux.
    destruct (shr_fexp prec emax mz ez lz) as [mrs1 e1].
    destruct (shr_fexp prec emax _ e1 loc_Exact) as [mrs2 e2].
    destruct (shr_m mrs2); [| |].
    - by intros [= <-].
    - destruct (e2 <=? emax - prec); [by intros [= <-]|done].
    - by intros [= <-]. }
  destruct x as [| | |s m e]; try done. simpl in Hs. subst s.
  exists m, e. split; [done|]. simpl in Hfin. lia.
Qed.

Lemma round_nonneg m e n : PyFloat.round (S754_finite false m e) = Ok n -> 0 <= n.
Proof.
  unfold PyFloat.round, split_fraction.
  destruct e as [|p|p].
  - intros [= <-]. simpl. lia.
  - intros [= <-]. simpl. pose proof (Z.pow_pos_nonneg 2 (Z.pos p)). lia.
  - assert (0 <= Z.pos m / Z.pow_pos 2 p).
    { apply Z.div_pos; [lia|]. change (Z.pow_pos 2 p) with (2 ^ Z.pos p).
      apply Z.pow_pos_nonneg; lia. }
    destruct (2 * (Z.pos m mod Z.pow_pos 2 p) ?= Z.pow_pos 2 p);
      [destruct (Z.odd _)| |]; intros [= <-]; simpl; lia.
Qed.

(** The percentage is defined and lies between 0 and 100 for counts a
    64-bit counter can hold. *)
Lemma progress_of_in_range m t :
  0 <= m < 2 ^ 63 -> 0 < t < 2 ^ 63 ->
  exists p, Migrate.progress_of m t = Ok p /\ 0 <= p <= 100.
Proof.
  intros Hm Ht. destruct (decide (m = 0)) as [->|Hne].
  - exists 0. unfold Migrate.progress_of, PyNum.truediv, int_truediv.
    rewrite decide_False by lia. rewrite decide_True by done.
    destruct (t <? 0); split; try reflexivity; lia.
  - destruct (int_truediv_positive m t ltac:(lia) Ht) as (mq & eq & Hq & Hmag).
    unfold Migrate.progress_of, PyNum.truediv. rewrite Hq.
    cbn -[PyFloat.fmul PyFloat.round PyFloat.of_int Z.min]. rewrite of_int_100.
    cbn -[PyFloat.fmul PyFloat.round PyFloat.of_int Z.min].
    set (c := S754_finite false 7036874417766400 (-46)).
    assert (Hp : finite_in (-62 + 7 - 1) (64 + 7 + 1) (fmul (S754_finite false mq eq) c)).
    { apply fmul_fin; [done|simpl; lia|lia|lia]. }
    assert (Hs : sign_of (fmul (S754_finite false mq eq) c) = false).
    { rewrite (fmul_sign (-62) 64 7 7); [done|done|simpl; lia|lia|lia]. }
    destruct (fmul (S754_finite false mq eq) c) as [| | |s mp ep] eqn:E; try done.
    simpl in Hs. subst s.
    destruct (round_defined (S754_finite false mp ep) eq_refl) as [n Hn].
    rewrite Hn. cbn -[Z.min]. exists (Z.min 100 n). split; [done|].
    apply round_nonneg in Hn. lia.
Qed.

End FloatBounds.

(** ** Runs *)
Import Qdrant.

Lemma ceil_div_pos a b : 1 <= b -> 0 < a -> 1 <= ceil_div a b.
Proof.
intros Hb Ha. unfold ceil_div.
apply Z.div_le_lower_bound; lia.
Qed.

Lemma ceil_div_nonpos a b : 1 <= b -> a <= 0 -> ceil_div a b <= 0.
Proof.
intros Hb Ha. unfold ceil_div.
assert ((a + b - 1) / b < 1); [|lia].
apply Z.div_lt_upper_bound; lia.
Qed.

Lemma ceil_div_step a b :
1 <= b -> 0 < a -> ceil_div (a - Z.min b a) b = ceil_div a b - 1.
Proof.
intros Hb Ha. unfold ceil_div.
destruct (Z.min_spec b a) as [[Hlt ->]|[Hle ->]].
- replace (a + b - 1) with (a - b + b - 1 + 1 * b) by lia.
  rewrite Z.div_add by lia. lia.
- replace (a - a + b - 1) with (b - 1) by lia.
  rewrite Z.div_small by lia.
  replace (a + b - 1) with (a - 1 + 1 * b) by lia.
  rewrite Z.div_add by lia. rewrite Z.div_small by lia. lia.
Qed.

Lemma upsert_points_app a b m :
upsert_points (a ++ b) m = upsert_points b (upsert_points a m).
Proof. unfold upsert_points. by rewrite foldl_app. Qed.

Lemma scroll_pages_app a b : scroll_pages (a ++ b) = scroll_pages a ++ scroll_pages b.
Proof. unfold scroll_pages. by rewrite omap_app. Qed.

Lemma target_collection_eta tc :
{| tc_size := tc_size tc; tc_distance := tc_distance tc; tc_points := tc_points tc |} = tc.
Proof. by destruct tc. Qed.

Lemma fetched_cons page pages : fetched (page :: pages) = records page ++ fetched pages.
Proof. done. Qed.
Lemma log_log a b w : log b (log a w) = log (a ++ b) w.
Proof. unfold log; simpl. by rewrite <- app_assoc. Qed.

Lemma bind_done {A B} (c : M A) (k : A -> M B) w a w1 :
c w = (Done a, w1) -> bind c k w = k a w1.
Proof. unfold bind. by intros ->. Qed.

Lemma map_point_id (points : list PointStruct) :
map (fun p => {| pt_id := pt_id p; pt_vector := pt_vector p; pt_payload := pt_payload p |}) points = points.
Proof. induction points as [|[] ? IH]; simpl; [done|]. by rewrite IH. Qed.

Lemma extends_refl w : extends w w [].
Proof. unfold extends. by rewrite app_nil_r. Qed.

Lemma extends_trans w1 w2 w3 a b :
extends w1 w2 a -> extends w2 w3 b -> extends w1 w3 (a ++ b).
Proof.
intros (?&?&?&?) (?&?&?&?). unfold extends.
rewrite app_assoc. repeat split; congruence.
Qed.

Lemma extends_log w evs : extends w (log evs w) evs.
Proof. done. Qed.

(** *** Running the primitives *)

Lemma bind_raised {A B} (c : M A) (k : A -> M B) w e w1 :
c w = (Raised e, w1) -> bind c k w = (Raised e, w1).
Proof. unfold bind. by intros ->. Qed.

Lemma print_run m w : print m w = (Done tt, log [Printed m] w).
Proof. done. Qed.

Lemma utcnow_run w : utcnow w = (Done (clock w (ticks w)), tick w).
Proof. done. Qed.

Lemma lift_run {A} (r : result A) a w : r = Ok a -> lift r w = (Done a, w).
Proof. by intros ->. Qed.

Lemma source_scroll_run name c offset limit w :
source_store w !! name = Some c ->
source_scroll name offset limit w
= (Done (scroll c offset limit),
   log [Called (SrcScroll name offset limit (Some (scroll c offset limit)))] w).
Proof. unfold source_scroll. by intros ->. Qed.

Lemma target_upsert_run name tc points w :
target_store w !! name = Some tc ->
Forall (fun p => vector_dim p = Some (tc_size tc)) points ->
target_upsert name points w
= (Done tt,
   with_target (<[name := {| tc_size := tc_size tc; tc_distance := tc_distance tc;
                             tc_points := upsert_points points (tc_points tc) |}]>
                  (target_store w))
     (log [Called (TgtUpsert name points)] w)).
Proof.
intros Htgt Hdim. unfold target_upsert, bind, record. simpl. rewrite Htgt.
assert (Hall : forallb (fun p => bool_decide (vector_dim p = Some (tc_size tc)))
                 points = true).
{ induction Hdim as [|p ps Hp _ IH]; simpl; [done|].
  by rewrite bool_decide_eq_true_2, IH. }
by rewrite Hall.
Qed.

Ltac step_with H := erewrite bind_done by (apply H).
Ltac step_print := erewrite bind_done by (apply print_run).

Section Loop.
Variable name : string.
Variable c : SourceCollection.
Variable size : Z.
Variable batch_size total_points start_time : Z.
Hypothesis Hc : respects_contract size c.
Hypothesis Hbatch : 1 <= batch_size.
Hypothesis Htotal : total_points < 2 ^ 63.
Hypothesis Hstart : 0 <= start_time <= datetime_max.

Let limit_at (offset : Z) : Z := Z.min batch_size (total_points - offset).

Lemma scan_loop_exit fuel st w :
  ~ Migrate.offset st < total_points ->
  Migrate.scan_loop fuel name batch_size total_points start_time st w = (Done st, w).
Proof. intros H. destruct fuel; simpl; by rewrite bool_decide_eq_false_2. Qed.

Lemma scan_loop_empty fuel st w :
  source_store w !! name = Some c ->
  Migrate.offset st < total_points ->
  records (scroll c (Migrate.offset st) (limit_at (Migrate.offset st))) = [] ->
  Migrate.scan_loop (S fuel) name batch_size total_points start_time st w
  = (Done st,
     log [Printed (MsgFetching (Migrate.offset st)
                   (Migrate.offset st + limit_at (Migrate.offset st)));
          Called (SrcScroll name (Migrate.offset st) (limit_at (Migrate.offset st))
                  (Some (scroll c (Migrate.offset st) (limit_at (Migrate.offset st)))))] w).
Proof.
  intros Hsrc Hlt Hrec. simpl. rewrite bool_decide_eq_true_2 by done.
  step_print. erewrite bind_done by (by apply source_scroll_run).
  fold (limit_at (Migrate.offset st)). rewrite Hrec.
  unfold ret. by rewrite log_log.
Qed.

Lemma scan_loop_step fuel st w tc p ps :
  source_store w !! name = Some c ->
  target_store w !! name = Some tc -> tc_size tc = size ->
  clock_in_range w ->
  0 <= Migrate.migrated_count st <= Migrate.offset st ->
  Migrate.offset st < total_points ->
  0 <= Migrate.offset st ->
  records (scroll c (Migrate.offset st) (limit_at (Migrate.offset st))) = p :: ps ->
  exists progress rate eta,
    let line := MsgProgress progress
                  (Migrate.migrated_count st + Z.of_nat (length (p :: ps)))
                  total_points rate eta in
    Migrate.scan_loop (S fuel) name batch_size total_points start_time st w
    = Migrate.scan_loop fuel name batch_size total_points start_time
        {| Migrate.migrated_count :=
             Migrate.migrated_count st + Z.of_nat (length (p :: ps));
           Migrate.offset := Migrate.offset st + limit_at (Migrate.offset st) |}
        (log [Printed line]
           (tick
              (with_target
                 (<[name := {| tc_size := tc_size tc; tc_distance := tc_distance tc;
                               tc_points := upsert_points (p :: ps) (tc_points tc) |}]>
                    (target_store w))
                 (log [Printed (MsgFetching (Migrate.offset st)
                                (Migrate.offset st + limit_at (Migrate.offset st)));
                       Called (SrcScroll name (Migrate.offset st)
                               (limit_at (Migrate.offset st))
                               (Some (scroll c (Migrate.offset st)
                                        (limit_at (Migrate.offset st)))));
                       Printed (MsgUploading (Z.of_nat (length (p :: ps))));
                       Called (TgtUpsert name (p :: ps))] w)))).
Proof.
  intros Hsrc Htgt Hsize Hclock Hmig Hlt Hoff0 Hrec.
  destruct (Hc (Migrate.offset st) (limit_at (Migrate.offset st))) as [Hlen Hdim].
  rewrite Hrec in Hlen, Hdim.
  set (m := Migrate.migrated_count st + Z.of_nat (length (p :: ps))).
  assert (Hm : 1 <= m < 2 ^ 63).
  { subst m. simpl length in *. unfold limit_at in Hlen. lia. }
  destruct (progress_line_defined m total_points
              (clock w (ticks w)) start_time Hm ltac:(lia))
    as (pr & el & rate & es & eta & Hpr & Hel & Hrate & Hes & Heta).
  { pose proof (Hclock (ticks w)). unfold datetime_max in *. lia. }
  exists pr, rate, eta.
  simpl Migrate.scan_loop. rewrite bool_decide_eq_true_2 by done.
  step_print. erewrite bind_done by (by apply source_scroll_run).
  fold (limit_at (Migrate.offset st)). rewrite Hrec.
  step_print. rewrite map_point_id.
  erewrite bind_done.
  2:{ apply (target_upsert_run name tc); [done|]. by rewrite Hsize. }
  fold m.
  erewrite bind_done by (by apply lift_run).
  erewrite bind_done by (apply utcnow_run).
  erewrite bind_done by (by apply lift_run).
  erewrite bind_done by (by apply lift_run).
  erewrite bind_done by (by apply lift_run).
  erewrite bind_done by (by apply lift_run).
  step_print.
  by rewrite !log_log.
Qed.

Lemma scan_loop_run fuel : forall st w tc,
  source_store w !! name = Some c ->
  target_store w !! name = Some tc -> tc_size tc = size ->
  clock_in_range w ->
  0 <= Migrate.migrated_count st <= Migrate.offset st ->
  ceil_div (total_points - Migrate.offset st) batch_size <= Z.of_nat fuel ->
  exists evs st' w',
    let pages := planned_pages true fuel c batch_size total_points (Migrate.offset st) in
    Migrate.scan_loop fuel name batch_size total_points start_time st w = (Done st', w') /\
    extends w w' evs /\
    Migrate.migrated_count st' = Migrate.migrated_count st + Z.of_nat (length (fetched pages)) /\
    target_store w' = <[name := {| tc_size := tc_size tc; tc_distance := tc_distance tc;
                                tc_points := upsert_points (fetched pages) (tc_points tc) |}]>
                      (target_store w) /\
    scroll_pages evs = pages /\
    length (filter (fun e => is_scan e = true) evs) = length pages /\
    forallb is_loop_event evs = true.
Proof.
  induction fuel as [|fuel IH]; intros st w tc Hsrc Htgt Hsize Hclock Hmig Hfuel.
  - assert (~ Migrate.offset st < total_points).
    { intros ?. pose proof (ceil_div_pos (total_points - Migrate.offset st) batch_size). lia. }
    exists [], st, w. simpl. rewrite bool_decide_eq_false_2 by done.
    unfold fetched. simpl.
    repeat split; try done; try (by rewrite app_nil_r); [lia|].
    by rewrite target_collection_eta, insert_id.
  - destruct (decide (Migrate.offset st < total_points)) as [Hlt|Hge].
    2:{ exists [], st, w. rewrite scan_loop_exit by done.
        simpl planned_pages. rewrite bool_decide_eq_false_2 by done.
        unfold fetched. simpl.
        repeat split; try done; try (by rewrite app_nil_r); [lia|].
        by rewrite target_collection_eta, insert_id. }
    simpl planned_pages. rewrite bool_decide_eq_true_2 by done.
    fold (limit_at (Migrate.offset st)).
    destruct (records (scroll c (Migrate.offset st) (limit_at (Migrate.offset st))))
      as [|p ps] eqn:Hrec.
    + (* an empty page ends the loop *)
      eexists _, st, _. rewrite (scan_loop_empty fuel st w Hsrc Hlt Hrec).
      repeat split; try done.
      * rewrite fetched_cons, Hrec. simpl. lia.
      * rewrite fetched_cons, Hrec. simpl.
        by rewrite target_collection_eta, insert_id.
    + destruct (Hc (Migrate.offset st) (limit_at (Migrate.offset st))) as [Hlen _].
      rewrite Hrec in Hlen. unfold limit_at in Hlen.
      destruct (scan_loop_step fuel st w tc p ps Hsrc Htgt Hsize Hclock Hmig Hlt
                  ltac:(lia) Hrec) as (pr & rate & eta & Hstep).
      cbv zeta in Hstep.
      rewrite Hstep. clear Hstep.
      match goal with |- context [Migrate.scan_loop fuel _ _ _ _ ?s ?w0] =>
        set (st1 := s); set (w1 := w0) end.
      set (tc1 := {| tc_size := tc_size tc; tc_distance := tc_distance tc;
                     tc_points := upsert_points (p :: ps) (tc_points tc) |}).
      destruct (IH st1 w1 tc1) as (evs & st' & w' & Hrun & Hext & Hmig' & Htgt' & Hpages & Hscans & Hloop).
      * done.
      * subst w1. simpl. by rewrite lookup_insert_eq.
      * done.
      * done.
      * subst st1. simpl Migrate.migrated_count. simpl Migrate.offset.
        unfold limit_at. simpl length in *. lia.
      * subst st1. simpl Migrate.offset. unfold limit_at.
        replace (total_points - (Migrate.offset st + Z.min batch_size (total_points - Migrate.offset st)))
          with ((total_points - Migrate.offset st) - Z.min batch_size (total_points - Migrate.offset st)) by lia.
        rewrite ceil_div_step by lia. lia.
      * eexists _, st', w'. split; [exact Hrun|].
        split; [|split; [|split; [|split; [|split]]]].
        -- eapply extends_trans; [|exact Hext]. subst w1. unfold extends. simpl.
           rewrite <- app_assoc. repeat split; reflexivity.
        -- rewrite Hmig'. subst st1. simpl Migrate.migrated_count. simpl Migrate.offset.
           rewrite fetched_cons, Hrec, length_app. cbn [length]. lia.
        -- rewrite Htgt'. subst w1 tc1 st1. simpl. rewrite insert_insert_eq.
           rewrite fetched_cons, Hrec, upsert_points_app. reflexivity.
        -- rewrite !scroll_pages_app, Hpages. reflexivity.
        -- rewrite !filter_app, !length_app, Hscans. reflexivity.
        -- rewrite !forallb_app, Hloop. reflexivity.
Qed.
End Loop.

Lemma source_get_collection_run name c w :
source_store w !! name = Some c ->
source_get_collection name w
= (Done {| info_points_count := points_count c; info_size := vectors_size c;
           info_distance := vectors_distance c |},
   log [Called (SrcGetCollection name)] w).
Proof. intros H. unfold source_get_collection, bind, record. simpl. by rewrite H. Qed.

Lemma target_get_collection_run name tc w :
target_store w !! name = Some tc ->
target_get_collection name w
= (Done {| info_points_count := Z.of_nat (size (tc_points tc));
           info_size := tc_size tc; info_distance := tc_distance tc |},
   log [Called (TgtGetCollection name)] w).
Proof. intros H. unfold target_get_collection, bind, record. simpl. by rewrite H. Qed.

Lemma target_get_collection_absent name w :
target_store w !! name = None ->
target_get_collection name w
= (Raised UnexpectedResponse, log [Called (TgtGetCollection name)] w).
Proof. intros H. unfold target_get_collection, bind, record. simpl. by rewrite H. Qed.

Lemma ensure_collection_exists_run name size w :
Migrate.ensure_collection_exists name size w
= (Done tt,
   with_target (<[name := destination_before w name size]> (target_store w))
     (log ([Called (TgtGetCollection name)]
           ++ if bool_decide (is_Some (target_store w !! name))
              then [Printed (MsgAlreadyExists name)]
              else [Printed (MsgCreating name);
                    Called (TgtRecreateCollection name size COSINE);
                    Printed MsgCreated]) w)).
Proof.
unfold Migrate.ensure_collection_exists, try_except, destination_before.
destruct (target_store w !! name) as [tc|] eqn:Htgt.
- erewrite bind_done by (by apply target_get_collection_run).
  rewrite print_run, log_log. rewrite insert_id by done.
  rewrite bool_decide_eq_true_2 by eauto. by destruct w.
- erewrite bind_raised by (by apply target_get_collection_absent).
  simpl is_Exception. cbv iota.
  step_print. unfold target_recreate_collection.
  erewrite bind_done.
  2:{ erewrite bind_done by reflexivity. reflexivity. }
  rewrite print_run. rewrite bool_decide_eq_false_2 by (by intros [? ?]).
  unfold set_target. simpl. unfold log, with_target. simpl.
  by rewrite <- !app_assoc.
Qed.

Lemma clock_in_range_eq w w' : clock w' = clock w -> clock_in_range w -> clock_in_range w'.
Proof. unfold clock_in_range. by intros ->. Qed.

Section Run.
Variable isoformat : Z -> string.

Lemma migrate_collection_run fuel name batch_size w c :
  source_store w !! name = Some c ->
  respects_contract (vectors_size c) c ->
  tc_size (destination_before w name (vectors_size c)) = vectors_size c ->
  1 <= batch_size -> points_count c < 2 ^ 63 -> clock_in_range w ->
  ceil_div (points_count c) batch_size <= Z.of_nat fuel ->
  exists loop_events w' migrated_at duration,
    let tc0 := destination_before w name (vectors_size c) in
    let pages := planned_pages true fuel c batch_size (points_count c) 0 in
    let points' := upsert_points (fetched pages) (tc_points tc0) in
    let target_point_count := Z.of_nat (size points') in
    Migrate.migrate_collection isoformat fuel name batch_size w
    = (Done (VDict
               [("metadata",
                 VDict
                   [("collection", VStr name);
                    ("migrated_at", VStr migrated_at);
                    ("source_points", VInt (points_count c));
                    ("target_points", VInt target_point_count);
                    ("vector_size", VInt (vectors_size c));
                    ("migration_duration_seconds", VFloat duration)])]), w') /\
    extends w w' (migration_events name (vectors_size c) (points_count c)
                    (bool_decide (is_Some (target_store w !! name)))
                    loop_events target_point_count) /\
    target_store w' = <[name := {| tc_size := tc_size tc0; tc_distance := tc_distance tc0;
                                   tc_points := points' |}]> (target_store w) /\
    scroll_pages loop_events = pages /\
    length (filter (fun e => is_scan e = true) loop_events) = length pages /\
    forallb is_loop_event loop_events = true.
Proof.
  intros Hsrc Hc Hsize Hbatch Htotal Hclock Hfuel.
  unfold Migrate.migrate_collection.
  step_print. erewrite bind_done by (by apply source_get_collection_run).
  cbn [info_points_count info_size].
  step_print. step_print.
  erewrite bind_done by (apply ensure_collection_exists_run).
  erewrite bind_done by (apply utcnow_run).
  rewrite !log_log.
  change (destination_before (log ?a w) name ?s) with (destination_before w name s).
  cbn [target_store log with_target clock ticks].
  match goal with |- context [bind (Migrate.scan_loop _ _ _ _ ?s _) _ ?w0] =>
    set (start := s); set (w2 := w0) end.
  set (tc0 := destination_before w name (vectors_size c)) in *.
  assert (Hstart : 0 <= start <= datetime_max) by apply Hclock.
  destruct (scan_loop_run name c (vectors_size c) batch_size (points_count c) start
              Hc Hbatch Htotal Hstart fuel
              {| Migrate.migrated_count := 0; Migrate.offset := 0 |} w2 tc0)
    as (evs & st' & w3 & Hrun & (He3 & Hs3 & Hc3 & Ht3) & _ & Htgt3 & Hpages & Hscans & Hloop);
    try done.
  { subst w2. simpl. by rewrite lookup_insert_eq. }
  { simpl. by rewrite Z.sub_0_r. }
  cbv zeta in Hrun, Htgt3, Hpages, Hscans. simpl Migrate.offset in *.
  set (pages := planned_pages true fuel c batch_size (points_count c) 0) in *.
  set (points' := upsert_points (fetched pages) (tc_points tc0)) in *.
  erewrite bind_done by exact Hrun.
  step_print.
  erewrite bind_done.
  2:{ apply target_get_collection_run. simpl. rewrite Htgt3. apply lookup_insert_eq. }
  cbn [info_points_count tc_points].
  set (T := Z.of_nat (size points')).
  assert (Hwarn : forall w0,
    (if bool_decide (T ≠ points_count c)
     then bind (print MsgWarningMismatch)
            (fun _ => print (MsgSourceTarget (points_count c) T))
     else ret ()) w0
    = (Done tt, log (if bool_decide (T ≠ points_count c)
                     then [Printed MsgWarningMismatch;
                           Printed (MsgSourceTarget (points_count c) T)]
                     else []) w0)).
  { intros w0. case_bool_decide.
    - step_print. by rewrite print_run, log_log.
    - unfold ret, log. rewrite app_nil_r. by destruct w0. }
  erewrite bind_done by (apply Hwarn).
  erewrite bind_done by (apply utcnow_run).
  erewrite bind_done by (apply utcnow_run).
  rewrite !log_log.
  match goal with |- context [total_seconds ?a ?b] =>
    destruct (total_seconds_defined a b) as (dur & Hdur & _) end.
  { subst start. cbn [clock tick log with_target]. rewrite Hc3. subst w2.
    cbn [clock tick log with_target ticks].
    pose proof (Hclock (ticks w)). pose proof (Hclock (S (ticks w3))).
    unfold datetime_max in *. lia. }
  erewrite bind_done by (by apply lift_run).
  eexists evs, _, _, dur. split; [reflexivity|].
  split; [|split; [|done]].
  - unfold extends, migration_events. cbn [environ source_store clock trace tick log with_target].
    rewrite He3, Hs3, Hc3, Ht3. subst w2.
    cbn [environ source_store clock trace tick log with_target].
    repeat split; try done.
    rewrite <- !app_assoc. reflexivity.
  - cbn [target_store tick log with_target]. rewrite Htgt3. subst w2.
    cbn [target_store tick log with_target]. by rewrite insert_insert_eq.
Qed.
End Run.

(** *** The store that follows the paginator contract *)

Lemma list_collection_respects_contract count size distance recs :
Forall (fun p => vector_dim p = Some size) recs ->
respects_contract size (list_collection count size distance recs).
Proof.
intros Hwf offset limit. simpl. split.
- rewrite length_take. lia.
- by apply Forall_take, Forall_drop.
Qed.

Section Honest.
Variable recs : list PointStruct.
Variable size : Z.
Variable distance : Distance.
Variable batch_size : Z.
Hypothesis Hbatch : 1 <= batch_size.

Let N : Z := Z.of_nat (length recs).
Let c : SourceCollection := honest_collection size distance recs.

End Honest.

(** *** The store that reads the offset as an id *)

Lemma cursor_collection_respects_contract size distance recs :
Forall (fun p => vector_dim p = Some size) recs ->
respects_contract size (cursor_collection size distance recs).
Proof.
intros Hwf offset limit. simpl. split.
- rewrite length_take. lia.
- apply Forall_take. apply Forall_forall. intros p Hp.
  apply list_elem_of_filter in Hp as [_ Hp].
  by apply (proj1 (Forall_forall _ _) Hwf).
Qed.

(** Distinct unsigned ids below [offset] are at most [offset] many. *)
Lemma ids_below_offset recs offset :
stored_under_ids recs -> 0 <= offset ->
Z.of_nat (length (filter (fun p => ~ id_not_below offset p) recs)) <= offset.
Proof.
intros [Hnd Hun] Hoff.
set (below := filter (fun p => ~ id_not_below offset p) recs).
assert (Hsub : pt_id <$> below ⊆+ IdInt <$> seqZ 0 offset).
{ apply NoDup_submseteq.
  - eapply sublist_NoDup; [exact Hnd|]. apply fmap_sublist, sublist_filter.
  - intros i [p [-> Hp]]%list_elem_of_fmap.
    apply list_elem_of_filter in Hp as [Hlow Hp].
    pose proof (proj1 (Forall_forall _ _) Hun p Hp) as Hp0.
    unfold id_not_below in Hlow. unfold unsigned_id in Hp0.
    destruct (pt_id p) as [n|s]; [|by destruct Hlow].
    apply list_elem_of_fmap. exists n. split; [done|].
    apply elem_of_seqZ. lia. }
apply submseteq_length in Hsub.
rewrite !length_fmap, length_seqZ in Hsub. lia.
Qed.

Lemma cursor_collection_full_pages size distance recs :
stored_under_ids recs -> full_pages (cursor_collection size distance recs).
Proof.
intros Hids offset limit Hoff Hlim. simpl in *.
pose proof (ids_below_offset recs offset Hids Hoff) as Hbelow.
pose proof (filter_app_complement (id_not_below offset) recs) as Hperm.
apply Permutation_length in Hperm. rewrite length_app in Hperm.
rewrite length_take. lia.
Qed.

Lemma honest_collection_full_pages size distance recs :
full_pages (honest_collection size distance recs).
Proof.
intros offset limit Hoff Hlim. simpl in *.
rewrite length_take, length_drop. lia.
Qed.

(** *** The pages of a source that holds what it counts *)
Section FullPages.
Variable c : SourceCollection.
Variable batch_size : Z.
Hypothesis Hbatch : 1 <= batch_size.
Hypothesis Hfull : full_pages c.

Let N : Z := points_count c.

Lemma planned_pages_full stop fuel : forall offset,
  0 <= offset <= N ->
  ceil_div (N - offset) batch_size <= Z.of_nat fuel ->
  Z.of_nat (length (fetched (planned_pages stop fuel c batch_size N offset)))
  = N - offset /\
  Z.of_nat (length (planned_pages stop fuel c batch_size N offset))
  = ceil_div (N - offset) batch_size.
Proof.
  induction fuel as [|fuel IH]; intros offset Hoff Hfuel.
  - assert (offset = N).
    { destruct (decide (offset < N)); [|lia].
      pose proof (ceil_div_pos (N - offset) batch_size). lia. }
    subst offset. simpl. rewrite bool_decide_eq_false_2 by lia.
    replace (N - N) with 0 by lia. unfold fetched. simpl. split; [done|].
    unfold ceil_div. rewrite Z.div_small; lia.
  - cbn [planned_pages]. case_bool_decide as Hlt.
    + set (limit := Z.min batch_size (N - offset)).
      assert (Hlim : 1 <= limit <= N - offset) by (subst limit; lia).
      pose proof (Hfull offset limit ltac:(lia) ltac:(fold N; lia)) as Hlen.
      destruct (IH (offset + limit)) as [Hf Hn]; [lia| |].
      { replace (N - (offset + limit)) with ((N - offset) - Z.min batch_size (N - offset))
          by (subst limit; lia).
        rewrite ceil_div_step by lia. lia. }
      destruct (records (scroll c offset limit)) as [|p ps] eqn:Hrec.
      { simpl in Hlen. lia. }
      rewrite fetched_cons, Hrec, length_app. split.
      * lia.
      * cbn [length]. rewrite Nat2Z.inj_succ, Hn.
        replace (N - (offset + limit)) with ((N - offset) - Z.min batch_size (N - offset))
          by (subst limit; lia).
        rewrite ceil_div_step by lia. lia.
    + assert (offset = N) by lia. subst offset.
      replace (N - N) with 0 by lia. unfold fetched. simpl. split; [done|].
      unfold ceil_div. rewrite Z.div_small; lia.
Qed.
End FullPages.

(** *** The export loop *)

(** The scroll call of the migration carries keywords the method
    takes. *)
Lemma source_scroll_with_vectors name offset limit :
source_scroll_with ["with_payload"; "with_vectors"] name offset limit
= source_scroll name offset limit.
Proof. reflexivity. Qed.

(** The scroll call of the export carries one it does not take. *)
Lemma source_scroll_with_vector name offset limit w :
source_scroll_with ["with_payload"; "with_vector"] name offset limit w
= (Raised AssertionError, w).
Proof. reflexivity. Qed.

Lemma export_loop_exit fuel name batch_size total_points st w :
~ Exporter.offset st < total_points ->
Exporter.scan_loop fuel name batch_size total_points st w = (Done st, w).
Proof. intros H. destruct fuel; simpl; by rewrite bool_decide_eq_false_2. Qed.

Lemma export_loop_refused fuel name batch_size total_points st w :
Exporter.offset st < total_points ->
Exporter.scan_loop (S fuel) name batch_size total_points st w
= (Raised AssertionError,
   log [Printed (MsgExportFetching (Exporter.offset st)
                  (Exporter.offset st
                   + Z.min batch_size (total_points - Exporter.offset st)))] w).
Proof.
intros Hlt. simpl. rewrite bool_decide_eq_true_2 by done.
erewrite bind_done by (apply print_run).
by erewrite bind_raised by (apply source_scroll_with_vector).
Qed.

(** *** Termination *)

Lemma within_fuel_bind {A B} (c : M A) (k : A -> M B) :
within_fuel c -> (forall a, within_fuel (k a)) -> within_fuel (bind c k).
Proof.
intros Hc Hk w. unfold bind. specialize (Hc w).
destruct (c w) as [[a|e|] w1]; simpl in *; [apply Hk|done|done].
Qed.

Lemma within_fuel_ret {A} (a : A) : within_fuel (ret a).
Proof. by intros w. Qed.

Lemma within_fuel_raise {A} e : within_fuel (@raise A e).
Proof. by intros w. Qed.

Lemma within_fuel_lift {A} (r : result A) : within_fuel (lift r).
Proof. destruct r; [apply within_fuel_ret|apply within_fuel_raise]. Qed.

Lemma within_fuel_record e : within_fuel (record e).
Proof. by intros w. Qed.

Lemma within_fuel_utcnow : within_fuel utcnow.
Proof. by intros w. Qed.

Lemma within_fuel_source_scroll name offset limit :
within_fuel (source_scroll name offset limit).
Proof. intros w. unfold source_scroll. by destruct (source_store w !! name). Qed.

Lemma within_fuel_source_scroll_with flags name offset limit :
within_fuel (source_scroll_with flags name offset limit).
Proof.
unfold source_scroll_with. destruct (forallb _ _).
- apply within_fuel_source_scroll.
- apply within_fuel_raise.
Qed.

Lemma within_fuel_target_upsert name points : within_fuel (target_upsert name points).
Proof.
apply within_fuel_bind; [apply within_fuel_record|]. intros _ w.
destruct (target_store w !! name); [|done]. by destruct (forallb _ _).
Qed.

Create HintDb fuel.
Global Hint Resolve within_fuel_ret within_fuel_raise within_fuel_lift
within_fuel_record within_fuel_utcnow within_fuel_source_scroll
within_fuel_source_scroll_with within_fuel_target_upsert : fuel.

Ltac within_fuel_steps :=
repeat first
  [ apply within_fuel_bind; [solve [unfold print; auto with fuel]|intros ?]
  | solve [unfold print; auto with fuel] ].

Lemma migrate_loop_within_fuel name batch_size total_points start_time fuel :
1 <= batch_size ->
forall st,
  ceil_div (total_points - Migrate.offset st) batch_size <= Z.of_nat fuel ->
  within_fuel (Migrate.scan_loop fuel name batch_size total_points start_time st).
Proof.
intros Hbatch. induction fuel as [|fuel IH]; intros st Hfuel.
- simpl. case_bool_decide as Hlt; [|apply within_fuel_ret].
  pose proof (ceil_div_pos (total_points - Migrate.offset st) batch_size). lia.
- simpl. case_bool_decide as Hlt; [|apply within_fuel_ret].
  apply within_fuel_bind; [unfold print; auto with fuel|intros _].
  apply within_fuel_bind; [auto with fuel|intros response].
  destruct (records response) as [|p ps]; [apply within_fuel_ret|].
  within_fuel_steps.
  apply IH. simpl Migrate.offset.
  replace (total_points - (Migrate.offset st + Z.min batch_size (total_points - Migrate.offset st)))
    with ((total_points - Migrate.offset st)
          - Z.min batch_size (total_points - Migrate.offset st)) by lia.
  rewrite ceil_div_step by lia. lia.
Qed.

Lemma export_loop_within_fuel name batch_size total_points fuel :
1 <= batch_size ->
forall st,
  ceil_div (total_points - Exporter.offset st) batch_size <= Z.of_nat fuel ->
  within_fuel (Exporter.scan_loop fuel name batch_size total_points st).
Proof.
intros Hbatch. induction fuel as [|fuel IH]; intros st Hfuel.
- simpl. case_bool_decide as Hlt; [|apply within_fuel_ret].
  pose proof (ceil_div_pos (total_points - Exporter.offset st) batch_size). lia.
- simpl. case_bool_decide as Hlt; [|apply within_fuel_ret].
  within_fuel_steps.
  apply IH. simpl Exporter.offset.
  replace (total_points - (Exporter.offset st + Z.min batch_size (total_points - Exporter.offset st)))
    with ((total_points - Exporter.offset st)
          - Z.min batch_size (total_points - Exporter.offset st)) by lia.
  rewrite ceil_div_step by lia. lia.
Qed.

(** *** [main] *)


Lemma source_get_collections_run w :
source_get_collections w
= (Done (names_of (source_store w)), log [Called SrcGetCollections] w).
Proof. done. Qed.

Lemma target_get_collections_run w :
target_get_collections w
= (Done (names_of (target_store w)), log [Called TgtGetCollections] w).
Proof. done. Qed.

Lemma not_in_names {A} (m : gmap string A) (name : string) :
name ∉ names_of m <-> m !! name = None.
Proof.
unfold names_of. split.
- intros H. destruct (m !! name) as [x|] eqn:E; [|done].
  exfalso. apply H. apply list_elem_of_fmap. exists (name, x). split; [done|].
  by apply elem_of_map_to_list.
- intros H [[k x] [-> Hin]]%list_elem_of_fmap.
  apply elem_of_map_to_list in Hin. simpl in H. congruence.
Qed.

Section MainRun.
Variable int_of_str : string -> option Z.
Variable isoformat : Z -> string.

Lemma script_run fuel w c port host key :
  int_of_str (default "6333" (environ w !! "SOURCE_QDRANT_PORT")) = Some port ->
  environ w !! "TARGET_QDRANT_HOST" = Some host -> host <> "" ->
  environ w !! "TARGET_QDRANT_API_KEY" = Some key -> key <> "" ->
  let name := configured_collection w in
  source_store w !! name = Some c ->
  respects_contract (vectors_size c) c ->
  tc_size (destination_before w name (vectors_size c)) = vectors_size c ->
  points_count c < 2 ^ 63 -> clock_in_range w ->
  ceil_div (points_count c) 100 <= Z.of_nat fuel ->
  exists loop_events w' duration,
    let tc0 := destination_before w name (vectors_size c) in
    let pages := planned_pages true fuel c 100 (points_count c) 0 in
    let points' := upsert_points (fetched pages) (tc_points tc0) in
    let target_point_count := Z.of_nat (size points') in
    Migrate.script int_of_str isoformat fuel w = (Some 0, w') /\
    extends w w'
      (prelude_events w port host
       ++ migration_events name (vectors_size c) (points_count c)
            (bool_decide (is_Some (target_store w !! name)))
            loop_events target_point_count
       ++ [Printed MsgCompleted;
           Printed (MsgSourcePoints (VInt (points_count c)));
           Printed (MsgTargetPoints (VInt target_point_count));
           Printed (MsgDuration (VFloat duration));
           Printed (MsgResultVectorSize (VInt (vectors_size c)))]) /\
    target_store w' = <[name := {| tc_size := tc_size tc0; tc_distance := tc_distance tc0;
                                   tc_points := points' |}]> (target_store w) /\
    forallb is_loop_event loop_events = true.
Proof.
  intros Hport Hhost Hhost' Hkey Hkey' name Hsrc Hc Hsize Htotal Hclock Hfuel.
  unfold Migrate.script, Migrate.main.
  erewrite bind_done by reflexivity. fold (configured_collection w). fold name.
  unfold try_except.
  unfold Migrate.get_source_qdrant_client, Migrate.get_target_qdrant_client.
  erewrite bind_done.
  2:{ erewrite bind_done by reflexivity. erewrite bind_done by reflexivity.
      erewrite bind_done. 2:{ apply lift_run. unfold Migrate.int. by rewrite Hport. }
      apply print_run. }
  erewrite bind_done.
  2:{ erewrite bind_done. 2:{ unfold getenv. simpl. rewrite Hhost. reflexivity. }
      erewrite bind_done. 2:{ unfold getenv. simpl. rewrite Hkey. reflexivity. }
      rewrite !bool_decide_eq_false_2 by done. apply print_run. }
  step_print.
  erewrite bind_done by (apply source_get_collections_run).
  step_print.
  erewrite bind_done.
  2:{ cbn [source_store log]. rewrite bool_decide_eq_false_2; [reflexivity|].
      intros Hin. apply not_in_names in Hin. congruence. }
  step_print.
  erewrite bind_done by (apply target_get_collections_run).
  step_print. step_print.
  rewrite !log_log. cbn [source_store target_store log].
  match goal with |- context [bind (Migrate.migrate_collection _ _ _ _) _ ?w0] =>
    set (w1 := w0) end.
  destruct (migrate_collection_run isoformat fuel name 100 w1 c)
    as (loop_events & w2 & migrated_at & dur & Hrun & Hext & Htgt & _ & _ & Hloop);
    try done.
  cbv zeta in Hrun, Hext, Htgt.
  change (destination_before w1 name (vectors_size c))
    with (destination_before w name (vectors_size c)) in *.
  change (target_store w1) with (target_store w) in *.
  erewrite bind_done by exact Hrun.
  step_print.
  erewrite bind_done by (by apply lift_run).
  step_print.
  erewrite bind_done by (by apply lift_run).
  step_print.
  erewrite bind_done by (by apply lift_run).
  step_print.
  erewrite bind_done by (by apply lift_run).
  step_print. unfold ret.
  exists loop_events. eexists. exists dur. cbv zeta.
  split; [reflexivity|]. split; [|split; [|done]].
  - rewrite !log_log.
    eapply (extends_trans w w1 _ (prelude_events w port host)); [done|].
    eapply extends_trans; [exact Hext|]. done.
  - cbn [target_store log]. exact Htgt.
Qed.
End MainRun.

(** ** Writes by id *)

Lemma upsert_points_snoc ps p m :
  upsert_points (ps ++ [p]) m = <[pt_id p := p]> (upsert_points ps m).
Proof. by rewrite upsert_points_app. Qed.

Lemma lookup_upsert_points_fresh ps m i :
  i ∉ pt_id <$> ps -> upsert_points ps m !! i = m !! i.
Proof.
  revert m. induction ps as [|p ps IH]; intros m Hi; [done|].
  rewrite fmap_cons, not_elem_of_cons in Hi. destruct Hi as [Hne Hi].
  simpl. rewrite IH by done. by rewrite lookup_insert_ne.
Qed.

(** The points written last decide: what a key holds after a batch does
    not depend on what it held before, when the batch writes it. *)
Lemma lookup_upsert_points_written ps m m' i :
  i ∈ pt_id <$> ps -> upsert_points ps m !! i = upsert_points ps m' !! i.
Proof.
  revert m m'. induction ps as [|p ps IH]; intros m m' Hi.
  { by apply elem_of_nil in Hi. }
  simpl. destruct (decide (i ∈ pt_id <$> ps)) as [Hin|Hnin].
  - by apply IH.
  - rewrite fmap_cons, elem_of_cons in Hi. destruct Hi as [->|?]; [|done].
    rewrite !lookup_upsert_points_fresh by done. by rewrite !lookup_insert_eq.
Qed.

(** Replaying a batch changes nothing. *)
Lemma upsert_points_idemp ps m :
  upsert_points ps (upsert_points ps m) = upsert_points ps m.
Proof.
  apply map_eq. intros i. destruct (decide (i ∈ pt_id <$> ps)).
  - by apply lookup_upsert_points_written.
  - by rewrite lookup_upsert_points_fresh.
Qed.

(** Records with distinct ids written into an empty collection are as
    many points. *)
Lemma size_upsert_points_empty ps :
  NoDup (pt_id <$> ps) ->
  size (upsert_points ps (∅ : gmap point_id PointStruct)) = length ps.
Proof.
  induction ps as [|p ps IH] using rev_ind; intros Hnd; [done|].
  rewrite fmap_app, NoDup_app in Hnd. destruct Hnd as (Hnd & Hfresh & _).
  rewrite upsert_points_snoc, map_size_insert_None.
  - rewrite IH by done. rewrite length_app. simpl. lia.
  - rewrite lookup_upsert_points_fresh; [done|].
    intros Hin. apply (Hfresh _ Hin). simpl. by left.
Qed.

(** ** Trace arithmetic *)

Lemma scroll_pages_loop_only name size total existed loop_events target_points :
  scroll_pages (migration_events name size total existed loop_events target_points)
  = scroll_pages loop_events.
Proof.
  unfold migration_events. rewrite !scroll_pages_app.
  destruct existed; case_bool_decide; simpl; by rewrite app_nil_r.
Qed.

Lemma scans_loop_only name size total existed loop_events target_points :
  filter (fun e => is_scan e = true)
    (migration_events name size total existed loop_events target_points)
  = filter (fun e => is_scan e = true) loop_events.
Proof.
  unfold migration_events. rewrite !filter_app.
  destruct existed; case_bool_decide; simpl; by rewrite app_nil_r.
Qed.

Lemma length_fetched pages :
  length (fetched pages) = sum_list (length <$> (records <$> pages)).
Proof.
  unfold fetched. induction pages as [|p ps IH]; simpl; [done|].
  rewrite length_app. f_equal. apply IH.
Qed.

(** ** The shape of a scan that stops at an empty page *)
Section Shape.
Variable c : SourceCollection.
Variable batch_size total_points : Z.
Hypothesis Hbatch : 1 <= batch_size.

Let limit_at (offset : Z) : Z := Z.min batch_size (total_points - offset).

Lemma planned_pages_at fuel : forall offset i p,
  planned_pages true fuel c batch_size total_points offset !! i = Some p ->
  p = scroll c (offset + Z.of_nat i * batch_size)
        (limit_at (offset + Z.of_nat i * batch_size)).
Proof.
  induction fuel as [|fuel IH]; intros offset i p; simpl.
  - by case_bool_decide.
  - case_bool_decide as Hlt; [|done].
    destruct i as [|i]; simpl.
    + intros [= <-]. unfold limit_at. f_equal; [lia|f_equal; lia].
    + fold (limit_at offset). intros Hi.
      assert (Hrest : planned_pages true fuel c batch_size total_points
                        (offset + limit_at offset) !! i = Some p).
      { by destruct (records (scroll c offset (limit_at offset))). }
      (* a further page exists, so this one asked for a full batch *)
      assert (offset + limit_at offset < total_points).
      { destruct fuel; simpl in Hrest; by case_bool_decide. }
      assert (Hfull : limit_at offset = batch_size) by (unfold limit_at in *; lia).
      rewrite (IH _ _ _ Hrest), Hfull. f_equal; [lia|f_equal; lia].
Qed.

Lemma planned_pages_nonempty_before_last fuel : forall offset i p,
  planned_pages true fuel c batch_size total_points offset !! i = Some p ->
  (S i < length (planned_pages true fuel c batch_size total_points offset))%nat ->
  records p <> [].
Proof.
  induction fuel as [|fuel IH]; intros offset i p; simpl.
  - by case_bool_decide.
  - case_bool_decide as Hlt; [|done].
    fold (limit_at offset).
    destruct (records (scroll c offset (limit_at offset))) as [|r rs] eqn:Hrec.
    + destruct i; simpl; [lia|done].
    + destruct i as [|i]; simpl.
      * intros [= <-] _. by rewrite Hrec.
      * intros Hi Hlen. apply (IH _ _ _ Hi). lia.
Qed.

Lemma planned_pages_end fuel : forall offset,
  ceil_div (total_points - offset) batch_size <= Z.of_nat fuel ->
  let pages := planned_pages true fuel c batch_size total_points offset in
  Z.of_nat (length pages) <= Z.max 0 (ceil_div (total_points - offset) batch_size) /\
  (Z.of_nat (length pages) = Z.max 0 (ceil_div (total_points - offset) batch_size) \/
   exists p, last pages = Some p /\ records p = []).
Proof.
  induction fuel as [|fuel IH]; intros offset Hfuel; simpl.
  - case_bool_decide; simpl; lia.
  - case_bool_decide as Hlt.
    2:{ pose proof (ceil_div_nonpos (total_points - offset) batch_size). simpl. lia. }
    fold (limit_at offset).
    assert (Hstep : ceil_div (total_points - (offset + limit_at offset)) batch_size
                    = ceil_div (total_points - offset) batch_size - 1).
    { unfold limit_at.
      replace (total_points - (offset + Z.min batch_size (total_points - offset)))
        with ((total_points - offset) - Z.min batch_size (total_points - offset)) by lia.
      apply ceil_div_step; lia. }
    pose proof (ceil_div_pos (total_points - offset) batch_size Hbatch ltac:(lia)) as Hpos.
    destruct (IH (offset + limit_at offset) ltac:(lia)) as [Hle Hend].
    destruct (records (scroll c offset (limit_at offset))) as [|r rs] eqn:Hrec.
    + simpl. split; [lia|]. right. eauto.
    + cbn [length]. split; [lia|].
      destruct Hend as [Heq|(p & Hlast & Hp)].
      * left. lia.
      * right. exists p. split; [|done].
        destruct (planned_pages true fuel c batch_size total_points
                    (offset + limit_at offset)); [done|]. by rewrite last_cons, Hlast.
Qed.
End Shape.

(** ** The example worlds *)

Lemma seconds_clock_in_range c target : clock_in_range (Examples.world c target).
Proof.
  intros n. unfold Examples.world, Examples.seconds_clock, datetime_max. simpl. lia.
Qed.

Lemma three_points_well_formed :
  Forall (fun p => vector_dim p = Some 2) Examples.three_points.
Proof. repeat constructor. Qed.

Lemma three_points_stored_under_ids : stored_under_ids Examples.three_points.
Proof.
  split.
  - apply (bool_decide_unpack _). vm_compute. exact I.
  - repeat (constructor; [unfold unsigned_id; simpl; lia|]). constructor.
Qed.

(** ** Counting the destination *)

Lemma target_count_insert w t name tc :
  target_store w = <[name := tc]> t ->
  target_count w name = Z.of_nat (size (tc_points tc)).
Proof. intros H. unfold target_count. by rewrite H, lookup_insert_eq. Qed.

(** * The claims *)

(** C1 — Pagination exhaustion holds of the migration and fails of the
    export. For a source collection that holds what it counts (a page
    asked for within the count comes back full) and a batch limit of at
    least 1, the scan loop of the migration issues exactly
    [ceil(total_count / limit)] scroll calls, the sizes of the batches
    returned add up to [total_count], and the loop ends with
    [migrated_count = total_count]. The scan loop of the export, which is
    the same loop, passes [scroll] the keyword [with_vector] where the
    migration passes [with_vectors]: as soon as there is a record to
    fetch its first call is refused with [AssertionError], after the line
    that announces the page and before any request to the store. *)
Theorem C1_migration_exhausts_pages_and_export_scroll_is_refused
    (c : SourceCollection) (name : string) (batch_size start_time : Z)
    (fuel : nat) (w : World) (tc : TargetCollection) :
  let total_count := points_count c in
  1 <= batch_size ->
  0 <= total_count < 2 ^ 63 ->
  source_store w !! name = Some c ->
  respects_contract (tc_size tc) c ->
  full_pages c ->
  target_store w !! name = Some tc ->
  clock_in_range w -> 0 <= start_time <= datetime_max ->
  ceil_div total_count batch_size <= Z.of_nat fuel ->
  (exists evs st' w',
      Migrate.scan_loop fuel name batch_size total_count start_time
        {| Migrate.migrated_count := 0; Migrate.offset := 0 |} w
      = (Done st', w') /\
      trace w' = trace w ++ evs /\
      Z.of_nat (length (filter (fun e => is_scan e = true) evs))
      = ceil_div total_count batch_size /\
      Z.of_nat (sum_list (length <$> (records <$> scroll_pages evs)))
      = total_count /\
      Migrate.migrated_count st' = total_count) /\
  (0 < total_count ->
   Exporter.scan_loop fuel name batch_size total_count
     {| Exporter.all_points := []; Exporter.offset := 0 |} w
   = (Raised AssertionError,
      log [Printed (MsgExportFetching 0 (Z.min batch_size total_count))] w)).
Proof.
  intros total_count Hbatch Htotal Hsrc Hc Hfull Htgt Hclock Hstart Hfuel.
  split.
  - destruct (scan_loop_run name c (tc_size tc) batch_size total_count start_time
                Hc Hbatch ltac:(lia) Hstart fuel
                {| Migrate.migrated_count := 0; Migrate.offset := 0 |} w tc)
      as (evs & st' & w' & Hrun & (_ & _ & _ & Htr) & Hmig & _ & Hpages & Hscans & _);
      try done.
    { simpl. by rewrite Z.sub_0_r. }
    cbv zeta in *. simpl Migrate.offset in *. simpl Migrate.migrated_count in *.
    destruct (planned_pages_full c batch_size Hbatch Hfull true fuel 0)
      as [Hfetched Hcount]; [fold total_count; lia|by rewrite Z.sub_0_r|].
    fold total_count in Hfetched, Hcount. rewrite Z.sub_0_r in Hfetched, Hcount.
    exists evs, st', w'. repeat split; try done.
    + rewrite Hscans. exact Hcount.
    + rewrite <- length_fetched, Hpages. exact Hfetched.
    + rewrite Hmig. lia.
  - intros Hpos. destruct fuel as [|fuel].
    { pose proof (ceil_div_pos total_count batch_size Hbatch Hpos). lia. }
    rewrite export_loop_refused by done. simpl Exporter.offset.
    by rewrite Z.sub_0_r, Z.add_0_l.
Qed.

Lemma C1_migration_exhausts_pages_and_export_scroll_is_refused_witness :
  (exists st' w',
      Migrate.scan_loop 2 "incidents" 2 3 0
        {| Migrate.migrated_count := 0; Migrate.offset := 0 |}
        (Examples.world Examples.cursor_source Examples.empty_target)
      = (Done st', w') /\
      Migrate.migrated_count st' = 3) /\
  Exporter.scan_loop 2 "incidents" 2 3
    {| Exporter.all_points := []; Exporter.offset := 0 |}
    (Examples.world Examples.cursor_source Examples.empty_target)
  = (Raised AssertionError,
     log [Printed (MsgExportFetching 0 2)]
       (Examples.world Examples.cursor_source Examples.empty_target)).
Proof.
  destruct (C1_migration_exhausts_pages_and_export_scroll_is_refused
              Examples.cursor_source "incidents" 2 0 2
              (Examples.world Examples.cursor_source Examples.empty_target)
              {| tc_size := 2; tc_distance := COSINE; tc_points := ∅ |})
    as [(evs & st' & w' & Hrun & _ & _ & _ & Hmig) Hexport].
  - lia.
  - simpl. lia.
  - reflexivity.
  - apply cursor_collection_respects_contract, three_points_well_formed.
  - apply cursor_collection_full_pages, three_points_stored_under_ids.
  - reflexivity.
  - apply seconds_clock_in_range.
  - unfold datetime_max. lia.
  - vm_compute. discriminate.
  - split.
    + exists st', w'. split; [exact Hrun|exact Hmig].
    + apply Hexport. simpl. lia.
Defined.

(** C2 — Idempotent replay does not give [N] points. The loop hands
    [scroll] its running count as [offset], and the store reads [offset]
    as the id to start from. A collection of three points with the ids 1,
    2 and 3 migrated in batches of 2 into an empty destination: the second
    page is asked from id 2 and brings the point 2 again, the point 3 is
    never fetched; the run completes, prints the count warning (3 in the
    source, 2 in the destination) and leaves 2 points. The second run
    does the same and leaves the destination as the first one left it:
    the replay duplicates nothing, but the count is 2 after each run, not
    3. *)
Theorem C2_replay_of_three_points_leaves_two :
  let w := Examples.world Examples.cursor_source ∅ in
  let run1 := Migrate.migrate_collection Examples.no_text 2 "incidents" 2 w in
  let w1 := snd run1 in
  let run2 := Migrate.migrate_collection Examples.no_text 2 "incidents" 2 w1 in
  let w2 := snd run2 in
  length Examples.three_points = 3%nat /\
  NoDup (pt_id <$> Examples.three_points) /\
  (exists v1,
      fst run1 = Done v1 /\
      Migrate.metadata_field v1 "source_points" = Ok (VInt 3) /\
      Migrate.metadata_field v1 "target_points" = Ok (VInt 2)) /\
  records <$> scroll_pages (trace w1)
  = [[Examples.point 1; Examples.point 2]; [Examples.point 2]] /\
  last (trace w1) = Some (Printed (MsgSourceTarget 3 2)) /\
  target_count w1 "incidents" = 2 /\
  (exists v2,
      fst run2 = Done v2 /\
      Migrate.metadata_field v2 "source_points" = Ok (VInt 3) /\
      Migrate.metadata_field v2 "target_points" = Ok (VInt 2)) /\
  last (trace w2) = Some (Printed (MsgSourceTarget 3 2)) /\
  target_count w2 "incidents" = 2 /\
  target_store w2 = target_store w1.
Proof.
  cbv zeta.
  split; [reflexivity|].
  split; [apply (bool_decide_unpack _); vm_compute; exact I|].
  split; [eexists; split; [vm_compute; reflexivity|split; reflexivity]|].
  split; [vm_compute; reflexivity|].
  split; [vm_compute; reflexivity|].
  split; [vm_compute; reflexivity|].
  split; [eexists; split; [vm_compute; reflexivity|split; reflexivity]|].
  split; [vm_compute; reflexivity|].
  split; [vm_compute; reflexivity|].
  vm_compute; reflexivity.
Qed.

(** C3 — schema creation: the code creates the destination collection
    with the cosine metric whatever the source's metric is. A source with
    the dot-product metric migrated into a destination that lacks the
    collection: exactly one create call is issued, before the upsert and
    with the source's dimension, but it carries [COSINE], and the
    collection is created with [COSINE]. *)
Theorem C3_create_call_carries_cosine_not_source_metric :
  let w := Examples.world Examples.dot_source ∅ in
  let w' := snd (Migrate.migrate_collection Examples.no_text 5 "incidents" 100 w) in
  vectors_distance Examples.dot_source = DOT /\
  filter (fun e => is_write e = true) (trace w')
  = [Called (TgtRecreateCollection "incidents" 2 COSINE);
     Called (TgtUpsert "incidents" Examples.three_points)] /\
  tc_distance <$> (target_store w' !! "incidents") = Some COSINE.
Proof. vm_compute. repeat split; reflexivity. Qed.

(** C4, as stated, fails: the loop never reads [next_offset]. From a
    source that reports three points and holds two it fetches a third page
    after the page whose [next_offset] is null; from a source that reports
    one point and holds two it stops after a page that is neither empty nor
    the last one the store announces. *)
Lemma C4_stopping_rule_counterexample :
  let run c :=
    scroll_pages
      (trace (snd (Migrate.migrate_collection Examples.no_text 5 "incidents" 1
                     (Examples.world c Examples.empty_target)))) in
  run Examples.over_reporting
  = [ {| records := [Examples.point 1]; next_offset := Some 1 |};
      {| records := [Examples.point 2]; next_offset := None |};
      {| records := []; next_offset := None |} ] /\
  stops_at_first_exhausted (run Examples.over_reporting) = false /\
  run Examples.under_reporting
  = [ {| records := [Examples.point 1]; next_offset := Some 1 |} ] /\
  stops_at_first_exhausted (run Examples.under_reporting) = false.
Proof. vm_compute. repeat split; reflexivity. Qed.

(** C4, amended — the stopping rule of the migration scan. The loop
    fetches a page while [offset < total_count], the count read at the
    start, and stops early at the first empty page, whatever that page's
    [next_offset]: the [i]-th page is asked at offset [i * batch_size]
    with limit [min(batch_size, total_count - offset)]; every page before
    the last one is non-empty; and the last page is empty or is the
    [ceil(total_count / batch_size)]-th. [next_offset] is not
    consulted. *)
Theorem C4_scan_stops_at_empty_page_or_count
    (isoformat : Z -> string) (fuel : nat) (name : string)
    (batch_size : Z) (w : World) (c : SourceCollection) :
  source_store w !! name = Some c ->
  respects_contract (vectors_size c) c ->
  tc_size (destination_before w name (vectors_size c)) = vectors_size c ->
  1 <= batch_size ->
  points_count c < 2 ^ 63 ->
  clock_in_range w ->
  ceil_div (points_count c) batch_size <= Z.of_nat fuel ->
  exists v w' evs,
    Migrate.migrate_collection isoformat fuel name batch_size w = (Done v, w') /\
    trace w' = trace w ++ evs /\
    let pages := scroll_pages evs in
    let total_count := points_count c in
    (forall i p, pages !! i = Some p ->
       p = scroll c (Z.of_nat i * batch_size)
             (Z.min batch_size (total_count - Z.of_nat i * batch_size))) /\
    (forall i p, pages !! i = Some p -> (S i < length pages)%nat ->
       records p <> []) /\
    Z.of_nat (length pages) <= Z.max 0 (ceil_div total_count batch_size) /\
    (Z.of_nat (length pages) = Z.max 0 (ceil_div total_count batch_size) \/
     exists p, last pages = Some p /\ records p = []).
Proof.
  intros Hsrc Hc Hsize Hbatch Htotal Hclock Hfuel.
  destruct (migrate_collection_run isoformat fuel name batch_size w c)
    as (evs & w' & at1 & dur & Hrun & (_ & _ & _ & Htr) & _ & Hpages & _);
    try done.
  cbv zeta in Hrun, Htr.
  eexists _, w', _. split; [exact Hrun|]. split; [exact Htr|].
  cbv zeta. rewrite scroll_pages_loop_only, Hpages.
  pose proof (planned_pages_end c batch_size (points_count c) Hbatch fuel 0) as Hend.
  rewrite Z.sub_0_r in Hend. destruct (Hend Hfuel) as [Hle Hlast].
  split; [|split; [|split]]; try done.
  - intros i p Hi.
    apply (planned_pages_at c batch_size (points_count c)) in Hi.
    by rewrite Z.add_0_l in Hi.
  - intros i p Hi Hlen.
    by apply (planned_pages_nonempty_before_last c batch_size (points_count c)
                fuel 0 i p).
Qed.

Lemma C4_scan_stops_at_empty_page_or_count_witness :
  exists v w' evs,
    Migrate.migrate_collection Examples.no_text 5 "incidents" 1
      (Examples.world Examples.over_reporting Examples.empty_target)
    = (Done v, w') /\
    trace w' = [] ++ evs /\
    Z.of_nat (length (scroll_pages evs)) <= 3.
Proof.
  destruct (C4_scan_stops_at_empty_page_or_count Examples.no_text 5 "incidents" 1
              (Examples.world Examples.over_reporting Examples.empty_target)
              Examples.over_reporting)
    as (v & w' & evs & Hrun & Htr & _ & _ & Hle & _).
  - reflexivity.
  - apply list_collection_respects_contract. repeat constructor.
  - reflexivity.
  - lia.
  - simpl. lia.
  - apply seconds_clock_in_range.
  - vm_compute. discriminate.
  - exists v, w', evs. split; [exact Hrun|]. split; [exact Htr|exact Hle].
Defined.

(** C5, as stated, fails on the percentage: the code divides first and
    multiplies the rounded quotient by 100. For 23 records of 40 the
    quotient 0.575 is not a float, the product comes out just below 57.5
    and is rounded to 57, while [round(100 * 23 / 40)] is 58, in exact
    arithmetic and in Python's own left-to-right float evaluation. *)
Lemma C5_percent_counterexample :
  Migrate.progress_of 23 40 = Ok 57 /\
  stated_percent 23 40 = 58 /\
  stated_percent_float 23 40 = Ok 58 /\
  Migrate.progress_of 23 40 <> Ok (stated_percent 23 40).
Proof. vm_compute. repeat split; discriminate. Qed.

(** C5, amended — the progress computation. For [migrated_count >= 0],
    [total_count > 0] and [elapsed_seconds >= 0] it returns
    [percent = min(100, round((migrated_count / total_count) * 100))],
    the quotient taken first and each operation rounded to a float;
    [rate = migrated_count / elapsed_seconds], with [rate = 0] when
    [elapsed_seconds = 0]; and
    [eta_seconds = (total_count - migrated_count) / rate] when [rate > 0]
    and 0 otherwise. For counts below [2^63] the percentage is defined
    and lies between 0 and 100. For [migrated_count = 50], [total_count = 200] and
    10 seconds elapsed it returns 25 percent, a rate of 5 per second and
    an ETA of 30 seconds. *)
Theorem C5_progress_computation
    (migrated_count total_count : Z) (elapsed : PyFloat.float) :
  0 <= migrated_count -> 0 < total_count ->
  SFleb (S754_zero false) elapsed = true ->
  Migrate.progress_of migrated_count total_count
  = quotient_first_percent migrated_count total_count /\
  Migrate.rate_of migrated_count (Float elapsed)
  = stated_rate migrated_count elapsed /\
  (forall rate,
      Migrate.eta_of migrated_count total_count rate
      = stated_eta migrated_count total_count rate) /\
  (migrated_count < 2 ^ 63 -> total_count < 2 ^ 63 ->
   exists percent,
     Migrate.progress_of migrated_count total_count = Ok percent /\
     0 <= percent <= 100) /\
  (exists ten five thirty,
      total_seconds 10000000 0 = Ok (Float ten) /\
      Migrate.progress_of 50 200 = Ok 25 /\
      Migrate.rate_of 50 (Float ten) = Ok (Float five) /\
      Migrate.eta_of 50 200 (Float five) = Ok (Float thirty) /\
      PyFloat.round five = Ok 5 /\ PyFloat.to_int five = Ok 5 /\
      PyFloat.round thirty = Ok 30 /\ PyFloat.to_int thirty = Ok 30 /\
      PyFloat.of_int 5 = Ok five /\ PyFloat.of_int 30 = Ok thirty).
Proof.
  intros Hm Ht Hel. split; [|split; [|split; [|split]]].
  - unfold Migrate.progress_of, quotient_first_percent.
    unfold PyNum.truediv.
    destruct (PyFloat.int_truediv migrated_count total_count) as [q|e]; [|done].
    cbn -[PyFloat.fmul PyFloat.round PyFloat.of_int Z.min].
    rewrite of_int_100. reflexivity.
  - unfold Migrate.rate_of, stated_rate.
    destruct elapsed as [[]|[]| |[] m e]; try discriminate; reflexivity.
  - reflexivity.
  - intros Hm' Ht'. apply progress_of_in_range; lia.
  - exists (S754_finite false 5629499534213120 (-49)),
           (S754_finite false 5629499534213120 (-50)),
           (S754_finite false 8444249301319680 (-48)).
    vm_compute. repeat split; reflexivity.
Qed.

Lemma C5_progress_computation_witness :
  Migrate.progress_of 50 200 = quotient_first_percent 50 200 /\
  Migrate.rate_of 50 (Float (S754_finite false 5629499534213120 (-49)))
  = stated_rate 50 (S754_finite false 5629499534213120 (-49)).
Proof.
  destruct (C5_progress_computation 50 200 (S754_finite false 5629499534213120 (-49)))
    as (Hp & Hr & _); [lia|lia|reflexivity|].
  split; [exact Hp|exact Hr].
Defined.

(** C6, as stated, fails: the result of a run whose counts differ has no
    [mismatch] entry. Three source records migrated into a destination
    that already holds a point of its own: the run completes, the result
    carries the two counts 3 and 4, and asking it for [mismatch] raises
    [KeyError]. *)
Lemma C6_mismatch_flag_counterexample :
  exists v w',
    Migrate.migrate_collection Examples.no_text 5 "incidents" 100
      (Examples.world (honest_collection 2 COSINE Examples.three_points)
         Examples.populated_target)
    = (Done v, w') /\
    Migrate.metadata_field v "source_points" = Ok (VInt 3) /\
    Migrate.metadata_field v "target_points" = Ok (VInt 4) /\
    Migrate.metadata_field v "mismatch" <> Ok (VBool true).
Proof.
  eexists _, _. split; [vm_compute; reflexivity|].
  repeat split; discriminate.
Qed.

Lemma warning_in_migration_events name size total existed loop_events T :
  T <> total ->
  exists pre,
    migration_events name size total existed loop_events T
    = pre ++ [Printed MsgWarningMismatch; Printed (MsgSourceTarget total T)].
Proof.
  intros HT. unfold migration_events. rewrite bool_decide_eq_true_2 by done.
  exists ([Printed (MsgGettingSourceInfo name); Called (SrcGetCollection name);
           Printed (MsgSourceHas name total); Printed (MsgVectorSize size);
           Called (TgtGetCollection name)]
          ++ (if existed then [Printed (MsgAlreadyExists name)]
              else [Printed (MsgCreating name);
                    Called (TgtRecreateCollection name size COSINE);
                    Printed MsgCreated])
          ++ loop_events
          ++ [Printed MsgVerifying; Called (TgtGetCollection name)]).
  by rewrite <- !app_assoc.
Qed.

(** C6, amended — count mismatch. When verification finds the
    destination count unequal to the source count read at the start, the
    run still completes without raising: a warning with both counts is
    printed, the result carries the source and the target count, and the
    process exits with code 0. The result has no [mismatch] entry: the
    mismatch is what the two counts it carries say. *)
Theorem C6_count_mismatch_warns_and_exits_zero
    (int_of_str : string -> option Z) (isoformat : Z -> string)
    (fuel : nat) (w : World) (c : SourceCollection)
    (port : Z) (host key : string) :
  int_of_str (default "6333" (environ w !! "SOURCE_QDRANT_PORT")) = Some port ->
  environ w !! "TARGET_QDRANT_HOST" = Some host -> host <> "" ->
  environ w !! "TARGET_QDRANT_API_KEY" = Some key -> key <> "" ->
  let name := configured_collection w in
  source_store w !! name = Some c ->
  respects_contract (vectors_size c) c ->
  tc_size (destination_before w name (vectors_size c)) = vectors_size c ->
  points_count c < 2 ^ 63 ->
  clock_in_range w ->
  ceil_div (points_count c) 100 <= Z.of_nat fuel ->
  exists target_points,
    (exists v w' evs,
        Migrate.migrate_collection isoformat fuel name 100 w = (Done v, w') /\
        trace w' = trace w ++ evs /\
        target_count w' name = target_points /\
        Migrate.metadata_field v "source_points" = Ok (VInt (points_count c)) /\
        Migrate.metadata_field v "target_points" = Ok (VInt target_points) /\
        Migrate.metadata_field v "mismatch" = Raise (KeyError "mismatch") /\
        (target_points <> points_count c ->
         exists pre,
           evs = pre ++ [Printed MsgWarningMismatch;
                         Printed (MsgSourceTarget (points_count c) target_points)])) /\
    (exists w' evs,
        Migrate.script int_of_str isoformat fuel w = (Some 0, w') /\
        trace w' = trace w ++ evs /\
        target_count w' name = target_points /\
        (target_points <> points_count c ->
         exists pre post,
           evs = pre ++ [Printed MsgWarningMismatch;
                         Printed (MsgSourceTarget (points_count c) target_points)]
                 ++ post)).
Proof.
  intros Hport Hhost Hhost' Hkey Hkey' name Hsrc Hc Hsize Htotal Hclock Hfuel.
  destruct (migrate_collection_run isoformat fuel name 100 w c)
    as (ev1 & w1 & at1 & dur1 & Hrun1 & (_ & _ & _ & Htr1) & Htgt1 & _);
    try done.
  destruct (script_run int_of_str isoformat fuel w c port host key)
    as (ev2 & w2 & dur2 & Hrun2 & (_ & _ & _ & Htr2) & Htgt2 & _);
    try done.
  cbv zeta in *. fold name in Hrun2, Htr2, Htgt2.
  set (T := Z.of_nat (size (upsert_points
                (fetched (planned_pages true fuel c 100 (points_count c) 0))
                (tc_points (destination_before w name (vectors_size c)))))) in *.
  exists T. split.
  - eexists _, w1, _. split; [exact Hrun1|]. split; [exact Htr1|].
    split; [by rewrite (target_count_insert _ _ _ _ Htgt1)|].
    repeat split; try done.
    intros HT. by apply warning_in_migration_events.
  - eexists w2, _. split; [exact Hrun2|]. split; [exact Htr2|].
    split; [by rewrite (target_count_insert _ _ _ _ Htgt2)|].
    intros HT.
    destruct (warning_in_migration_events name (vectors_size c) (points_count c)
                (bool_decide (is_Some (target_store w !! name))) ev2 T HT)
      as [pre ->].
    exists (prelude_events w port host ++ pre).
    exists [Printed MsgCompleted;
            Printed (MsgSourcePoints (VInt (points_count c)));
            Printed (MsgTargetPoints (VInt T));
            Printed (MsgDuration (VFloat dur2));
            Printed (MsgResultVectorSize (VInt (vectors_size c)))].
    by rewrite <- !app_assoc.
Qed.

Lemma C6_count_mismatch_warns_and_exits_zero_witness :
  exists w',
    Migrate.script Examples.port_6333 Examples.no_text 5
      (Examples.world (honest_collection 2 COSINE Examples.three_points)
         Examples.populated_target)
    = (Some 0, w') /\
    target_count w' "incidents" <> 3.
Proof.
  destruct (C6_count_mismatch_warns_and_exits_zero
              Examples.port_6333 Examples.no_text 5
              (Examples.world (honest_collection 2 COSINE Examples.three_points)
                 Examples.populated_target)
              (honest_collection 2 COSINE Examples.three_points)
              6333 "cluster.example" "secret")
    as (T & _ & (w' & evs & Hrun & _ & HT & _)).
  - reflexivity.
  - reflexivity.
  - discriminate.
  - reflexivity.
  - discriminate.
  - reflexivity.
  - apply list_collection_respects_contract, three_points_well_formed.
  - reflexivity.
  - simpl. lia.
  - apply seconds_clock_in_range.
  - vm_compute. discriminate.
  - exists w'. split; [exact Hrun|].
    replace w' with (snd (Migrate.script Examples.port_6333 Examples.no_text 5
                            (Examples.world
                               (honest_collection 2 COSINE Examples.three_points)
                               Examples.populated_target)))
      by (by rewrite Hrun).
    vm_compute. discriminate.
Defined.

(** C7 — source collection not found. If the collection [main] is asked
    to migrate is not in the source store, the process exits with status
    1 and nothing but reading has happened: no scroll call, no create, no
    upsert, the destination as it was. When the two clients could be
    set up, the last line printed is the error naming the collection that
    was not found in the source. *)
Theorem C7_source_not_found_fails_before_any_scan_or_write
    (int_of_str : string -> option Z) (isoformat : Z -> string)
    (fuel : nat) (w : World) :
  source_store w !! configured_collection w = None ->
  exists evs,
    Migrate.script int_of_str isoformat fuel w = (Some 1, log evs w) /\
    forallb quiet evs = true /\
    (forall port host key,
        int_of_str (default "6333" (environ w !! "SOURCE_QDRANT_PORT"))
        = Some port ->
        environ w !! "TARGET_QDRANT_HOST" = Some host -> host <> "" ->
        environ w !! "TARGET_QDRANT_API_KEY" = Some key -> key <> "" ->
        last evs = Some (Printed (MsgErrorNotFound (configured_collection w)))).
Proof.
  intros Hsrc. apply not_in_names in Hsrc.
  unfold Migrate.script, Migrate.main, try_except, bind, getenv_default,
    Migrate.get_source_qdrant_client, Migrate.get_target_qdrant_client,
    Migrate.int, bind, getenv_default, getenv, lift.
  fold (configured_collection w).
  destruct (int_of_str _) as [port|] eqn:Hport; simpl.
  - destruct (environ w !! "TARGET_QDRANT_HOST") as [host|] eqn:Hhost;
      [destruct (environ w !! "TARGET_QDRANT_API_KEY") as [key|] eqn:Hkey;
       [destruct (bool_decide (host = "") || bool_decide (key = "")) eqn:Hempty|]|];
      simpl; rewrite ?bool_decide_eq_true_2 by done; simpl;
      rewrite ?log_log; simpl.
    all: eexists; split; [reflexivity|]; split; [reflexivity|].
    all: intros port' host' key' ? ? ? ? ?; simplify_eq.
    + apply orb_true_iff in Hempty as [?%bool_decide_eq_true|?%bool_decide_eq_true]; done.
    + done.
  - rewrite ?log_log. eexists; split; [reflexivity|]; split; [reflexivity|].
    intros port' host' key' ? ? ? ? ?; simplify_eq.
Qed.

Lemma C7_source_not_found_fails_before_any_scan_or_write_witness :
  exists evs,
    Migrate.script Examples.port_6333 Examples.no_text 5
      Examples.world_without_source
    = (Some 1, log evs Examples.world_without_source) /\
    forallb quiet evs = true /\
    last evs = Some (Printed (MsgErrorNotFound "incidents")).
Proof.
  destruct (C7_source_not_found_fails_before_any_scan_or_write
              Examples.port_6333 Examples.no_text 5 Examples.world_without_source)
    as (evs & Hrun & Hquiet & Hlast).
  - reflexivity.
  - exists evs. split; [exact Hrun|]. split; [exact Hquiet|].
    apply (Hlast 6333 "cluster.example" "secret");
      [reflexivity|reflexivity|discriminate|reflexivity|discriminate].
Defined.

(** C8, as stated, fails: the transformer is not total. A record without
    [id] makes it raise [KeyError], and so does the batch that holds the
    record; a record whose embedding is a text is refused by the
    constructor of the point. *)
Lemma C8_transformer_not_total_counterexample :
  Loader.point_of_embedding Examples.record_without_id = Raise (KeyError "id") /\
  ~ (exists p, Loader.point_of_embedding Examples.record_without_id = Ok p) /\
  ~ (exists ps, Loader.points_of_batch [Examples.record_without_id] = Ok ps) /\
  Loader.point_of_embedding Examples.record_with_text_embedding = Raise ValueError /\
  ~ (exists p, Loader.point_of_embedding Examples.record_with_text_embedding = Ok p).
Proof.
  split; [reflexivity|].
  split; [intros [p Hp]; vm_compute in Hp; discriminate|].
  split; [intros [p Hp]; vm_compute in Hp; discriminate|].
  split; [reflexivity|].
  intros [p Hp]; vm_compute in Hp; discriminate.
Qed.

Section Transformer.
Import TransformerSpec.

Lemma get_field d key dflt :
  Loader.get (VDict d) key dflt = Ok (default dflt (dict_lookup d key)).
Proof. done. Qed.

Lemma get_sub_dict d key d' :
  sub_dict d key = Some d' -> Loader.get (VDict d) key (VDict []) = Ok (VDict d').
Proof.
  unfold sub_dict. rewrite get_field.
  destruct (dict_lookup d key) as [[]|]; intros [= <-]; done.
Qed.

(** The first non-empty of an optional text and what follows it. *)
Lemma or_else_optional_text d key rest :
  optional_text d key ->
  Loader.or_else (Loader.get (VDict d) key VNone) rest
  = if decide (field_text d key = "") then rest else Ok (VStr (field_text d key)).
Proof.
  unfold optional_text, field_text, Loader.or_else. rewrite get_field.
  intros [->|[->|[s ->]]]; simpl; try done.
  destruct (decide (s = "")) as [->|Hs]; simpl; [done|].
  by rewrite bool_decide_eq_false_2.
Qed.

Lemma first_non_empty_cons s rest :
  first_non_empty (s :: rest) = if decide (s = "") then first_non_empty rest else s.
Proof.
  unfold first_non_empty. rewrite filter_cons.
  destruct (decide (s = "")) as [->|Hs].
  - by rewrite decide_False by (by intros ?).
  - by rewrite decide_True.
Qed.

Lemma as_components_stored components floats :
  Forall2 stored_as components floats ->
  Loader.as_components components = Ok floats.
Proof.
  induction 1 as [|v x vs xs Hv _ IH]; [done|].
  cbn [Loader.as_components]. rewrite IH.
  destruct Hv as [(y & -> & ->)|(n & y & -> & Hn & ->)]; [done|].
  cbn [Loader.as_component]. by rewrite Hn.
Qed.

Lemma as_vector_dense embedding vector :
  dense_vector embedding vector -> Loader.as_vector embedding = Ok vector.
Proof.
  intros (components & floats & -> & -> & H).
  cbn [Loader.as_vector]. by rewrite (as_components_stored _ _ H).
Qed.

Lemma as_vector_no_vector embedding :
  no_vector embedding -> Loader.as_vector embedding = Raise ValueError.
Proof. by destruct embedding. Qed.

Lemma as_point_id_raises id_value e :
  Loader.as_point_id id_value = Raise e -> e = ValueError.
Proof. destruct id_value; simpl; congruence. Qed.

(** What the transformer does once the optional fields are read: the
    content is settled, and the required fields decide. *)
Lemma point_of_embedding_required (d md orig : dict) :
  sub_dict d "metadata" = Some md ->
  sub_dict md "original_record" = Some orig ->
  optional_text orig "description" ->
  optional_text orig "text" ->
  optional_text orig "abstract" ->
  absent_or_text d "embedding_text" ->
  Loader.point_of_embedding (VDict d)
  = (let? id_value := subscript (VDict d) "id" in
     let? embedding := subscript (VDict d) "embedding" in
     let? id := Loader.as_point_id id_value in
     let? vector := Loader.as_vector embedding in
     Ok (destination_record d md orig id vector))%result.
Proof.
  intros Hmd Horig Hdesc Htext Habs Het.
  unfold Loader.point_of_embedding.
  rewrite (get_sub_dict _ _ _ Hmd). cbn [rbind].
  rewrite (get_sub_dict _ _ _ Horig). cbn [rbind].
  rewrite (or_else_optional_text _ _ _ Hdesc).
  rewrite (or_else_optional_text _ _ _ Htext).
  rewrite (or_else_optional_text _ _ _ Habs).
  rewrite !get_field.
  assert (Het' : default (VStr "") (dict_lookup d "embedding_text")
                 = VStr (field_text d "embedding_text")).
  { unfold field_text. by destruct Het as [->|[s ->]]. }
  rewrite Het'.
  unfold destination_record.
  rewrite !first_non_empty_cons.
  replace (first_non_empty []) with "" by done.
  destruct (subscript (VDict d) "id") as [id_value|e]; [|
    destruct (decide (field_text orig "description" = ""));
    destruct (decide (field_text orig "text" = ""));
    destruct (decide (field_text orig "abstract" = ""));
    reflexivity].
  destruct (subscript (VDict d) "embedding") as [embedding|e]; [|
    destruct (decide (field_text orig "description" = ""));
    destruct (decide (field_text orig "text" = ""));
    destruct (decide (field_text orig "abstract" = ""));
    reflexivity].
  destruct (Loader.as_point_id id_value) as [id|e];
    destruct (Loader.as_vector embedding) as [vector|e'];
    destruct (decide (field_text orig "description" = ""));
    destruct (decide (field_text orig "text" = ""));
    destruct (decide (field_text orig "abstract" = ""));
    cbn [rbind Loader.slice_prefix]; try reflexivity;
    destruct (decide (field_text d "embedding_text" = "")) as [->|?]; reflexivity.
Qed.

(** C8, amended — the transformer. Take a source record that is an
    object whose [metadata] and [original_record] are objects when present,
    whose [description], [text] and [abstract] are texts or null when
    present and whose [embedding_text] is a text when present. If it
    carries an [id] that is an integer or a string and an [embedding] that
    is a list of numbers, the transformer produces exactly one destination
    record: its vector holds the numbers of the embedding as floats, a
    field that is absent is replaced by null (by the empty text for
    [embedding_text]), and [content] is the first 1000 characters of the
    first non-empty of [description], [text], [abstract] and the embedding
    text. A record without [id] or without [embedding] is rejected with
    [KeyError], and one whose embedding is null, a truth value, a number
    or a text is rejected by the constructor of the point
    ([ValidationError]). *)
Theorem C8_transformer_on_well_formed_records (d md orig : dict) :
  sub_dict d "metadata" = Some md ->
  sub_dict md "original_record" = Some orig ->
  optional_text orig "description" ->
  optional_text orig "text" ->
  optional_text orig "abstract" ->
  absent_or_text d "embedding_text" ->
  (forall id_value embedding id vector,
      dict_lookup d "id" = Some id_value ->
      Loader.as_point_id id_value = Ok id ->
      dict_lookup d "embedding" = Some embedding ->
      dense_vector embedding vector ->
      Loader.point_of_embedding (VDict d)
      = Ok (destination_record d md orig id vector) /\
      Loader.points_of_batch [VDict d]
      = Ok [destination_record d md orig id vector]) /\
  (dict_lookup d "id" = None ->
   Loader.point_of_embedding (VDict d) = Raise (KeyError "id")) /\
  (is_Some (dict_lookup d "id") -> dict_lookup d "embedding" = None ->
   Loader.point_of_embedding (VDict d) = Raise (KeyError "embedding")) /\
  (forall embedding,
      is_Some (dict_lookup d "id") ->
      dict_lookup d "embedding" = Some embedding ->
      no_vector embedding ->
      Loader.point_of_embedding (VDict d) = Raise ValueError).
Proof.
  intros Hmd Horig Hdesc Htext Habs Het.
  rewrite (point_of_embedding_required d md orig Hmd Horig Hdesc Htext Habs Het).
  unfold subscript.
  split; [|split; [|split]].
  - intros id_value embedding id vector Hid Hpid Hemb Hvec.
    assert (Hpoint : Loader.point_of_embedding (VDict d)
                     = Ok (destination_record d md orig id vector)).
    { rewrite (point_of_embedding_required d md orig Hmd Horig Hdesc Htext Habs Het).
      unfold subscript. rewrite Hid, Hemb. cbn [rbind]. rewrite Hpid. cbn [rbind].
      by rewrite (as_vector_dense _ _ Hvec). }
    split.
    + rewrite Hid, Hemb. cbn [rbind]. rewrite Hpid. cbn [rbind].
      by rewrite (as_vector_dense _ _ Hvec).
    + cbn [Loader.points_of_batch]. by rewrite Hpoint.
  - by intros ->.
  - intros [id_value ->] ->. reflexivity.
  - intros embedding [id_value ->] -> Hno. cbn [rbind].
    rewrite (as_vector_no_vector _ Hno).
    destruct (Loader.as_point_id id_value) as [id|e] eqn:Hpid; [done|].
    by rewrite (as_point_id_raises _ _ Hpid).
Qed.

End Transformer.

Lemma C8_transformer_on_well_formed_records_witness :
  exists p,
    Loader.point_of_embedding (VDict Examples.complete_record) = Ok p /\
    pt_vector p = VList [VFloat (S754_zero false)] /\
    Migrate.metadata_field (VDict [("metadata", pt_payload p)]) "content"
    = Ok (VStr "a leak").
Proof.
  destruct (C8_transformer_on_well_formed_records
              Examples.complete_record
              [("category", VStr "breach");
               ("original_record",
                VDict [("description", VStr "");
                       ("text", VStr "a leak");
                       ("title", VStr "Leak")])]
              [("description", VStr ""); ("text", VStr "a leak");
               ("title", VStr "Leak")])
    as [Hok _].
  - reflexivity.
  - reflexivity.
  - right. right. by exists "".
  - right. right. by exists "a leak".
  - by left.
  - right. by exists "text".
  - destruct (Hok (VInt 7) (VList [VFloat (S754_zero false)]) (IdInt 7)
                (VList [VFloat (S754_zero false)])) as [Hp _].
    + reflexivity.
    + reflexivity.
    + reflexivity.
    + exists [VFloat (S754_zero false)], [VFloat (S754_zero false)].
      split; [reflexivity|]. split; [reflexivity|].
      constructor; [|constructor]. left. by exists (S754_zero false).
    + eexists. split; [exact Hp|]. split; reflexivity.
Defined.

(** C9, as stated, fails: with an empty source collection no progress
    line is printed at all, so no percentage, 100 or other, is
    reported. *)
Lemma C9_empty_collection_counterexample :
  let w := Examples.world (honest_collection 2 COSINE []) ∅ in
  let evs := trace (snd (Migrate.migrate_collection Examples.no_text 5
                           "incidents" 100 w)) in
  scroll_pages evs = [] /\
  reported_percent evs = [] /\
  last (reported_percent evs) <> Some 100.
Proof. vm_compute. repeat split; discriminate. Qed.

(** C9, amended — empty collection. When the source collection's
    [total_count] is 0 the run issues no scroll call and goes from the
    schema step straight to verification; no progress line is printed (the
    percentage is computed only after a batch has been transferred). *)
Theorem C9_empty_collection_goes_straight_to_verification
    (isoformat : Z -> string) (fuel : nat) (name : string)
    (batch_size : Z) (w : World) (c : SourceCollection) :
  source_store w !! name = Some c ->
  points_count c = 0 ->
  clock_in_range w ->
  exists v w' evs,
    Migrate.migrate_collection isoformat fuel name batch_size w = (Done v, w') /\
    trace w' = trace w ++ evs /\
    evs = migration_events name (vectors_size c) 0
            (bool_decide (is_Some (target_store w !! name))) []
            (target_count w' name) /\
    filter (fun e => is_scan e = true) evs = [] /\
    reported_percent evs = [].
Proof.
  intros Hsrc Hzero Hclock.
  unfold Migrate.migrate_collection.
  step_print. erewrite bind_done by (by apply source_get_collection_run).
  cbn [info_points_count info_size]. rewrite Hzero.
  step_print. step_print.
  erewrite bind_done by (apply ensure_collection_exists_run).
  erewrite bind_done by (apply utcnow_run).
  rewrite !log_log.
  change (destination_before (log ?a w) name ?s) with (destination_before w name s).
  cbn [target_store log with_target clock ticks].
  erewrite bind_done by (by apply scan_loop_exit).
  step_print.
  set (tc0 := destination_before w name (vectors_size c)).
  erewrite bind_done.
  2:{ apply (target_get_collection_run name tc0). simpl. apply lookup_insert_eq. }
  cbn [info_points_count].
  set (T := Z.of_nat (size (tc_points tc0))).
  assert (Hwarn : forall w0,
    (if bool_decide (T ≠ 0)
     then bind (print MsgWarningMismatch) (fun _ => print (MsgSourceTarget 0 T))
     else ret ()) w0
    = (Done tt, log (if bool_decide (T ≠ 0)
                     then [Printed MsgWarningMismatch; Printed (MsgSourceTarget 0 T)]
                     else []) w0)).
  { intros w0. case_bool_decide.
    - step_print. by rewrite print_run, log_log.
    - unfold ret, log. rewrite app_nil_r. by destruct w0. }
  erewrite bind_done by (apply Hwarn).
  erewrite bind_done by (apply utcnow_run).
  erewrite bind_done by (apply utcnow_run).
  rewrite !log_log.
  match goal with |- context [total_seconds ?a ?b] =>
    destruct (total_seconds_defined a b) as (dur & Hdur & _) end.
  { cbn [clock tick log with_target ticks].
    pose proof (Hclock (ticks w)). pose proof (Hclock (S (S (ticks w)))).
    unfold datetime_max in *. lia. }
  erewrite bind_done by (by apply lift_run).
  eexists _, _, (migration_events name (vectors_size c) 0
                   (bool_decide (is_Some (target_store w !! name))) [] T).
  split; [reflexivity|].
  match goal with |- context [target_count ?w1 name] =>
    assert (HT : target_count w1 name = T)
      by (unfold target_count; cbn [target_store tick log with_target];
          by rewrite lookup_insert_eq) end.
  rewrite HT. unfold migration_events.
  cbn [trace tick log with_target].
  split; [by rewrite <- !app_assoc|]. split; [done|].
  destruct (bool_decide (is_Some (target_store w !! name)));
    destruct (bool_decide (T ≠ 0)); done.
Qed.

Lemma C9_empty_collection_goes_straight_to_verification_witness :
  exists v w' evs,
    Migrate.migrate_collection Examples.no_text 0 "incidents" 100
      (Examples.world (honest_collection 2 COSINE []) ∅) = (Done v, w') /\
    trace w' = [] ++ evs /\
    reported_percent evs = [].
Proof.
  destruct (C9_empty_collection_goes_straight_to_verification Examples.no_text 0
              "incidents" 100 (Examples.world (honest_collection 2 COSINE []) ∅)
              (honest_collection 2 COSINE []))
    as (v & w' & evs & Hrun & Htr & _ & _ & Hpercent).
  - reflexivity.
  - reflexivity.
  - apply seconds_clock_in_range.
  - exists v, w', evs. split; [exact Hrun|]. split; [exact Htr|exact Hpercent].
Defined.

(** C10 — Termination. For a batch size of at least 1 and a total of at
    least 0, the scan loop of the migration and the scan loop of the export
    end within [ceil(total_points / batch_size)] iterations, whatever the
    stores answer: an iteration that does not stop at an empty page
    advances the offset by [min(batch_size, total_points - offset) >= 1]. *)
Theorem C10_scan_loops_terminate (batch_size total_points : Z) :
  1 <= batch_size -> 0 <= total_points ->
  forall (name : string) (start_time : Z) (fuel : nat) (w : World),
    ceil_div total_points batch_size <= Z.of_nat fuel ->
    fst (Migrate.scan_loop fuel name batch_size total_points start_time
           {| Migrate.migrated_count := 0; Migrate.offset := 0 |} w)
    <> OutOfFuel /\
    fst (Exporter.scan_loop fuel name batch_size total_points
           {| Exporter.all_points := []; Exporter.offset := 0 |} w)
    <> OutOfFuel.
Proof.
  intros Hbatch _ name start_time fuel w Hfuel. split.
  - apply migrate_loop_within_fuel; [done|]. simpl. by rewrite Z.sub_0_r.
  - apply export_loop_within_fuel; [done|]. simpl. by rewrite Z.sub_0_r.
Qed.

Lemma C10_scan_loops_terminate_witness :
  fst (Migrate.scan_loop 2 "incidents" 2 3 0
         {| Migrate.migrated_count := 0; Migrate.offset := 0 |}
         (Examples.world Examples.over_reporting Examples.empty_target))
  <> OutOfFuel /\
  fst (Exporter.scan_loop 2 "incidents" 2 3
         {| Exporter.all_points := []; Exporter.offset := 0 |}
         (Examples.world Examples.over_reporting Examples.empty_target))
  <> OutOfFuel.
Proof.
  apply (C10_scan_loops_terminate 2 3); [lia|lia|]. vm_compute. discriminate.
Defined.

(** * Further properties of the code *)

(** ** Setting the clients and the collection up *)




Lemma get_target_qdrant_client_refuses w :
  environ w !! "TARGET_QDRANT_HOST" = None \/
  environ w !! "TARGET_QDRANT_HOST" = Some "" \/
  environ w !! "TARGET_QDRANT_API_KEY" = None \/
  environ w !! "TARGET_QDRANT_API_KEY" = Some "" ->
  Migrate.get_target_qdrant_client w = (Raised ValueError, w).
Proof.
  intros H. unfold Migrate.get_target_qdrant_client, bind, getenv.
  destruct (environ w !! "TARGET_QDRANT_HOST") as [host|] eqn:Hh;
    destruct (environ w !! "TARGET_QDRANT_API_KEY") as [key|] eqn:Hk;
    try reflexivity.
  destruct H as [H|[H|[H|H]]]; try discriminate.
  - injection H as ->. reflexivity.
  - injection H as ->. by rewrite orb_true_r.
Qed.

(** X2 — an environment the clients cannot be set up from. If the text
    of [SOURCE_QDRANT_PORT] is not a number, or [TARGET_QDRANT_HOST] or
    [TARGET_QDRANT_API_KEY] is unset or empty, the migration job exits
    with status 1 without a single request to either store: it prints
    at most the line about the source it would connect to, then the
    [ValueError]. *)
Theorem unusable_environment_exits_1_before_any_request
    (int_of_str : string -> option Z) (isoformat : Z -> string)
    (fuel : nat) (w : World) :
  unusable_environment int_of_str w ->
  exists evs,
    Migrate.script int_of_str isoformat fuel w = (Some 1, log evs w) /\
    forallb (fun e => negb (is_call e)) evs = true /\
    last evs = Some (Printed (MsgError ValueError)).
Proof.
  intros H. unfold unusable_environment in H. unfold Migrate.script, Migrate.main.
  unfold bind at 1. unfold getenv_default at 1.
  unfold try_except.
  unfold bind at 1. unfold Migrate.get_source_qdrant_client.
  unfold bind at 1. unfold getenv_default at 1.
  unfold bind at 1. unfold getenv_default at 1.
  unfold bind at 1. unfold Migrate.int.
  destruct (int_of_str (default "6333" (environ w !! "SOURCE_QDRANT_PORT")))
    as [port|] eqn:Hport.
  - destruct H as [H|H]; [discriminate|].
    cbn [lift ret]. rewrite print_run.
    unfold bind at 1.
    rewrite (get_target_qdrant_client_refuses (log _ w)) by exact H.
    cbn [is_Exception]. unfold bind at 1. rewrite print_run. rewrite log_log.
    unfold sys_exit, raise. eexists. split; [reflexivity|]. by split.
  - cbn [lift raise is_Exception]. unfold bind at 1. rewrite print_run.
    unfold sys_exit, raise. eexists. split; [reflexivity|]. by split.
Qed.

Lemma unusable_environment_exits_1_before_any_request_witness :
  exists evs,
    Migrate.script Examples.port_6333 Examples.no_text 5
      MoreExamples.world_without_key
    = (Some 1, log evs MoreExamples.world_without_key) /\
    forallb (fun e => negb (is_call e)) evs = true /\
    last evs = Some (Printed (MsgError ValueError)).
Proof.
  apply unusable_environment_exits_1_before_any_request.
  right; right; right; left. reflexivity.
Defined.
(** ** What the jobs may raise *)

Lemma result_only_exceptions_ok {A} (a : A) : result_only_exceptions (Ok a).
Proof. intros e H. discriminate. Qed.

Lemma result_only_exceptions_rbind {A B} (r : result A) (k : A -> result B) :
  result_only_exceptions r -> (forall a, result_only_exceptions (k a)) ->
  result_only_exceptions (rbind r k).
Proof.
  intros Hr Hk e H. destruct r as [a|e']; simpl in H.
  - by apply (Hk a).
  - injection H as ->. by apply Hr.
Qed.

Lemma result_only_exceptions_raise {A} e :
  is_Exception e = true -> result_only_exceptions (@Raise A e).
Proof. intros He e' H. by injection H as <-. Qed.

Ltac only_exceptions_cases :=
  repeat first
    [ apply result_only_exceptions_ok
    | apply result_only_exceptions_raise; reflexivity
    | apply result_only_exceptions_rbind; [|intros ?]
    | match goal with
      | |- result_only_exceptions (match ?x with _ => _ end) => destruct x
      | |- result_only_exceptions (if ?x then _ else _) => destruct x
      end ].

Lemma of_int_only_exceptions n : result_only_exceptions (PyFloat.of_int n).
Proof. unfold PyFloat.of_int. only_exceptions_cases. Qed.

Lemma int_truediv_only_exceptions a b :
  result_only_exceptions (PyFloat.int_truediv a b).
Proof. unfold PyFloat.int_truediv. only_exceptions_cases. Qed.

Lemma float_truediv_only_exceptions x y :
  result_only_exceptions (PyFloat.truediv x y).
Proof. unfold PyFloat.truediv. only_exceptions_cases. Qed.

Lemma to_float_only_exceptions a : result_only_exceptions (PyNum.to_float a).
Proof. destruct a; [apply of_int_only_exceptions|apply result_only_exceptions_ok]. Qed.

Lemma truediv_only_exceptions a b : result_only_exceptions (PyNum.truediv a b).
Proof.
  pose proof int_truediv_only_exceptions. pose proof float_truediv_only_exceptions.
  pose proof of_int_only_exceptions.
  destruct a, b; unfold PyNum.truediv, PyNum.to_float;
    repeat first [ apply result_only_exceptions_rbind; [|intros ?]
                 | apply result_only_exceptions_ok | done ].
Qed.

Lemma mul_only_exceptions a b : result_only_exceptions (PyNum.mul a b).
Proof.
  pose proof of_int_only_exceptions.
  destruct a, b; unfold PyNum.mul, PyNum.to_float;
    repeat first [ apply result_only_exceptions_rbind; [|intros ?]
                 | apply result_only_exceptions_ok | done ].
Qed.

Lemma round_only_exceptions a : result_only_exceptions (PyNum.round a).
Proof.
  destruct a as [n|x]; [apply result_only_exceptions_ok|].
  simpl. destruct x; simpl; only_exceptions_cases.
Qed.

Lemma to_int_only_exceptions a : result_only_exceptions (PyNum.to_int a).
Proof.
  destruct a as [n|x]; [apply result_only_exceptions_ok|].
  simpl. destruct x; simpl; only_exceptions_cases.
Qed.

Lemma progress_of_only_exceptions m t :
  result_only_exceptions (Migrate.progress_of m t).
Proof.
  unfold Migrate.progress_of.
  apply result_only_exceptions_rbind; [apply truediv_only_exceptions|intros q].
  apply result_only_exceptions_rbind; [apply mul_only_exceptions|intros p].
  apply result_only_exceptions_rbind; [apply round_only_exceptions|intros r].
  apply result_only_exceptions_ok.
Qed.

Lemma rate_of_only_exceptions m elapsed :
  result_only_exceptions (Migrate.rate_of m elapsed).
Proof.
  unfold Migrate.rate_of. destruct (PyNum.gt0 elapsed);
    [apply truediv_only_exceptions|apply result_only_exceptions_ok].
Qed.

Lemma eta_of_only_exceptions m t rate :
  result_only_exceptions (Migrate.eta_of m t rate).
Proof.
  unfold Migrate.eta_of. destruct (PyNum.gt0 rate);
    [apply truediv_only_exceptions|apply result_only_exceptions_ok].
Qed.

Lemma subscript_only_exceptions v key : result_only_exceptions (subscript v key).
Proof. unfold subscript. only_exceptions_cases. Qed.

Lemma metadata_field_only_exceptions v key :
  result_only_exceptions (Migrate.metadata_field v key).
Proof.
  unfold Migrate.metadata_field.
  apply result_only_exceptions_rbind; intros; apply subscript_only_exceptions.
Qed.

Lemma only_exceptions_ret {A} (a : A) : only_exceptions (ret a).
Proof. intros w e w' H. discriminate. Qed.

Lemma only_exceptions_bind {A B} (c : M A) (k : A -> M B) :
  only_exceptions c -> (forall a, only_exceptions (k a)) ->
  only_exceptions (bind c k).
Proof.
  intros Hc Hk w e w' H. unfold bind in H.
  destruct (c w) as [[a|e'|] w1] eqn:Hcw.
  - by apply (Hk a w1 e w').
  - injection H as <- <-. by apply (Hc w e' w1).
  - discriminate.
Qed.

Lemma only_exceptions_lift {A} (r : result A) :
  result_only_exceptions r -> only_exceptions (lift r).
Proof.
  intros Hr w e w' H. destruct r as [a|e']; simpl in H; [discriminate|].
  injection H as <- <-. by apply Hr.
Qed.

Lemma only_exceptions_record e : only_exceptions (record e).
Proof. intros w e' w' H. discriminate. Qed.

Lemma only_exceptions_utcnow : only_exceptions utcnow.
Proof. intros w e' w' H. discriminate. Qed.

Lemma only_exceptions_try_except {A} (body : M A) handler :
  (forall e, only_exceptions (handler e)) ->
  only_exceptions body -> only_exceptions (try_except body handler).
Proof.
  intros Hh Hb w e w' H. unfold try_except in H.
  destruct (body w) as [[a|e'|] w1] eqn:Hbw; try discriminate.
  pose proof (Hb w e' w1 Hbw) as He. rewrite He in H. by apply (Hh e' w1 e w').
Qed.

Lemma only_exceptions_source_get_collection name :
  only_exceptions (source_get_collection name).
Proof.
  intros w e w' H. unfold source_get_collection, bind, record in H. simpl in H.
  destruct (source_store w !! name); [discriminate|]. by injection H as <- _.
Qed.

Lemma only_exceptions_target_get_collection name :
  only_exceptions (target_get_collection name).
Proof.
  intros w e w' H. unfold target_get_collection, bind, record in H. simpl in H.
  destruct (target_store w !! name); [discriminate|]. by injection H as <- _.
Qed.

Lemma only_exceptions_source_scroll name offset limit :
  only_exceptions (source_scroll name offset limit).
Proof.
  intros w e w' H. unfold source_scroll in H.
  destruct (source_store w !! name); [discriminate|].
  unfold bind, record, raise in H. by injection H as <- _.
Qed.

Lemma only_exceptions_target_upsert name points :
  only_exceptions (target_upsert name points).
Proof.
  intros w e w' H. unfold target_upsert, bind, record in H. simpl in H.
  destruct (target_store w !! name) as [tc|]; [|by injection H as <- _].
  destruct (forallb _ points); [discriminate|]. by injection H as <- _.
Qed.

Lemma only_exceptions_target_recreate_collection name size distance :
  only_exceptions (target_recreate_collection name size distance).
Proof. intros w e w' H. discriminate. Qed.

Ltac only_exceptions_steps :=
  repeat first
    [ apply only_exceptions_ret
    | apply only_exceptions_record
    | apply only_exceptions_utcnow
    | apply only_exceptions_source_get_collection
    | apply only_exceptions_target_get_collection
    | apply only_exceptions_source_scroll
    | apply only_exceptions_target_upsert
    | apply only_exceptions_target_recreate_collection
    | apply only_exceptions_lift
    | apply only_exceptions_try_except; [intros ?|]
    | apply only_exceptions_bind; [|intros ?]
    | apply progress_of_only_exceptions
    | apply rate_of_only_exceptions
    | apply eta_of_only_exceptions
    | apply to_int_only_exceptions
    | apply truediv_only_exceptions
    | apply metadata_field_only_exceptions ].

Lemma only_exceptions_ensure name size :
  only_exceptions (Migrate.ensure_collection_exists name size).
Proof. unfold Migrate.ensure_collection_exists, print. only_exceptions_steps. Qed.

Lemma only_exceptions_scan_loop name batch_size total_points start_time fuel :
  forall st,
    only_exceptions
      (Migrate.scan_loop fuel name batch_size total_points start_time st).
Proof.
  induction fuel as [|fuel IH]; intros st; simpl;
    destruct (bool_decide (Migrate.offset st < total_points));
    try apply only_exceptions_ret.
  - intros w e w' H. discriminate.
  - unfold print.
    apply only_exceptions_bind; [apply only_exceptions_record|intros _].
    apply only_exceptions_bind; [apply only_exceptions_source_scroll|intros page].
    destruct (records page); [apply only_exceptions_ret|].
    unfold total_seconds. only_exceptions_steps. apply IH.
Qed.

Lemma only_exceptions_migrate_collection isoformat fuel name batch_size :
  only_exceptions (Migrate.migrate_collection isoformat fuel name batch_size).
Proof.
  unfold Migrate.migrate_collection, print.
  apply only_exceptions_bind; [apply only_exceptions_record|intros _].
  apply only_exceptions_bind; [apply only_exceptions_source_get_collection|intros info].
  apply only_exceptions_bind; [apply only_exceptions_record|intros _].
  apply only_exceptions_bind; [apply only_exceptions_record|intros _].
  apply only_exceptions_bind; [apply only_exceptions_ensure|intros _].
  apply only_exceptions_bind; [apply only_exceptions_utcnow|intros start].
  apply only_exceptions_bind; [apply only_exceptions_scan_loop|intros st].
  apply only_exceptions_bind; [apply only_exceptions_record|intros _].
  apply only_exceptions_bind; [apply only_exceptions_target_get_collection|intros tinfo].
  apply only_exceptions_bind.
  { destruct (bool_decide _); only_exceptions_steps. }
  intros _. unfold total_seconds. only_exceptions_steps.
Qed.
Lemma only_exceptions_get_source_qdrant_client int_of_str :
  only_exceptions (Migrate.get_source_qdrant_client int_of_str).
Proof.
  unfold Migrate.get_source_qdrant_client, print.
  apply only_exceptions_bind; [intros w e w' H; discriminate|intros host].
  apply only_exceptions_bind; [intros w e w' H; discriminate|intros text].
  apply only_exceptions_bind; [|intros port; apply only_exceptions_record].
  apply only_exceptions_lift. unfold Migrate.int.
  destruct (int_of_str text);
    [apply result_only_exceptions_ok|by apply result_only_exceptions_raise].
Qed.

Lemma only_exceptions_get_target_qdrant_client :
  only_exceptions Migrate.get_target_qdrant_client.
Proof.
  unfold Migrate.get_target_qdrant_client, print.
  apply only_exceptions_bind; [intros w e w' H; discriminate|intros host].
  apply only_exceptions_bind; [intros w e w' H; discriminate|intros key].
  destruct host as [host|], key as [key|];
    try (intros w e w' H; by injection H as <- _).
  destruct (_ || _); [|apply only_exceptions_record].
  intros w e w' H; by injection H as <- _.
Qed.

(** What [main] can end with: it returns 0 right after the last line of
    its summary, or it raises [SystemExit(1)] right after an error
    line. *)
Lemma main_outcome int_of_str isoformat fuel w o w' :
  Migrate.main int_of_str isoformat fuel w = (o, w') ->
  match o with
  | Done code => code = 0 /\ exists w0 v, w' = log [Printed (MsgResultVectorSize v)] w0
  | Raised e =>
      e = SystemExit 1 /\
      exists w0 ev, w' = log [ev] w0 /\ is_error_line ev = true
  | OutOfFuel => True
  end.
Proof.
  unfold Migrate.main. unfold bind at 1. unfold getenv_default at 1.
  set (name := default "sengol_incidents" (environ w !! "COLLECTION_NAME")).
  unfold try_except.
  match goal with |- context [match ?b w with _ => _ end] => set (body := b) end.
  destruct (body w) as [[code|e|] w1] eqn:Hbody.
  - (* the body returned *)
    intros H. injection H as <- <-. subst body.
    repeat (unfold bind at 1 in Hbody;
            match type of Hbody with
            | context [match ?c ?w0 with _ => _ end] =>
                destruct (c w0) as [[?|?|] ?] eqn:?; try discriminate
            end).
    unfold ret in Hbody. injection Hbody as <- <-.
    split; [done|].
    match goal with
    | H : print (MsgResultVectorSize ?v) ?w0 = _ |- _ =>
        rewrite print_run in H; injection H as _ <-; by exists w0, v
    end.
  - (* the body raised *)
    destruct (is_Exception e) eqn:He.
    + (* an exception: the handler prints it and exits *)
      unfold bind at 1. rewrite print_run. unfold sys_exit, raise.
      intros H. injection H as <- <-. split; [done|].
      by exists w1, (Printed (MsgError e)).
    + (* [SystemExit]: it can only come from the check of the source *)
      intros H. injection H as <- <-. subst body.
      repeat
        (unfold bind at 1 in Hbody;
         match type of Hbody with
         | context [match ?c ?w0 with _ => _ end] =>
             let Hc := fresh "Hc" in
             destruct (c w0) as [[?|?|] ?] eqn:Hc;
             [ | injection Hbody as -> ->;
                 try (exfalso;
                      assert (Hoe : only_exceptions c)
                        by first
                             [ apply only_exceptions_get_source_qdrant_client
                             | apply only_exceptions_get_target_qdrant_client
                             | apply only_exceptions_record
                             | apply only_exceptions_migrate_collection
                             | apply only_exceptions_lift,
                                     metadata_field_only_exceptions
                             | intros ? ? ? ?; discriminate ];
                      specialize (Hoe _ _ _ Hc); congruence)
               | discriminate ]
         end).
      * discriminate.
      * match goal with
        | H : (if ?b then _ else _) _ = _ |- _ =>
            destruct b; [|discriminate];
            unfold bind in H; rewrite print_run in H;
            unfold sys_exit, raise in H; injection H as <- <-
        end.
        split; [done|]. eexists _, _. split; reflexivity.
  - intros H. by injection H as <- <-.
Qed.

(** X3 — the exit status of the migration job. Whenever the job ends,
    its status is 0 or 1, whatever the environment and the stores: an
    exception raised anywhere on the way is caught, printed and turned
    into status 1. Status 0 comes right after the last line of the
    summary, status 1 right after an error line. *)
Theorem exit_status_is_0_after_summary_or_1_after_error
    (int_of_str : string -> option Z) (isoformat : Z -> string)
    (fuel : nat) (w w' : World) (status : Z) :
  Migrate.script int_of_str isoformat fuel w = (Some status, w') ->
  (status = 0 /\ is_summary_end <$> last (trace w') = Some true) \/
  (status = 1 /\ is_error_line <$> last (trace w') = Some true).
Proof.
  unfold Migrate.script.
  destruct (Migrate.main int_of_str isoformat fuel w) as [o w1] eqn:Hmain.
  apply main_outcome in Hmain.
  destruct o as [code|e|]; [| |discriminate].
  - destruct Hmain as [-> (w0 & v & ->)]. intros H. injection H as <- <-.
    left. split; [done|]. simpl. by rewrite last_snoc.
  - destruct Hmain as [-> (w0 & ev & -> & Hev)]. intros H. injection H as <- <-.
    right. split; [done|]. simpl. by rewrite last_snoc, <- Hev.
Qed.

Lemma exit_status_is_0_after_summary_or_1_after_error_witness :
  let w' := snd (Migrate.script Examples.port_6333 Examples.no_text 5
                   MoreExamples.world_without_key) in
  (1 = 0 /\ is_summary_end <$> last (trace w') = Some true) \/
  (1 = 1 /\ is_error_line <$> last (trace w') = Some true).
Proof.
  apply (exit_status_is_0_after_summary_or_1_after_error
           Examples.port_6333 Examples.no_text 5 MoreExamples.world_without_key).
  vm_compute. reflexivity.
Defined.
(** ** What a migration leaves in the destination *)

Lemma size_upsert_points_ge ps (m : gmap point_id PointStruct) :
  (size m <= size (upsert_points ps m))%nat.
Proof.
  revert m. induction ps as [|p ps IH]; intros m; [done|].
  change (upsert_points (p :: ps) m) with (upsert_points ps (<[pt_id p := p]> m)).
  etrans; [|apply IH].
  destruct (m !! pt_id p) eqn:Hm.
  - by rewrite map_size_insert_Some.
  - rewrite map_size_insert_None by done. lia.
Qed.

Lemma lookup_upsert_points_is_Some ps (m : gmap point_id PointStruct) i :
  is_Some (m !! i) -> is_Some (upsert_points ps m !! i).
Proof.
  revert m. induction ps as [|p ps IH]; intros m Hi; [done|].
  change (upsert_points (p :: ps) m) with (upsert_points ps (<[pt_id p := p]> m)).
  apply IH. destruct (decide (pt_id p = i)) as [->|Hne].
  - by rewrite lookup_insert_eq.
  - by rewrite lookup_insert_ne.
Qed.

(** ** What the scan loop may do to the destination *)

Lemma keeps_points_refl t : keeps_points t t.
Proof. intros name tc Htc. exists tc. by repeat split. Qed.

Lemma keeps_points_trans a b c :
  keeps_points a b -> keeps_points b c -> keeps_points a c.
Proof.
  intros Hab Hbc name tc Htc.
  destruct (Hab name tc Htc) as (tc1 & Htc1 & Hs1 & Hd1 & Hp1 & Hn1).
  destruct (Hbc name tc1 Htc1) as (tc2 & Htc2 & Hs2 & Hd2 & Hp2 & Hn2).
  exists tc2. split; [done|]. split; [congruence|]. split; [congruence|].
  split; [auto|lia].
Qed.

Lemma writes_into_same name {A} (c : M A) :
  (forall w o w', c w = (o, w') -> target_store w' = target_store w) ->
  writes_into name c.
Proof.
  intros H w o w' Hrun. rewrite (H w o w' Hrun).
  split; [apply keeps_points_refl|done].
Qed.

Lemma writes_into_ret name {A} (a : A) : writes_into name (ret a).
Proof. apply writes_into_same. by intros w o w' [= <- <-]. Qed.

Lemma writes_into_raise name {A} e : writes_into name (@raise A e).
Proof. apply writes_into_same. by intros w o w' [= <- <-]. Qed.

Lemma writes_into_out_of_fuel name {A} : writes_into name (@out_of_fuel A).
Proof. apply writes_into_same. by intros w o w' [= <- <-]. Qed.

Lemma writes_into_lift name {A} (r : result A) : writes_into name (lift r).
Proof. destruct r; [apply writes_into_ret|apply writes_into_raise]. Qed.

Lemma writes_into_record name e : writes_into name (record e).
Proof. apply writes_into_same. by intros w o w' [= <- <-]. Qed.

Lemma writes_into_utcnow name : writes_into name utcnow.
Proof. apply writes_into_same. by intros w o w' [= <- <-]. Qed.

Lemma writes_into_bind name {A B} (c : M A) (k : A -> M B) :
  writes_into name c -> (forall a, writes_into name (k a)) ->
  writes_into name (bind c k).
Proof.
  intros Hc Hk w o w' Hrun. unfold bind in Hrun.
  destruct (c w) as [[a|e|] w1] eqn:Hcw.
  - destruct (Hc w _ _ Hcw) as (H1 & H2 & H3).
    destruct (Hk a w1 _ _ Hrun) as (H4 & H5 & H6).
    split; [by eapply keeps_points_trans|].
    split; [intros other Hne; by rewrite H5, H2|auto].
  - injection Hrun as <- <-. by apply (Hc w _ _ Hcw).
  - injection Hrun as <- <-. by apply (Hc w _ _ Hcw).
Qed.

Lemma writes_into_source_scroll name offset limit :
  writes_into name (source_scroll name offset limit).
Proof.
  apply writes_into_same. intros w o w'. unfold source_scroll.
  destruct (source_store w !! name); by intros [= <- <-].
Qed.

Lemma writes_into_target_upsert name points :
  writes_into name (target_upsert name points).
Proof.
  intros w o w'. unfold target_upsert, bind, record.
  cbn [target_store log].
  destruct (target_store w !! name) as [tc|] eqn:Htc.
  2:{ intros [= <- <-]. cbn [target_store log].
      split; [apply keeps_points_refl|done]. }
  destruct (forallb _ points).
  2:{ intros [= <- <-]. cbn [target_store log].
      split; [apply keeps_points_refl|done]. }
  intros [= <- <-]. cbn [target_store with_target log].
  split; [|split].
  - intros n tc0 Hn. destruct (decide (n = name)) as [->|Hne].
    + rewrite lookup_insert_eq. eexists. split; [reflexivity|].
      assert (tc0 = tc) as -> by congruence. cbn [tc_size tc_distance tc_points].
      split; [done|]. split; [done|].
      split; [apply lookup_upsert_points_is_Some|apply size_upsert_points_ge].
    + rewrite lookup_insert_ne by done. exists tc0. by repeat split.
  - intros other Hne. by rewrite lookup_insert_ne.
  - congruence.
Qed.

Lemma writes_into_scan_loop name batch_size total_points start_time fuel :
  forall st,
    writes_into name
      (Migrate.scan_loop fuel name batch_size total_points start_time st).
Proof.
  induction fuel as [|fuel IH]; intros st; simpl;
    (case_bool_decide; [|apply writes_into_ret]).
  - apply writes_into_out_of_fuel.
  - apply writes_into_bind; [apply writes_into_record|intros _].
    apply writes_into_bind; [apply writes_into_source_scroll|intros response].
    destruct (records response) as [|p ps]; [apply writes_into_ret|].
    repeat first
      [ apply IH
      | apply writes_into_bind;
        [first [ apply writes_into_record | apply writes_into_target_upsert
               | apply writes_into_lift | apply writes_into_utcnow ]
        |intros ?] ].
Qed.

(** X4 — the scan loop never deletes. However the scan loop of the
    migration ends, with its count, with an exception or at any point on
    the way, the destination holds all it held before: every collection
    with its vector parameters, a point under every id that had one, and
    no fewer points. No collection but the one migrated is changed, and
    the loop creates none. *)
Theorem scan_loop_never_deletes
    (fuel : nat) (name : string) (batch_size total_points start_time : Z)
    (st : Migrate.loop_state) (w : World)
    (o : outcome Migrate.loop_state) (w' : World) :
  Migrate.scan_loop fuel name batch_size total_points start_time st w = (o, w') ->
  keeps_points (target_store w) (target_store w') /\
  (forall other, other <> name ->
     target_store w' !! other = target_store w !! other) /\
  (target_store w !! name = None -> target_store w' !! name = None).
Proof. apply writes_into_scan_loop. Qed.

Lemma scan_loop_never_deletes_witness :
  let run :=
    Migrate.scan_loop 5 "incidents" 2 3 0
      {| Migrate.migrated_count := 0; Migrate.offset := 0 |}
      (Examples.world Examples.cursor_source Examples.populated_target) in
  keeps_points Examples.populated_target (target_store (snd run)).
Proof.
  intros run.
  apply (scan_loop_never_deletes 5 "incidents" 2 3 0
           {| Migrate.migrated_count := 0; Migrate.offset := 0 |}
           (Examples.world Examples.cursor_source Examples.populated_target)
           (fst run) (snd run)).
  apply surjective_pairing.
Defined.

Lemma lookup_upsert_points_agreeing ps (m : gmap point_id PointStruct) p :
  p ∈ ps ->
  (forall q, q ∈ ps -> pt_id q = pt_id p -> q = p) ->
  upsert_points ps m !! pt_id p = Some p.
Proof.
  induction ps as [|q ps IH] using rev_ind; intros Hin Hagree.
  { by apply elem_of_nil in Hin. }
  rewrite upsert_points_snoc.
  destruct (decide (pt_id q = pt_id p)) as [Heq|Hne].
  - rewrite (Hagree q); [by rewrite lookup_insert_eq| |done].
    apply elem_of_app. right. apply list_elem_of_here.
  - rewrite lookup_insert_ne by done. apply IH.
    + apply elem_of_app in Hin as [Hin|Hin]; [done|].
      apply list_elem_of_singleton in Hin. by subst.
    + intros q' Hq'. apply Hagree. apply elem_of_app. by left.
Qed.

Lemma dom_upsert_points ps (m : gmap point_id PointStruct) :
  dom (upsert_points ps m) = list_to_set (pt_id <$> ps) ∪ dom m.
Proof.
  revert m. induction ps as [|p ps IH]; intros m.
  - simpl. by rewrite (left_id_L ∅ (∪)).
  - change (upsert_points (p :: ps) m) with (upsert_points ps (<[pt_id p := p]> m)).
    rewrite IH, dom_insert_L, fmap_cons, list_to_set_cons.
    rewrite (assoc_L (∪)). f_equal. apply (comm_L (∪)).
Qed.

Lemma size_upsert_points_distinct ps :
  size (upsert_points ps (∅ : gmap point_id PointStruct))
  = length (remove_dups (pt_id <$> ps)).
Proof.
  rewrite <- size_dom, dom_upsert_points, dom_empty_L, (right_id_L ∅ (∪)).
  rewrite <- (size_list_to_set (C := gset point_id) (remove_dups (pt_id <$> ps)))
    by apply NoDup_remove_dups.
  f_equal. apply set_eq. intros i.
  by rewrite !elem_of_list_to_set, elem_of_remove_dups.
Qed.

(** X5 — what a migration leaves in a fresh destination. A run of
    [migrate_collection] into a destination where the collection is
    missing or empty leaves there the records the scroll calls returned,
    written by id in the order they came, and nothing else: the ids of
    the destination are the ids returned, and a returned record is found
    under its id, with the vector and the payload it came with, unless
    another record returned carries the same id. A record of the source
    that no scroll call returned is not in the destination. *)
Theorem migration_stores_what_the_scan_returned
    (isoformat : Z -> string) (fuel : nat) (name : string)
    (batch_size : Z) (w : World) (c : SourceCollection) :
  source_store w !! name = Some c ->
  respects_contract (vectors_size c) c ->
  tc_size (destination_before w name (vectors_size c)) = vectors_size c ->
  tc_points (destination_before w name (vectors_size c)) = ∅ ->
  1 <= batch_size ->
  points_count c < 2 ^ 63 ->
  clock_in_range w ->
  ceil_div (points_count c) batch_size <= Z.of_nat fuel ->
  exists v w' evs tc',
    Migrate.migrate_collection isoformat fuel name batch_size w = (Done v, w') /\
    trace w' = trace w ++ evs /\
    target_store w' !! name = Some tc' /\
    let returned := fetched (scroll_pages evs) in
    tc_points tc' = upsert_points returned ∅ /\
    (forall i, is_Some (tc_points tc' !! i) <-> i ∈ pt_id <$> returned) /\
    (forall p, p ∈ returned ->
       (forall q, q ∈ returned -> pt_id q = pt_id p -> q = p) ->
       tc_points tc' !! pt_id p = Some p).
Proof.
  intros Hsrc Hc Hsize Hempty Hbatch Htotal Hclock Hfuel.
  destruct (migrate_collection_run isoformat fuel name batch_size w c
              Hsrc Hc Hsize Hbatch Htotal Hclock Hfuel)
    as (loop_events & w' & migrated_at & duration & Hrun & Hext & Htgt & Hpages & _).
  cbv zeta in *. destruct Hext as (_ & _ & _ & Htrace).
  eexists _, w', (migration_events _ _ _ _ loop_events _), _.
  split; [exact Hrun|]. split; [exact Htrace|].
  split; [by rewrite Htgt, lookup_insert_eq|].
  rewrite scroll_pages_loop_only, Hpages, Hempty. cbn [tc_points].
  split; [reflexivity|]. split.
  - intros i. rewrite <- elem_of_dom, dom_upsert_points, dom_empty_L.
    rewrite (right_id_L ∅ (∪)). by rewrite elem_of_list_to_set.
  - intros p Hp Hagree. by apply lookup_upsert_points_agreeing.
Qed.

Lemma migration_stores_what_the_scan_returned_witness :
  exists v w' tc',
    Migrate.migrate_collection Examples.no_text 5 "incidents" 2
      (Examples.world Examples.cursor_source Examples.empty_target)
    = (Done v, w') /\
    target_store w' !! "incidents" = Some tc' /\
    tc_points tc' !! IdInt 2 = Some (Examples.point 2) /\
    tc_points tc' !! IdInt 3 = None.
Proof.
  destruct (migration_stores_what_the_scan_returned Examples.no_text 5
              "incidents" 2
              (Examples.world Examples.cursor_source Examples.empty_target)
              Examples.cursor_source)
    as (v & w' & evs & tc' & Hrun & Htrace & Htc' & _ & Hids & Hin).
  - reflexivity.
  - apply cursor_collection_respects_contract, three_points_well_formed.
  - reflexivity.
  - reflexivity.
  - lia.
  - reflexivity.
  - apply seconds_clock_in_range.
  - vm_compute. discriminate.
  - assert (Hreturned : fetched (scroll_pages evs)
                        = [Examples.point 1; Examples.point 2; Examples.point 2]).
    { change (trace w' = evs) in Htrace. subst evs.
      replace w' with (snd (Migrate.migrate_collection Examples.no_text 5
                              "incidents" 2
                              (Examples.world Examples.cursor_source
                                 Examples.empty_target)))
        by (by rewrite Hrun).
      vm_compute. reflexivity. }
    cbv zeta in Hids, Hin. rewrite Hreturned in Hids, Hin.
    exists v, w', tc'. split; [exact Hrun|]. split; [exact Htc'|]. split.
    + apply (Hin (Examples.point 2)).
      * apply list_elem_of_further, list_elem_of_here.
      * intros q Hq Hid.
        apply elem_of_cons in Hq as [->|Hq]; [discriminate Hid|].
        apply elem_of_cons in Hq as [->|Hq]; [reflexivity|].
        apply elem_of_cons in Hq as [->|Hq]; [reflexivity|].
        by apply elem_of_nil in Hq.
    + apply eq_None_not_Some. rewrite Hids.
      apply (bool_decide_unpack _). vm_compute. reflexivity.
Defined.

(** X6 — replaying a migration. A run of [migrate_collection] into a
    destination where the collection is missing or empty, and then a
    second run into the destination as the first one left it, over a
    source that answers the second run as it answered the first: the
    second run completes, is returned the same pages, and leaves the
    destination as it found it. The writes are upserts keyed by id, so a
    record written again takes the place of itself. The two runs report
    the same number of points. *)
Theorem replay_leaves_the_destination_as_the_first_run_left_it
    (isoformat : Z -> string) (fuel : nat) (name : string)
    (batch_size : Z) (w : World) (c : SourceCollection) :
  source_store w !! name = Some c ->
  respects_contract (vectors_size c) c ->
  tc_size (destination_before w name (vectors_size c)) = vectors_size c ->
  tc_points (destination_before w name (vectors_size c)) = ∅ ->
  1 <= batch_size ->
  points_count c < 2 ^ 63 ->
  clock_in_range w ->
  ceil_div (points_count c) batch_size <= Z.of_nat fuel ->
  exists v1 w1 evs1 v2 w2 evs2,
    Migrate.migrate_collection isoformat fuel name batch_size w = (Done v1, w1) /\
    trace w1 = trace w ++ evs1 /\
    Migrate.migrate_collection isoformat fuel name batch_size w1 = (Done v2, w2) /\
    trace w2 = trace w1 ++ evs2 /\
    scroll_pages evs2 = scroll_pages evs1 /\
    target_store w2 = target_store w1 /\
    target_count w2 name = target_count w1 name /\
    Migrate.metadata_field v2 "target_points"
    = Migrate.metadata_field v1 "target_points".
Proof.
  intros Hsrc Hc Hsize _ Hbatch Htotal Hclock Hfuel.
  destruct (migrate_collection_run isoformat fuel name batch_size w c
              Hsrc Hc Hsize Hbatch Htotal Hclock Hfuel)
    as (ev1 & w1 & at1 & dur1 & Hrun1 & (He1 & Hs1 & Hc1 & Htr1) & Htgt1 & Hpages1 & _).
  cbv zeta in Hrun1, Htr1, Htgt1, Hpages1.
  set (tc0 := destination_before w name (vectors_size c)) in *.
  set (pages := planned_pages true fuel c batch_size (points_count c) 0) in *.
  assert (Hdest : destination_before w1 name (vectors_size c)
                  = {| tc_size := tc_size tc0; tc_distance := tc_distance tc0;
                       tc_points := upsert_points (fetched pages) (tc_points tc0) |}).
  { unfold destination_before at 1. by rewrite Htgt1, lookup_insert_eq. }
  destruct (migrate_collection_run isoformat fuel name batch_size w1 c)
    as (ev2 & w2 & at2 & dur2 & Hrun2 & (_ & _ & _ & Htr2) & Htgt2 & Hpages2 & _);
    try done.
  { by rewrite Hs1. }
  { by rewrite Hdest. }
  { by apply (clock_in_range_eq w). }
  cbv zeta in Hrun2, Htr2, Htgt2, Hpages2. fold pages in Hrun2, Htr2, Htgt2, Hpages2.
  rewrite Hdest in Hrun2, Htr2, Htgt2. cbn [tc_points tc_size tc_distance] in *.
  rewrite upsert_points_idemp in Hrun2, Htr2, Htgt2.
  eexists _, w1, _, _, w2, _.
  split; [exact Hrun1|]. split; [exact Htr1|].
  split; [exact Hrun2|]. split; [exact Htr2|].
  split; [by rewrite !scroll_pages_loop_only, Hpages1, Hpages2|].
  assert (Hsame : target_store w2 = target_store w1).
  { rewrite Htgt2, Htgt1. by rewrite insert_insert_eq. }
  split; [exact Hsame|]. split; [|reflexivity].
  unfold target_count. by rewrite Hsame.
Qed.

Lemma replay_leaves_the_destination_as_the_first_run_left_it_witness :
  exists v1 w1 v2 w2,
    Migrate.migrate_collection Examples.no_text 5 "incidents" 2
      (Examples.world Examples.cursor_source ∅)
    = (Done v1, w1) /\
    Migrate.migrate_collection Examples.no_text 5 "incidents" 2 w1
    = (Done v2, w2) /\
    target_store w2 = target_store w1.
Proof.
  destruct (replay_leaves_the_destination_as_the_first_run_left_it
              Examples.no_text 5 "incidents" 2
              (Examples.world Examples.cursor_source ∅) Examples.cursor_source)
    as (v1 & w1 & evs1 & v2 & w2 & evs2 & Hrun1 & _ & Hrun2 & _ & _ & Hsame & _).
  - reflexivity.
  - apply cursor_collection_respects_contract, three_points_well_formed.
  - reflexivity.
  - reflexivity.
  - lia.
  - reflexivity.
  - apply seconds_clock_in_range.
  - vm_compute. discriminate.
  - exists v1, w1, v2, w2. split; [exact Hrun1|]. split; [exact Hrun2|exact Hsame].
Defined.

(** ** The shape of a migration's trace *)

Lemma loop_events_no_line evs m :
  forallb is_loop_event evs = true ->
  is_loop_event (Printed m) = false ->
  Printed m ∉ evs.
Proof.
  intros H Hm Hin. rewrite forallb_forall in H.
  assert (is_loop_event (Printed m) = true); [|congruence].
  apply H. by apply list_elem_of_In.
Qed.

Ltac absent_from_list H :=
  repeat (apply elem_of_cons in H as [H|H]; [discriminate H|]);
  by apply elem_of_nil in H.

(** The warning is among the events of a run exactly when the counts
    differ. *)
Lemma mismatch_warning_in_events name size total existed loop_events T :
  forallb is_loop_event loop_events = true ->
  (Printed MsgWarningMismatch
   ∈ migration_events name size total existed loop_events T <-> T <> total) /\
  (Printed (MsgSourceTarget total T)
   ∈ migration_events name size total existed loop_events T <-> T <> total).
Proof.
  intros Hloop.
  pose proof (loop_events_no_line _ MsgWarningMismatch Hloop eq_refl) as Hw.
  pose proof (loop_events_no_line _ (MsgSourceTarget total T) Hloop eq_refl) as Hs.
  unfold migration_events.
  split.
  - rewrite !elem_of_app. split.
    + intros [H|[H|[H|[H|H]]]]; try done.
      * exfalso. absent_from_list H.
      * exfalso. destruct existed; absent_from_list H.
      * exfalso. absent_from_list H.
      * destruct (bool_decide (_ ≠ _)) eqn:Hd; [|by apply elem_of_nil in H].
        by apply bool_decide_eq_true in Hd.
    + intros Hne. do 4 right. rewrite bool_decide_eq_true_2 by done.
      apply list_elem_of_here.
  - rewrite !elem_of_app. split.
    + intros [H|[H|[H|[H|H]]]]; try done.
      * exfalso. absent_from_list H.
      * exfalso. destruct existed; absent_from_list H.
      * exfalso. absent_from_list H.
      * destruct (bool_decide (_ ≠ _)) eqn:Hd; [|by apply elem_of_nil in H].
        by apply bool_decide_eq_true in Hd.
    + intros Hne. do 4 right. rewrite bool_decide_eq_true_2 by done.
      apply list_elem_of_further, list_elem_of_here.
Qed.

(** X7 — the warning of the verification step. A run of
    [migrate_collection] prints the count-mismatch warning if and only if
    the number of points the destination holds at the end differs from the
    count the source reported; the number it reports as [target_points]
    is the one the destination holds. *)
Theorem mismatch_warning_iff_counts_differ
    (isoformat : Z -> string) (fuel : nat) (name : string)
    (batch_size : Z) (w : World) (c : SourceCollection) :
  source_store w !! name = Some c ->
  respects_contract (vectors_size c) c ->
  tc_size (destination_before w name (vectors_size c)) = vectors_size c ->
  1 <= batch_size ->
  points_count c < 2 ^ 63 ->
  clock_in_range w ->
  ceil_div (points_count c) batch_size <= Z.of_nat fuel ->
  exists v w' evs,
    Migrate.migrate_collection isoformat fuel name batch_size w = (Done v, w') /\
    trace w' = trace w ++ evs /\
    Migrate.metadata_field v "target_points" = Ok (VInt (target_count w' name)) /\
    (Printed MsgWarningMismatch ∈ evs <-> target_count w' name <> points_count c) /\
    (Printed (MsgSourceTarget (points_count c) (target_count w' name)) ∈ evs
     <-> target_count w' name <> points_count c).
Proof.
  intros Hsrc Hc Hsize Hbatch Htotal Hclock Hfuel.
  destruct (migrate_collection_run isoformat fuel name batch_size w c
              Hsrc Hc Hsize Hbatch Htotal Hclock Hfuel)
    as (loop_events & w' & migrated_at & duration & Hrun & Hext & Htgt & _ & _ & Hloop).
  cbv zeta in *. destruct Hext as (_ & _ & _ & Htrace).
  eexists _, w', (migration_events _ _ _ _ loop_events _).
  split; [exact Hrun|]. split; [exact Htrace|].
  rewrite (target_count_insert _ _ _ _ Htgt). cbn [tc_points].
  split; [reflexivity|].
  by apply mismatch_warning_in_events.
Qed.

Lemma mismatch_warning_iff_counts_differ_witness :
  exists v w' evs,
    Migrate.migrate_collection Examples.no_text 5 "incidents" 2
      (Examples.world (honest_collection 2 COSINE Examples.three_points)
         Examples.populated_target)
    = (Done v, w') /\
    trace w' = [] ++ evs /\
    (Printed MsgWarningMismatch ∈ evs <-> target_count w' "incidents" <> 3).
Proof.
  destruct (mismatch_warning_iff_counts_differ
              Examples.no_text 5 "incidents" 2
              (Examples.world (honest_collection 2 COSINE Examples.three_points)
                 Examples.populated_target)
              (honest_collection 2 COSINE Examples.three_points))
    as (v & w' & evs & Hrun & Htrace & _ & Hiff & _).
  - reflexivity.
  - apply list_collection_respects_contract, three_points_well_formed.
  - reflexivity.
  - lia.
  - reflexivity.
  - apply seconds_clock_in_range.
  - vm_compute. discriminate.
  - exists v, w', evs. split; [exact Hrun|]. split; [exact Htrace|]. exact Hiff.
Defined.
(** ** The two ends of the percentage *)

Lemma new_location_exact n : new_location n 0 = loc_Exact.
Proof. unfold new_location. by destruct (Z.even n). Qed.

(** The quotient of an int by itself is the float 1. *)
Lemma int_truediv_diag n :
  0 < n -> PyFloat.int_truediv n n = Ok (S754_finite false 4503599627370496 (-52)).
Proof.
  intros Hn. unfold PyFloat.int_truediv.
  rewrite !decide_False by lia.
  destruct n as [|p|p]; try lia.
  cbn [PyFloat.raw_of_int]. unfold PyFloat.fdiv, SFdiv, SFdiv_core_binary.
  cbv zeta. rewrite !Z.add_0_r, !Z.sub_diag.
  change (fexp PyFloat.prec PyFloat.emax 0) with (-53).
  change (Z.min (-53) 0) with (-53).
  change (0 - -53) with 53.
  cbv iota beta.
  rewrite Z.shiftl_mul_pow2 by lia.
  pose proof (Z.div_mul (2 ^ 53) (Z.pos p) ltac:(lia)) as Hq.
  pose proof (Z.mod_mul (2 ^ 53) (Z.pos p) ltac:(lia)) as Hr.
  rewrite (Z.mul_comm (2 ^ 53)) in Hq, Hr.
  unfold Z.div, Z.modulo in Hq, Hr.
  destruct (Z.div_eucl (Z.pos p * 2 ^ 53) (Z.pos p)) as [q r].
  subst q r. rewrite new_location_exact.
  vm_compute. reflexivity.
Qed.

Lemma progress_of_diag n : 0 < n -> Migrate.progress_of n n = Ok 100.
Proof.
  intros Hn. unfold Migrate.progress_of, PyNum.truediv.
  rewrite int_truediv_diag by done. vm_compute. reflexivity.
Qed.

(** X8 — the two ends of the percentage. With nothing migrated the
    progress computation gives 0, and with every record migrated it gives
    100, for every positive total, however large: the quotient of an int
    by itself is exactly the float 1. *)
Theorem progress_is_0_at_the_start_and_100_at_the_end (total_points : Z) :
  0 < total_points ->
  Migrate.progress_of 0 total_points = Ok 0 /\
  Migrate.progress_of total_points total_points = Ok 100.
Proof.
  intros Ht. split.
  - unfold Migrate.progress_of, PyNum.truediv, PyFloat.int_truediv.
    rewrite decide_False by lia. rewrite decide_True by done.
    by destruct (total_points <? 0).
  - by apply progress_of_diag.
Qed.

Lemma progress_is_0_at_the_start_and_100_at_the_end_witness :
  Migrate.progress_of 0 (10 ^ 400) = Ok 0 /\
  Migrate.progress_of (10 ^ 400) (10 ^ 400) = Ok 100.
Proof.
  apply progress_is_0_at_the_start_and_100_at_the_end. reflexivity.
Defined.
(** ** The progress lines of the migration loop *)

Lemma progress_lines_app a b :
  progress_lines (a ++ b) = progress_lines a ++ progress_lines b.
Proof. unfold progress_lines. by rewrite omap_app. Qed.

Section ProgressLines.
Variable name : string.
Variable c : SourceCollection.
Variable size : Z.
Variable batch_size total_points start_time : Z.
Hypothesis Hc : respects_contract size c.
Hypothesis Hbatch : 1 <= batch_size.
Hypothesis Htotal : total_points < 2 ^ 63.
Hypothesis Hstart : 0 <= start_time <= datetime_max.

Let limit_at (offset : Z) : Z := Z.min batch_size (total_points - offset).

(** One iteration that uploads a page, with the percentage it prints. *)
Lemma scan_loop_step_percent fuel st w tc p ps :
  source_store w !! name = Some c ->
  target_store w !! name = Some tc -> tc_size tc = size ->
  clock_in_range w ->
  0 <= Migrate.migrated_count st <= Migrate.offset st ->
  Migrate.offset st < total_points ->
  records (scroll c (Migrate.offset st) (limit_at (Migrate.offset st))) = p :: ps ->
  exists progress rate eta,
    let m := Migrate.migrated_count st + Z.of_nat (length (p :: ps)) in
    Migrate.progress_of m total_points = Ok progress /\
    Migrate.scan_loop (S fuel) name batch_size total_points start_time st w
    = Migrate.scan_loop fuel name batch_size total_points start_time
        {| Migrate.migrated_count := m;
           Migrate.offset := Migrate.offset st + limit_at (Migrate.offset st) |}
        (log [Printed (MsgProgress progress m total_points rate eta)]
           (tick
              (with_target
                 (<[name := {| tc_size := tc_size tc; tc_distance := tc_distance tc;
                               tc_points := upsert_points (p :: ps) (tc_points tc) |}]>
                    (target_store w))
                 (log [Printed (MsgFetching (Migrate.offset st)
                                (Migrate.offset st + limit_at (Migrate.offset st)));
                       Called (SrcScroll name (Migrate.offset st)
                               (limit_at (Migrate.offset st))
                               (Some (scroll c (Migrate.offset st)
                                        (limit_at (Migrate.offset st)))));
                       Printed (MsgUploading (Z.of_nat (length (p :: ps))));
                       Called (TgtUpsert name (p :: ps))] w)))).
Proof.
  intros Hsrc Htgt Hsize Hclock Hmig Hlt Hrec.
  destruct (Hc (Migrate.offset st) (limit_at (Migrate.offset st))) as [Hlen Hdim].
  rewrite Hrec in Hlen, Hdim.
  set (m := Migrate.migrated_count st + Z.of_nat (length (p :: ps))).
  assert (Hm : 1 <= m < 2 ^ 63).
  { subst m. simpl length in *. unfold limit_at in Hlen. lia. }
  destruct (progress_line_defined m total_points
              (clock w (ticks w)) start_time Hm ltac:(lia))
    as (pr & el & rate & es & eta & Hpr & Hel & Hrate & Hes & Heta).
  { pose proof (Hclock (ticks w)). unfold datetime_max in *. lia. }
  exists pr, rate, eta. cbv zeta. fold m. split; [exact Hpr|].
  simpl Migrate.scan_loop. rewrite bool_decide_eq_true_2 by done.
  step_print. erewrite bind_done by (by apply source_scroll_run).
  fold (limit_at (Migrate.offset st)). rewrite Hrec.
  step_print. rewrite map_point_id.
  erewrite bind_done.
  2:{ apply (target_upsert_run name tc); [done|]. by rewrite Hsize. }
  fold m.
  erewrite bind_done by (by apply lift_run).
  erewrite bind_done by (apply utcnow_run).
  erewrite bind_done by (by apply lift_run).
  erewrite bind_done by (by apply lift_run).
  erewrite bind_done by (by apply lift_run).
  erewrite bind_done by (by apply lift_run).
  step_print.
  by rewrite !log_log.
Qed.

Lemma scan_loop_lines fuel : forall st w tc,
  source_store w !! name = Some c ->
  target_store w !! name = Some tc -> tc_size tc = size ->
  clock_in_range w ->
  0 <= Migrate.migrated_count st <= Migrate.offset st ->
  ceil_div (total_points - Migrate.offset st) batch_size <= Z.of_nat fuel ->
  exists evs st' w',
    Migrate.scan_loop fuel name batch_size total_points start_time st w = (Done st', w') /\
    trace w' = trace w ++ evs /\
    Forall2 (shows total_points) (progress_lines evs)
      (running_counts (Migrate.migrated_count st)
         (planned_pages true fuel c batch_size total_points (Migrate.offset st))).
Proof.
  induction fuel as [|fuel IH]; intros st w tc Hsrc Htgt Hsize Hclock Hmig Hfuel.
  - assert (~ Migrate.offset st < total_points).
    { intros ?. pose proof (ceil_div_pos (total_points - Migrate.offset st) batch_size). lia. }
    exists [], st, w. simpl. rewrite bool_decide_eq_false_2 by done.
    split; [done|]. split; [by rewrite app_nil_r|constructor].
  - destruct (decide (Migrate.offset st < total_points)) as [Hlt|Hge].
    2:{ exists [], st, w. rewrite scan_loop_exit by done.
        simpl planned_pages. rewrite bool_decide_eq_false_2 by done.
        split; [done|]. split; [by rewrite app_nil_r|constructor]. }
    simpl planned_pages. rewrite bool_decide_eq_true_2 by done.
    fold (limit_at (Migrate.offset st)).
    destruct (records (scroll c (Migrate.offset st) (limit_at (Migrate.offset st))))
      as [|p ps] eqn:Hrec.
    + eexists _, st, _.
      rewrite (scan_loop_empty name c batch_size total_points start_time fuel st w
                 Hsrc Hlt Hrec).
      split; [reflexivity|]. split; [reflexivity|].
      cbn [running_counts]. rewrite Hrec. constructor.
    + destruct (Hc (Migrate.offset st) (limit_at (Migrate.offset st))) as [Hlen _].
      rewrite Hrec in Hlen. unfold limit_at in Hlen.
      destruct (scan_loop_step_percent fuel st w tc p ps Hsrc Htgt Hsize Hclock Hmig Hlt
                  Hrec) as (pr & rate & eta & Hpr & Hstep).
      cbv zeta in Hpr, Hstep.
      rewrite Hstep. clear Hstep.
      match goal with |- context [Migrate.scan_loop fuel _ _ _ _ ?s ?w0] =>
        set (st1 := s); set (w1 := w0) end.
      set (tc1 := {| tc_size := tc_size tc; tc_distance := tc_distance tc;
                     tc_points := upsert_points (p :: ps) (tc_points tc) |}).
      destruct (IH st1 w1 tc1) as (evs & st' & w' & Hrun & Htrace & Hlines).
      * done.
      * subst w1. simpl. by rewrite lookup_insert_eq.
      * done.
      * done.
      * subst st1. simpl Migrate.migrated_count. simpl Migrate.offset.
        unfold limit_at. simpl length in *. lia.
      * subst st1. simpl Migrate.offset. unfold limit_at.
        replace (total_points - (Migrate.offset st + Z.min batch_size (total_points - Migrate.offset st)))
          with ((total_points - Migrate.offset st) - Z.min batch_size (total_points - Migrate.offset st)) by lia.
        rewrite ceil_div_step by lia. lia.
      * exists ([Printed (MsgFetching (Migrate.offset st)
                          (Migrate.offset st + limit_at (Migrate.offset st)));
                 Called (SrcScroll name (Migrate.offset st)
                         (limit_at (Migrate.offset st))
                         (Some (scroll c (Migrate.offset st)
                                  (limit_at (Migrate.offset st)))));
                 Printed (MsgUploading (Z.of_nat (length (p :: ps))));
                 Called (TgtUpsert name (p :: ps));
                 Printed (MsgProgress pr
                            (Migrate.migrated_count st + Z.of_nat (length (p :: ps)))
                            total_points rate eta)] ++ evs), st', w'.
        split; [exact Hrun|]. split.
        -- rewrite Htrace. subst w1. cbn [trace log tick with_target].
           rewrite <- !app_assoc. reflexivity.
        -- rewrite progress_lines_app. cbn [running_counts]. rewrite Hrec.
           change (progress_lines _ ++ ?l)
             with ((pr, Migrate.migrated_count st + Z.of_nat (length (p :: ps)),
                    total_points) :: l).
           constructor; [done|]. exact Hlines.
Qed.

End ProgressLines.
Lemma progress_lines_loop_only name size total existed loop_events target_points :
  progress_lines (migration_events name size total existed loop_events target_points)
  = progress_lines loop_events.
Proof.
  unfold migration_events. rewrite !progress_lines_app.
  destruct existed, (bool_decide (target_points ≠ total)); simpl;
    by rewrite ?app_nil_r.
Qed.

(** The running counts go up, and end at the number of records
    received. *)
Lemma running_counts_above start pages :
  Forall (fun n => start < n) (running_counts start pages).
Proof.
  revert start. induction pages as [|page pages IH]; intros start; [constructor|].
  cbn [running_counts]. destruct (records page) as [|p ps]; [apply IH|].
  constructor; [cbn [length]; lia|].
  eapply Forall_impl; [apply IH|]. intros n Hn. cbn [length] in *. lia.
Qed.

Lemma running_counts_increasing start pages : forall i j a b,
  (i < j)%nat ->
  running_counts start pages !! i = Some a ->
  running_counts start pages !! j = Some b ->
  a < b.
Proof.
  revert start. induction pages as [|page pages IH]; intros start i j a b Hij Ha Hb;
    [done|].
  cbn [running_counts] in Ha, Hb.
  destruct (records page) as [|p ps]; [by eapply IH|].
  cbn zeta in Ha, Hb.
  destruct j as [|j]; [lia|]. rewrite lookup_cons_Some in Hb.
  destruct Hb as [[? _]|[_ Hb]]; [lia|]. simpl in Hb. rewrite Nat.sub_0_r in Hb.
  destruct i as [|i].
  - injection Ha as <-.
    pose proof (running_counts_above (start + Z.of_nat (length (p :: ps))) pages) as Hall.
    rewrite Forall_lookup in Hall. by apply (Hall j).
  - simpl in Ha. eapply (IH _ i j); [lia|done..].
Qed.


Section Bounded.
Variable c : SourceCollection.
Variable size : Z.
Variable batch_size total_points : Z.
Hypothesis Hc : respects_contract size c.
Hypothesis Hbatch : 1 <= batch_size.

Lemma running_counts_bounded fuel : forall start offset,
  start <= offset ->
  Forall (fun n => n <= total_points)
    (running_counts start
       (planned_pages true fuel c batch_size total_points offset)).
Proof.
  induction fuel as [|fuel IH]; intros start offset Hle; simpl planned_pages;
    case_bool_decide as Hlt; try constructor.
  set (limit := Z.min batch_size (total_points - offset)).
  destruct (Hc offset limit) as [Hlen _].
  cbn [running_counts]. cbn [records].
  destruct (records (scroll c offset limit)) as [|p ps] eqn:Hrec.
  - cbn [running_counts]. constructor.
  - constructor; [subst limit; cbn [length] in *; lia|].
    apply IH. subst limit. cbn [length] in *. lia.
Qed.

End Bounded.

Section RunLines.
Variable isoformat : Z -> string.

(** A run of [migrate_collection], with its pages and its progress
    lines. *)
Lemma migrate_collection_lines fuel name batch_size w c :
  source_store w !! name = Some c ->
  respects_contract (vectors_size c) c ->
  tc_size (destination_before w name (vectors_size c)) = vectors_size c ->
  1 <= batch_size -> points_count c < 2 ^ 63 -> clock_in_range w ->
  ceil_div (points_count c) batch_size <= Z.of_nat fuel ->
  exists v w' evs,
    let pages := planned_pages true fuel c batch_size (points_count c) 0 in
    Migrate.migrate_collection isoformat fuel name batch_size w = (Done v, w') /\
    trace w' = trace w ++ evs /\
    scroll_pages evs = pages /\
    Forall2 (shows (points_count c)) (progress_lines evs) (running_counts 0 pages).
Proof.
  intros Hsrc Hc Hsize Hbatch Htotal Hclock Hfuel.
  unfold Migrate.migrate_collection.
  step_print. erewrite bind_done by (by apply source_get_collection_run).
  cbn [info_points_count info_size].
  step_print. step_print.
  erewrite bind_done by (apply ensure_collection_exists_run).
  erewrite bind_done by (apply utcnow_run).
  rewrite !log_log.
  change (destination_before (log ?a w) name ?s) with (destination_before w name s).
  cbn [target_store log with_target clock ticks].
  match goal with |- context [bind (Migrate.scan_loop _ _ _ _ ?s _) _ ?w0] =>
    set (start := s); set (w2 := w0) end.
  set (tc0 := destination_before w name (vectors_size c)) in *.
  assert (Hstart : 0 <= start <= datetime_max) by apply Hclock.
  destruct (scan_loop_run name c (vectors_size c) batch_size (points_count c) start
              Hc Hbatch Htotal Hstart fuel
              {| Migrate.migrated_count := 0; Migrate.offset := 0 |} w2 tc0)
    as (evs & st' & w3 & Hrun & (He3 & Hs3 & Hc3 & Ht3) & _ & Htgt3 & Hpages & _);
    try done.
  { subst w2. simpl. by rewrite lookup_insert_eq. }
  { simpl. by rewrite Z.sub_0_r. }
  destruct (scan_loop_lines name c (vectors_size c) batch_size (points_count c) start
              Hc Hbatch Htotal Hstart fuel
              {| Migrate.migrated_count := 0; Migrate.offset := 0 |} w2 tc0)
    as (evs' & st'' & w3' & Hrun' & Ht3' & Hlines); try done.
  { subst w2. simpl. by rewrite lookup_insert_eq. }
  { simpl. by rewrite Z.sub_0_r. }
  rewrite Hrun in Hrun'. injection Hrun' as <- <-.
  rewrite Ht3 in Ht3'. apply app_inv_head in Ht3'. subst evs'.
  cbv zeta in Hrun, Htgt3, Hpages. simpl Migrate.offset in *.
  simpl Migrate.migrated_count in *.
  set (pages := planned_pages true fuel c batch_size (points_count c) 0) in *.
  set (points' := upsert_points (fetched pages) (tc_points tc0)) in *.
  erewrite bind_done by exact Hrun.
  step_print.
  erewrite bind_done.
  2:{ apply target_get_collection_run. simpl. rewrite Htgt3. apply lookup_insert_eq. }
  cbn [info_points_count tc_points].
  set (T := Z.of_nat (size points')).
  assert (Hwarn : forall w0,
    (if bool_decide (T ≠ points_count c)
     then bind (print MsgWarningMismatch)
            (fun _ => print (MsgSourceTarget (points_count c) T))
     else ret ()) w0
    = (Done tt, log (if bool_decide (T ≠ points_count c)
                     then [Printed MsgWarningMismatch;
                           Printed (MsgSourceTarget (points_count c) T)]
                     else []) w0)).
  { intros w0. case_bool_decide.
    - step_print. by rewrite print_run, log_log.
    - unfold ret, log. rewrite app_nil_r. by destruct w0. }
  erewrite bind_done by (apply Hwarn).
  erewrite bind_done by (apply utcnow_run).
  erewrite bind_done by (apply utcnow_run).
  rewrite !log_log.
  match goal with |- context [total_seconds ?a ?b] =>
    destruct (total_seconds_defined a b) as (dur & Hdur & _) end.
  { subst start. cbn [clock tick log with_target]. rewrite Hc3. subst w2.
    cbn [clock tick log with_target ticks].
    pose proof (Hclock (ticks w)). pose proof (Hclock (S (ticks w3))).
    unfold datetime_max in *. lia. }
  erewrite bind_done by (by apply lift_run).
  eexists _, _,
    (migration_events name (vectors_size c) (points_count c)
       (bool_decide (is_Some (target_store w !! name))) evs T).
  split; [reflexivity|].
  split; [|split].
  - unfold migration_events. cbn [trace tick log with_target].
    rewrite Ht3. subst w2. cbn [trace tick log with_target].
    rewrite <- !app_assoc. reflexivity.
  - by rewrite scroll_pages_loop_only.
  - by rewrite progress_lines_loop_only.
Qed.

End RunLines.
(** X9 — the progress lines. A run of [migrate_collection] prints one
    progress line per batch it uploads. The line shows the number of
    records uploaded so far, the running total of the sizes of the pages
    received, out of the count the source reported, with the percentage
    the progress computation gives for the two. From one line to the next
    that number goes up, and it never exceeds the count reported. *)
Theorem progress_lines_show_the_running_total
    (isoformat : Z -> string) (fuel : nat) (name : string)
    (batch_size : Z) (w : World) (c : SourceCollection) :
  source_store w !! name = Some c ->
  respects_contract (vectors_size c) c ->
  tc_size (destination_before w name (vectors_size c)) = vectors_size c ->
  1 <= batch_size ->
  points_count c < 2 ^ 63 ->
  clock_in_range w ->
  ceil_div (points_count c) batch_size <= Z.of_nat fuel ->
  exists v w' evs,
    Migrate.migrate_collection isoformat fuel name batch_size w = (Done v, w') /\
    trace w' = trace w ++ evs /\
    let counts := running_counts 0 (scroll_pages evs) in
    Forall2 (shows (points_count c)) (progress_lines evs) counts /\
    (forall i j a b, (i < j)%nat ->
       counts !! i = Some a -> counts !! j = Some b -> a < b) /\
    Forall (fun n => 0 < n <= points_count c) counts.
Proof.
  intros Hsrc Hc Hsize Hbatch Htotal Hclock Hfuel.
  destruct (migrate_collection_lines isoformat fuel name batch_size w c
              Hsrc Hc Hsize Hbatch Htotal Hclock Hfuel)
    as (v & w' & evs & Hrun & Htrace & Hpages & Hlines).
  cbv zeta in *.
  exists v, w', evs. split; [exact Hrun|]. split; [exact Htrace|].
  rewrite Hpages. split; [exact Hlines|].
  split; [apply running_counts_increasing|].
  apply Forall_and. split; [apply running_counts_above|].
  by eapply running_counts_bounded.
Qed.

Lemma progress_lines_show_the_running_total_witness :
  exists v w' evs,
    Migrate.migrate_collection Examples.no_text 5 "incidents" 2
      (Examples.world (honest_collection 2 COSINE Examples.three_points)
         Examples.empty_target)
    = (Done v, w') /\
    trace w' = [] ++ evs /\
    Forall2 (shows 3) (progress_lines evs) (running_counts 0 (scroll_pages evs)).
Proof.
  destruct (progress_lines_show_the_running_total
              Examples.no_text 5 "incidents" 2
              (Examples.world (honest_collection 2 COSINE Examples.three_points)
                 Examples.empty_target)
              (honest_collection 2 COSINE Examples.three_points))
    as (v & w' & evs & Hrun & Htrace & Hlines & _).
  - reflexivity.
  - apply list_collection_respects_contract, three_points_well_formed.
  - reflexivity.
  - lia.
  - reflexivity.
  - apply seconds_clock_in_range.
  - vm_compute. discriminate.
  - exists v, w', evs. split; [exact Hrun|]. split; [exact Htrace|]. exact Hlines.
Defined.


(** ** The export *)

Section ExportRun.
Variable isoformat : Z -> string.

(** The export of a collection that reports a point or more: refused at
    the first scroll call. *)
Lemma export_collection_refused fuel name batch_size w c :
  source_store w !! name = Some c ->
  0 < points_count c ->
  fuel <> O ->
  Exporter.export_collection isoformat fuel name batch_size w
  = (Raised AssertionError,
     log [Printed (MsgExportGettingInfo name);
          Called (SrcGetCollection name);
          Printed (MsgExportHas name (points_count c));
          Printed (MsgExportFetching 0 (Z.min batch_size (points_count c)))] w).
Proof.
  intros Hsrc Hpos Hfuel. destruct fuel as [|fuel]; [done|].
  unfold Exporter.export_collection.
  step_print. erewrite bind_done by (by apply source_get_collection_run).
  cbn [info_points_count].
  step_print.
  erewrite bind_raised by (by apply export_loop_refused).
  cbn [Exporter.offset]. by rewrite !log_log, Z.sub_0_r, Z.add_0_l.
Qed.

(** The export of a collection that reports no point. *)
Lemma export_collection_empty fuel name batch_size w c :
  source_store w !! name = Some c ->
  points_count c <= 0 ->
  Exporter.export_collection isoformat fuel name batch_size w
  = (Done (export_data name (isoformat (clock w (ticks w)) +:+ "Z") []),
     tick (log [Printed (MsgExportGettingInfo name);
                Called (SrcGetCollection name);
                Printed (MsgExportHas name (points_count c))] w)).
Proof.
  intros Hsrc Hzero.
  unfold Exporter.export_collection.
  step_print. erewrite bind_done by (by apply source_get_collection_run).
  cbn [info_points_count].
  step_print.
  erewrite bind_done by (apply export_loop_exit; simpl; lia).
  erewrite bind_done by (apply utcnow_run).
  by rewrite !log_log.
Qed.

End ExportRun.

(** X11 — the export of a collection that holds points. The scroll call
    of [export_collection] carries the keyword [with_vector], which the
    method does not take (the migration passes [with_vectors]). So when
    the collection reports at least one point, [export_collection] raises
    [AssertionError] at its first scroll call, whatever the batch size:
    it has asked the store for the collection's count and printed the
    three lines up to the one announcing the first page, it has asked for
    no page, read no clock and returns nothing. *)
Theorem export_of_a_collection_with_points_is_refused
    (isoformat : Z -> string) (fuel : nat) (name : string)
    (batch_size : Z) (w : World) (c : SourceCollection) :
  source_store w !! name = Some c ->
  0 < points_count c ->
  fuel <> O ->
  Exporter.export_collection isoformat fuel name batch_size w
  = (Raised AssertionError,
     log [Printed (MsgExportGettingInfo name);
          Called (SrcGetCollection name);
          Printed (MsgExportHas name (points_count c));
          Printed (MsgExportFetching 0 (Z.min batch_size (points_count c)))] w).
Proof. apply export_collection_refused. Qed.

Lemma export_of_a_collection_with_points_is_refused_witness :
  exists w',
    Exporter.export_collection Examples.no_text 5 "incidents" 2
      (Examples.world Examples.cursor_source Examples.populated_target)
    = (Raised AssertionError, w') /\
    filter (fun e => is_scan e = true) (trace w') = [] /\
    ticks w' = 0%nat.
Proof.
  eexists. split.
  - apply (export_of_a_collection_with_points_is_refused Examples.no_text 5
             "incidents" 2
             (Examples.world Examples.cursor_source Examples.populated_target)
             Examples.cursor_source).
    + reflexivity.
    + vm_compute. reflexivity.
    + discriminate.
  - split; reflexivity.
Defined.

(** X12 — the export of a collection that holds no point. When the
    collection reports no point, [export_collection] asks for no page and
    returns an export of no points: the name of the collection, the time
    of the export, a [total_points] of 0 and an empty list. The
    destination store is not touched. *)
Theorem export_of_a_collection_without_points_is_empty
    (isoformat : Z -> string) (fuel : nat) (name : string)
    (batch_size : Z) (w : World) (c : SourceCollection) :
  source_store w !! name = Some c ->
  points_count c <= 0 ->
  exists w',
    Exporter.export_collection isoformat fuel name batch_size w
    = (Done (VDict
               [("metadata",
                 VDict [("collection", VStr name);
                        ("exported_at",
                         VStr (isoformat (clock w (ticks w)) +:+ "Z"));
                        ("total_points", VInt 0)]);
                ("points", VList [])]), w') /\
    trace w' = trace w ++ [Printed (MsgExportGettingInfo name);
                           Called (SrcGetCollection name);
                           Printed (MsgExportHas name (points_count c))] /\
    target_store w' = target_store w.
Proof.
  intros Hsrc Hzero. eexists. split.
  - by apply export_collection_empty.
  - split; [|reflexivity]. cbn [trace tick log]. reflexivity.
Qed.

Lemma export_of_a_collection_without_points_is_empty_witness :
  exists v w',
    Exporter.export_collection Examples.no_text 0 "incidents" 2
      (Examples.world (cursor_collection 2 COSINE []) Examples.populated_target)
    = (Done v, w') /\
    subscript v "points" = Ok (VList []) /\
    target_store w' = Examples.populated_target.
Proof.
  destruct (export_of_a_collection_without_points_is_empty Examples.no_text 0
              "incidents" 2
              (Examples.world (cursor_collection 2 COSINE [])
                 Examples.populated_target)
              (cursor_collection 2 COSINE []))
    as (w' & Hrun & _ & Htgt).
  - reflexivity.
  - simpl. lia.
  - eexists _, w'. split; [exact Hrun|]. split; [reflexivity|exact Htgt].
Defined.

(** ** The transformer of the loader *)

Lemma string_take_length n s : (String.length (Loader.string_take n s) <= n)%nat.
Proof.
  revert s. induction n as [|n IH]; intros [|a s]; simpl; try lia.
  specialize (IH s). lia.
Qed.

Lemma slice_prefix_length v n v' :
  Loader.slice_prefix v n = Ok v' ->
  exists k, value_length v' = Some k /\ (k <= n)%nat.
Proof.
  destruct v; try discriminate; intros H; injection H as <-; eexists;
    (split; [reflexivity|]).
  - apply string_take_length.
  - rewrite length_take. lia.
Qed.

Ltac ok_inversion H :=
  repeat match type of H with
         | rbind ?r _ = Ok _ =>
             let E := fresh "E" in
             destruct r eqn:E; cbn [rbind] in H; [|discriminate H]
         end.

Lemma as_components_stored_as components floats :
  Loader.as_components components = Ok floats ->
  Forall2 TransformerSpec.stored_as components floats.
Proof.
  revert floats. induction components as [|v vs IH]; intros floats H.
  - injection H as <-. constructor.
  - cbn [Loader.as_components] in H.
    destruct (Loader.as_component v) as [x|e] eqn:Hv; [|discriminate H].
    destruct (Loader.as_components vs) as [xs|e] eqn:Hvs; [|discriminate H].
    cbn [rbind] in H. injection H as <-.
    constructor; [|by apply IH].
    destruct v; try discriminate Hv; cbn [Loader.as_component] in Hv.
    + right. destruct (PyFloat.of_int n) as [y|e] eqn:Hn; [|discriminate Hv].
      injection Hv as <-. by exists n, y.
    + left. injection Hv as <-. by eexists.
Qed.

Lemma as_vector_stored_as embedding vector :
  Loader.as_vector embedding = Ok vector ->
  TransformerSpec.dense_vector embedding vector.
Proof.
  destruct embedding as [| | | | |l|]; try discriminate.
  cbn [Loader.as_vector]. intros H.
  destruct (Loader.as_components l) as [xs|e] eqn:Hl; [|discriminate H].
  injection H as <-. exists l, xs. split; [done|]. split; [done|].
  by apply as_components_stored_as.
Qed.

(** X13 — the vector and the size limit of the transformer. When the
    [embedding] of a record is a list of numbers, a point the transformer
    produces for the record carries these numbers as its vector, as
    floats: a float as it is, an integer as the float nearest to it.
    Whatever the record, the payload of a point produced has a [content]
    that is a text or a list of at most 1000 items. *)
Theorem transformer_stores_floats_and_limits_content_to_1000
    (emb : value) (p : PointStruct) :
  Loader.point_of_embedding emb = Ok p ->
  (forall components,
      subscript emb "embedding" = Ok (VList components) ->
      Forall (fun v => (exists x, v = VFloat x) \/ (exists n, v = VInt n))
        components ->
      TransformerSpec.dense_vector (VList components) (pt_vector p)) /\
  exists content k,
    subscript (pt_payload p) "content" = Ok content /\
    value_length content = Some k /\ (k <= 1000)%nat.
Proof.
  intros H. unfold Loader.point_of_embedding in H.
  ok_inversion H. injection H as <-. cbn [pt_vector pt_payload].
  split.
  - intros components [= ->] _. by apply as_vector_stored_as.
  - match goal with E : Loader.slice_prefix _ _ = Ok ?c |- _ =>
      destruct (slice_prefix_length _ _ _ E) as (k & Hk & Hle); exists c, k
    end.
    by repeat split.
Qed.

Lemma transformer_stores_floats_and_limits_content_to_1000_witness :
  exists p,
    Loader.point_of_embedding Examples.record_with_integer_embedding = Ok p /\
    TransformerSpec.dense_vector
      (VList [VInt 9007199254740993; VFloat (S754_zero false)]) (pt_vector p) /\
    pt_vector p
    = VList [VFloat (S754_finite false 4503599627370496 1);
             VFloat (S754_zero false)].
Proof.
  destruct (transformer_stores_floats_and_limits_content_to_1000
              Examples.record_with_integer_embedding _ eq_refl)
    as (Hdense & _).
  eexists. split; [reflexivity|]. split; [|reflexivity].
  apply Hdense; [reflexivity|].
  constructor; [right; by eexists|].
  constructor; [left; by eexists|constructor].
Defined.

(** A batch that can be transformed, and what a batch that cannot
    raises. *)
Lemma points_of_batch_Ok batch ps :
  Loader.points_of_batch batch = Ok ps <->
  Forall2 (fun emb p => Loader.point_of_embedding emb = Ok p) batch ps.
Proof.
  revert ps. induction batch as [|emb batch IH]; intros ps.
  - simpl. split.
    + intros H. injection H as <-. constructor.
    + intros H. by inversion H.
  - cbn [Loader.points_of_batch]. split.
    + intros H. ok_inversion H. injection H as <-.
      constructor; [done|]. by apply IH.
    + intros H. inversion H as [|? p ? ps' Hp Hps]; subst.
      rewrite Hp. cbn [rbind]. apply IH in Hps. by rewrite Hps.
Qed.

Lemma points_of_batch_Raise batch e :
  Loader.points_of_batch batch = Raise e <->
  exists good bad rest,
    batch = good ++ bad :: rest /\
    Forall (fun emb => exists p, Loader.point_of_embedding emb = Ok p) good /\
    Loader.point_of_embedding bad = Raise e.
Proof.
  revert e. induction batch as [|emb batch IH]; intros e.
  - simpl. split; [discriminate|].
    intros (good & bad & rest & H & _). by destruct good.
  - cbn [Loader.points_of_batch]. split.
    + intros H. destruct (Loader.point_of_embedding emb) as [p|e'] eqn:Hp;
        cbn [rbind] in H.
      * destruct (Loader.points_of_batch batch) as [ps|e'] eqn:Hps;
          cbn [rbind] in H; [discriminate|]. injection H as ->.
        destruct (proj1 (IH e) eq_refl) as (good & bad & rest & -> & Hgood & Hbad).
        exists (emb :: good), bad, rest. split; [done|].
        split; [|done]. constructor; [by exists p|done].
      * injection H as ->. exists [], emb, batch. by repeat split.
    + intros (good & bad & rest & Heq & Hgood & Hbad).
      destruct good as [|g good]; simplify_eq/=.
      * by rewrite Hbad.
      * apply Forall_cons in Hgood as [[p Hp] Hgood]. rewrite Hp. cbn [rbind].
        assert (Hrest : Loader.points_of_batch (good ++ bad :: rest) = Raise e).
        { apply IH. by exists good, bad, rest. }
        by rewrite Hrest.
Qed.

(** X14 — a batch is transformed whole or not at all. The inner loop of
    the loader yields one point per record, in the order of the batch,
    when every record can be transformed; otherwise it raises what the
    first record that cannot be transformed raises, and yields
    nothing. *)
Theorem batch_is_transformed_whole_or_fails_at_first_bad_record
    (batch : list value) :
  (forall ps,
      Loader.points_of_batch batch = Ok ps <->
      Forall2 (fun emb p => Loader.point_of_embedding emb = Ok p) batch ps) /\
  (forall e,
      Loader.points_of_batch batch = Raise e <->
      exists good bad rest,
        batch = good ++ bad :: rest /\
        Forall (fun emb => exists p, Loader.point_of_embedding emb = Ok p) good /\
        Loader.point_of_embedding bad = Raise e).
Proof.
  split; [intros ps; apply points_of_batch_Ok|intros e; apply points_of_batch_Raise].
Qed.
(** ** The load *)

Lemma job_bind_done {S A B} (c : Job.T S A) (k : A -> Job.T S B) s a s1 :
  c s = (Done a, s1) -> Job.bind c k s = k a s1.
Proof. unfold Job.bind. by intros ->. Qed.

Lemma job_bind_raised {S A B} (c : Job.T S A) (k : A -> Job.T S B) s e s1 :
  c s = (Raised e, s1) -> Job.bind c k s = (Raised e, s1).
Proof. unfold Job.bind. by intros ->. Qed.

Lemma job_lift_run {S A} (r : result A) a (s : S) :
  r = Ok a -> Job.lift r s = (Done a, s).
Proof. by intros ->. Qed.

Lemma noted_noted a b s : noted b (noted a s) = noted (a ++ b) s.
Proof. unfold noted; simpl. by rewrite <- app_assoc. Qed.

Lemma noted_nil s : noted [] s = s.
Proof. destruct s. unfold noted; simpl. by rewrite app_nil_r. Qed.

Lemma loader_print_run l s :
  LoaderJob.print l s = (Done tt, noted [LoaderJob.Said l] s).
Proof. done. Qed.

Lemma loader_upsert_run tc points s :
  LoaderJob.qdrant s !! LoaderJob.COLLECTION_NAME = Some tc ->
  Forall (fun p => vector_dim p = Some (tc_size tc)) points ->
  LoaderJob.upsert LoaderJob.COLLECTION_NAME points s
  = (Done tt,
     stored (<[LoaderJob.COLLECTION_NAME :=
                 {| tc_size := tc_size tc; tc_distance := tc_distance tc;
                    tc_points := upsert_points points (tc_points tc) |}]>
               (LoaderJob.qdrant s))
       (noted [LoaderJob.Asked (LoaderJob.Upsert LoaderJob.COLLECTION_NAME points)] s)).
Proof.
  intros Htc Hdim. unfold LoaderJob.upsert, Job.bind, LoaderJob.note.
  cbn [LoaderJob.qdrant]. rewrite Htc.
  assert (forallb (fun p => bool_decide (vector_dim p = Some (tc_size tc))) points
          = true) as ->; [|done].
  induction Hdim as [|p ps Hp _ IH]; [done|]. simpl.
  by rewrite IH, bool_decide_eq_true_2.
Qed.

Lemma loader_ensure_run s :
  LoaderJob.ensure_collection_exists s
  = (Done tt,
     stored (<[LoaderJob.COLLECTION_NAME := loader_collection_before s]>
               (LoaderJob.qdrant s))
       (noted (ensure_happenings
                 (bool_decide (is_Some (LoaderJob.qdrant s
                                        !! LoaderJob.COLLECTION_NAME)))) s)).
Proof.
  unfold LoaderJob.ensure_collection_exists, Job.try_except,
    loader_collection_before, ensure_happenings.
  unfold LoaderJob.get_collections.
  unfold Job.bind at 1. unfold Job.bind at 1. cbn [LoaderJob.note LoaderJob.qdrant].
  destruct (LoaderJob.qdrant s !! LoaderJob.COLLECTION_NAME) as [tc|] eqn:Htc.
  - rewrite bool_decide_eq_false_2.
    2:{ rewrite not_in_names. by rewrite Htc. }
    rewrite loader_print_run. cbn [noted LoaderJob.journal LoaderJob.qdrant LoaderJob.environ].
    rewrite bool_decide_eq_true_2 by eauto.
    rewrite insert_id by done. unfold stored, noted. simpl.
    by rewrite <- app_assoc.
  - rewrite bool_decide_eq_true_2 by (by rewrite not_in_names).
    rewrite bool_decide_eq_false_2 by (by intros [? ?]).
    unfold Job.bind, LoaderJob.print, LoaderJob.create_collection, Job.bind,
      LoaderJob.note, LoaderJob.set_qdrant.
    cbn [LoaderJob.journal LoaderJob.qdrant LoaderJob.environ]. rewrite Htc.
    unfold stored, noted. simpl. by rewrite <- !app_assoc.
Qed.

Lemma take_drop_take {A} (l : list A) i n N :
  (i + n <= N)%nat -> take n (drop i (take N l)) = take n (drop i l).
Proof.
  intros H. rewrite !take_drop_commute, take_take. do 2 f_equal. lia.
Qed.

(** The batches of the loop, from the [a]-th on, when the records up to
    the end of the last one can be transformed. *)
Lemma upsert_batches_run embeddings points : forall m a tc s total_upserted,
  Forall2 (fun emb p => Loader.point_of_embedding emb = Ok p)
    (take ((a + m) * LoaderJob.BATCH_SIZE) embeddings) points ->
  LoaderJob.qdrant s !! LoaderJob.COLLECTION_NAME = Some tc ->
  Forall (fun p => vector_dim p = Some (tc_size tc)) points ->
  let batches := (Z.of_nat (length embeddings) - 1) / Z.of_nat LoaderJob.BATCH_SIZE + 1 in
  let written := take (m * LoaderJob.BATCH_SIZE)
                   (drop (a * LoaderJob.BATCH_SIZE) points) in
  LoaderJob.upsert_batches
    ((fun k => k * LoaderJob.BATCH_SIZE)%nat <$> seq a m) embeddings total_upserted s
  = (Done (total_upserted + Z.of_nat (length written)),
     stored (<[LoaderJob.COLLECTION_NAME :=
                 {| tc_size := tc_size tc; tc_distance := tc_distance tc;
                    tc_points := upsert_points written (tc_points tc) |}]>
               (LoaderJob.qdrant s))
       (noted (concat (batch_happenings points batches <$> seq a m)) s)).
Proof.
  induction m as [|m IH]; intros a tc s total Hall Htc Hdim batches written.
  - subst written. simpl. rewrite noted_nil, Z.add_0_r.
    rewrite target_collection_eta, insert_id by done. by destruct s.
  - cbn [seq fmap list_fmap LoaderJob.upsert_batches].
    erewrite job_bind_done by (apply loader_print_run).
    erewrite job_bind_done.
    2:{ apply job_lift_run. apply points_of_batch_Ok.
        rewrite <- (take_drop_take embeddings _ _ ((a + S m) * LoaderJob.BATCH_SIZE))
          by lia.
        apply Forall2_take, Forall2_drop, Hall. }
    erewrite job_bind_done.
    2:{ apply (loader_upsert_run tc); [done|]. by apply Forall_take, Forall_drop. }
    set (chunk := take LoaderJob.BATCH_SIZE (drop (a * LoaderJob.BATCH_SIZE) points)).
    set (tc1 := {| tc_size := tc_size tc; tc_distance := tc_distance tc;
                   tc_points := upsert_points chunk (tc_points tc) |}).
    rewrite (IH (S a) tc1);
      [|by replace (S a + m)%nat with (a + S m)%nat by lia
        |by apply lookup_insert_eq|done].
    cbv zeta.
    assert (Hwritten :
      written = chunk ++ take (m * LoaderJob.BATCH_SIZE)
                           (drop (S a * LoaderJob.BATCH_SIZE) points)).
    { subst written chunk.
      replace (S a * LoaderJob.BATCH_SIZE)%nat
        with (a * LoaderJob.BATCH_SIZE + LoaderJob.BATCH_SIZE)%nat by lia.
      rewrite <- drop_drop, take_take_drop. reflexivity. }
    rewrite Hwritten, length_app, upsert_points_app.
    f_equal; [f_equal; lia|].
    unfold stored, noted. cbn [LoaderJob.environ LoaderJob.qdrant LoaderJob.journal].
    rewrite insert_insert_eq. f_equal.
    rewrite <- !app_assoc. f_equal.
    cbn [concat fmap list_fmap]. unfold batch_happenings at 2.
    rewrite Nat2Z.inj_mul, Z.div_mul by done. reflexivity.
Qed.
Lemma batch_count_covers n :
  (n <= batch_count n * LoaderJob.BATCH_SIZE)%nat.
Proof.
  unfold batch_count, LoaderJob.BATCH_SIZE.
  pose proof (Nat.div_mod_eq (n + 100 - 1) 100).
  pose proof (Nat.mod_upper_bound (n + 100 - 1) 100). lia.
Qed.

Lemma batch_count_ceil n :
  Z.of_nat (batch_count n) = ceil_div (Z.of_nat n) (Z.of_nat LoaderJob.BATCH_SIZE).
Proof.
  unfold batch_count, ceil_div, LoaderJob.BATCH_SIZE.
  rewrite Nat2Z.inj_div. f_equal. lia.
Qed.

Lemma attribute_text_or_absent task key :
  text_or_absent task key ->
  LoaderJob.attribute (default (VStr "") (dict_lookup task key))
  = Ok (attribute_text task key).
Proof.
  unfold attribute_text. by intros [->|[s ->]].
Qed.

(** A load that completes. *)
Lemma load_to_qdrant_run task embeddings points s :
  embeddings <> [] ->
  Forall2 (fun emb p => Loader.point_of_embedding emb = Ok p) embeddings points ->
  Forall (fun p => vector_dim p = Some (tc_size (loader_collection_before s)))
    points ->
  text_or_absent task "sourceId" ->
  text_or_absent task "category" ->
  let before := loader_collection_before s in
  LoaderJob.load_to_qdrant task embeddings s
  = (Done tt,
     stored (<[LoaderJob.COLLECTION_NAME :=
                 {| tc_size := tc_size before; tc_distance := tc_distance before;
                    tc_points := upsert_points points (tc_points before) |}]>
               (LoaderJob.qdrant s))
       (noted (load_happenings s task embeddings points) s)).
Proof.
  intros Hne Hall Hdim Hsource Hcategory before.
  unfold LoaderJob.load_to_qdrant, Job.try_except.
  erewrite job_bind_done by (apply loader_print_run).
  rewrite bool_decide_eq_false_2 by (by destruct embeddings).
  erewrite job_bind_done by (apply loader_ensure_run).
  unfold LoaderJob.range.
  fold (batch_count (length embeddings)).
  pose proof (batch_count_covers (length embeddings)) as Hcover.
  pose proof (Forall2_length _ _ _ Hall) as Hlen.
  erewrite job_bind_done.
  2:{ apply (upsert_batches_run embeddings points _ 0 before).
      - rewrite take_ge by (simpl; lia). exact Hall.
      - apply lookup_insert_eq.
      - exact Hdim. }
  cbv zeta. rewrite drop_0, take_ge by lia.
  erewrite job_bind_done by (apply loader_print_run).
  unfold LoaderJob.environ_get. erewrite job_bind_done by reflexivity.
  erewrite job_bind_done by reflexivity.
  erewrite job_bind_done by reflexivity.
  erewrite job_bind_done by reflexivity.
  erewrite job_bind_done by reflexivity.
  erewrite job_bind_done by reflexivity.
  unfold LoaderJob.publish.
  erewrite job_bind_done.
  2:{ erewrite job_bind_done by (by apply job_lift_run, attribute_text_or_absent).
      erewrite job_bind_done by (by apply job_lift_run, attribute_text_or_absent).
      reflexivity. }
  rewrite loader_print_run.
  rewrite Z.add_0_l, <- Hlen.
  unfold stored, noted, load_happenings, completion_message.
  cbn [LoaderJob.environ LoaderJob.qdrant LoaderJob.journal].
  rewrite insert_insert_eq. rewrite <- !app_assoc. reflexivity.
Qed.
Lemma upserted_batches_app a b :
  upserted_batches (a ++ b) = upserted_batches a ++ upserted_batches b.
Proof. unfold upserted_batches. by rewrite omap_app. Qed.

Lemma published_app a b : published (a ++ b) = published a ++ published b.
Proof. unfold published. by rewrite omap_app. Qed.

Lemma requests_app a b : requests (a ++ b) = requests a ++ requests b.
Proof. unfold requests. by rewrite omap_app. Qed.

Lemma upserted_batches_of_batches points batches m : forall a,
  upserted_batches (concat (batch_happenings points batches <$> seq a m))
  = (fun k => take LoaderJob.BATCH_SIZE (drop (k * LoaderJob.BATCH_SIZE) points))
    <$> seq a m.
Proof.
  induction m as [|m IH]; intros a; [done|].
  cbn [seq fmap list_fmap concat]. rewrite upserted_batches_app, IH. reflexivity.
Qed.

Lemma published_of_batches points batches m : forall a,
  published (concat (batch_happenings points batches <$> seq a m)) = [].
Proof.
  induction m as [|m IH]; intros a; [done|].
  cbn [seq fmap list_fmap concat]. rewrite published_app, IH. reflexivity.
Qed.

Lemma concat_slices {A} (l : list A) m : forall a,
  concat ((fun k => take LoaderJob.BATCH_SIZE (drop (k * LoaderJob.BATCH_SIZE) l))
          <$> seq a m)
  = take (m * LoaderJob.BATCH_SIZE) (drop (a * LoaderJob.BATCH_SIZE) l).
Proof.
  induction m as [|m IH]; intros a; [done|].
  cbn [seq fmap list_fmap concat]. rewrite IH.
  replace (S a * LoaderJob.BATCH_SIZE)%nat
    with (a * LoaderJob.BATCH_SIZE + LoaderJob.BATCH_SIZE)%nat by lia.
  rewrite <- drop_drop, take_take_drop. reflexivity.
Qed.

(** X15 — the batches of a load. When every record of a non-empty file
    can be transformed, the load sends the points to the store in
    [ceil(n / 100)] upsert requests: each carries between 1 and 100
    points, and the requests put end to end are the transformed records in
    the order of the file. Afterwards the collection holds what it held
    overwritten with these points. *)
Theorem load_upserts_consecutive_batches_of_at_most_100
    (task : dict) (embeddings : list value) (points : list PointStruct)
    (s : LoaderJob.Cloud) :
  embeddings <> [] ->
  Forall2 (fun emb p => Loader.point_of_embedding emb = Ok p) embeddings points ->
  Forall (fun p => vector_dim p = Some (tc_size (loader_collection_before s)))
    points ->
  text_or_absent task "sourceId" ->
  text_or_absent task "category" ->
  exists s' hs,
    LoaderJob.load_to_qdrant task embeddings s = (Done tt, s') /\
    LoaderJob.journal s' = LoaderJob.journal s ++ hs /\
    concat (upserted_batches hs) = points /\
    Forall (fun batch => (1 <= length batch <= 100)%nat) (upserted_batches hs) /\
    Z.of_nat (length (upserted_batches hs))
    = ceil_div (Z.of_nat (length embeddings)) 100 /\
    tc_points <$> (LoaderJob.qdrant s' !! LoaderJob.COLLECTION_NAME)
    = Some (upsert_points points (tc_points (loader_collection_before s))).
Proof.
  intros Hne Hall Hdim Hsource Hcategory.
  eexists _, _. split; [by apply load_to_qdrant_run|].
  split; [reflexivity|].
  pose proof (Forall2_length _ _ _ Hall) as Hlen.
  pose proof (batch_count_covers (length embeddings)) as Hcover.
  assert (Hbatches :
    upserted_batches (load_happenings s task embeddings points)
    = (fun k => take LoaderJob.BATCH_SIZE (drop (k * LoaderJob.BATCH_SIZE) points))
      <$> seq 0 (batch_count (length embeddings))).
  { unfold load_happenings, completion_message.
    rewrite !upserted_batches_app, upserted_batches_of_batches.
    unfold ensure_happenings. by destruct (bool_decide _); rewrite app_nil_r. }
  rewrite Hbatches. repeat split.
  - rewrite concat_slices, drop_0. apply take_ge. lia.
  - apply Forall_fmap, Forall_forall. intros k Hk. apply elem_of_seq in Hk.
    unfold compose. rewrite length_take, length_drop.
    unfold batch_count, LoaderJob.BATCH_SIZE in *.
    assert (k * 100 < length points)%nat; [|lia].
    pose proof (Nat.div_mod_eq (length embeddings + 100 - 1) 100).
    pose proof (Nat.mod_upper_bound (length embeddings + 100 - 1) 100). lia.
  - rewrite length_fmap, length_seq. apply batch_count_ceil.
  - cbn [stored LoaderJob.qdrant]. by rewrite lookup_insert_eq.
Qed.

Lemma load_upserts_consecutive_batches_of_at_most_100_witness :
  exists s' hs,
    LoaderJob.load_to_qdrant LoaderExamples.task
      [VDict Examples.complete_record] LoaderExamples.state
    = (Done tt, s') /\
    LoaderJob.journal s' = [] ++ hs /\
    concat (upserted_batches hs) = [LoaderExamples.loaded_point].
Proof.
  destruct (load_upserts_consecutive_batches_of_at_most_100
              LoaderExamples.task [VDict Examples.complete_record]
              [LoaderExamples.loaded_point] LoaderExamples.state)
    as (s' & hs & Hrun & Hj & Hconcat & _).
  - discriminate.
  - constructor; [reflexivity|constructor].
  - constructor; [vm_compute; reflexivity|constructor].
  - right. eexists. reflexivity.
  - right. eexists. reflexivity.
  - exists s', hs. split; [exact Hrun|]. split; [exact Hj|exact Hconcat].
Defined.

(** X16 — the completion message. A load that completes publishes
    exactly one message, after its last request to the store: to the topic
    [sengol-qdrant-updated] of the project [GCP_PROJECT] names, with the
    ids of the task and, as [vectorsLoaded], the number of records of the
    file. The last line printed tells of it. *)
Theorem load_publishes_one_completion_message
    (task : dict) (embeddings : list value) (points : list PointStruct)
    (s : LoaderJob.Cloud) :
  embeddings <> [] ->
  Forall2 (fun emb p => Loader.point_of_embedding emb = Ok p) embeddings points ->
  Forall (fun p => vector_dim p = Some (tc_size (loader_collection_before s)))
    points ->
  text_or_absent task "sourceId" ->
  text_or_absent task "category" ->
  exists s' pre topic data attributes,
    let n := Z.of_nat (length embeddings) in
    LoaderJob.load_to_qdrant task embeddings s = (Done tt, s') /\
    LoaderJob.journal s'
    = LoaderJob.journal s ++ pre
      ++ [LoaderJob.Said (LoaderJob.LineUpserted n);
          LoaderJob.Published topic data attributes;
          LoaderJob.Said LoaderJob.LinePublished] /\
    published pre = [] /\
    (topic, data, attributes) = completion_message s task n /\
    subscript data "vectorsLoaded" = Ok (VInt n).
Proof.
  intros Hne Hall Hdim Hsource Hcategory.
  eexists _,
    ([LoaderJob.Said (LoaderJob.LineFound (Z.of_nat (length embeddings)))]
     ++ ensure_happenings
          (bool_decide (is_Some (LoaderJob.qdrant s !! LoaderJob.COLLECTION_NAME)))
     ++ concat (batch_happenings points
                  ((Z.of_nat (length embeddings) - 1)
                   / Z.of_nat LoaderJob.BATCH_SIZE + 1)
                <$> seq 0 (batch_count (length embeddings)))),
    _, _, _.
  cbv zeta. split; [by apply load_to_qdrant_run|].
  split; [|split; [|split; [reflexivity|reflexivity]]].
  - cbn [stored noted LoaderJob.journal]. unfold load_happenings, completion_message.
    by rewrite <- !app_assoc.
  - rewrite !published_app, published_of_batches.
    unfold ensure_happenings. by destruct (bool_decide _).
Qed.

Lemma load_publishes_one_completion_message_witness :
  exists s' pre data,
    LoaderJob.load_to_qdrant LoaderExamples.task
      [VDict Examples.complete_record] LoaderExamples.state
    = (Done tt, s') /\
    LoaderJob.journal s'
    = [] ++ pre
      ++ [LoaderJob.Said (LoaderJob.LineUpserted 1);
          LoaderJob.Published
            "projects/elite-striker-477619-p8/topics/sengol-qdrant-updated"
            data [("sourceId", "source-1"); ("category", "breach")];
          LoaderJob.Said LoaderJob.LinePublished] /\
    subscript data "vectorsLoaded" = Ok (VInt 1).
Proof.
  destruct (load_publishes_one_completion_message
              LoaderExamples.task [VDict Examples.complete_record]
              [LoaderExamples.loaded_point] LoaderExamples.state)
    as (s' & pre & topic & data & attributes & Hrun & Hj & _ & Hm & Hn).
  - discriminate.
  - constructor; [reflexivity|constructor].
  - constructor; [vm_compute; reflexivity|constructor].
  - right. eexists. reflexivity.
  - right. eexists. reflexivity.
  - injection Hm as -> -> ->. eexists s', pre, _.
    split; [exact Hrun|]. split; [exact Hj|exact Hn].
Defined.

(** X17 — a file without records. The load of an empty list of
    embeddings prints that there is nothing to load and returns: it makes
    no request to the store, creates no collection, and publishes
    nothing. *)
Theorem load_of_no_embeddings_touches_nothing
    (task : dict) (s : LoaderJob.Cloud) :
  exists s' hs,
    LoaderJob.load_to_qdrant task [] s = (Done tt, s') /\
    LoaderJob.journal s' = LoaderJob.journal s ++ hs /\
    hs = [LoaderJob.Said (LoaderJob.LineFound 0);
          LoaderJob.Said LoaderJob.LineNoEmbeddings] /\
    requests hs = [] /\ published hs = [] /\
    LoaderJob.qdrant s' = LoaderJob.qdrant s.
Proof.
  eexists _, _. split; [reflexivity|]. simpl.
  rewrite <- app_assoc. by repeat split.
Qed.

Lemma loader_collection_before_stored q tc s :
  loader_collection_before (stored (<[LoaderJob.COLLECTION_NAME := tc]> q) s) = tc.
Proof.
  unfold loader_collection_before. cbn [stored LoaderJob.qdrant].
  by rewrite lookup_insert_eq.
Qed.

(** X18 — [ensure_collection_exists] of the loader. It always returns,
    and leaves the collection [sengol_incidents_full] in the store: one
    that was there is kept with its points and its vector parameters, and
    nothing is created; a missing one is created empty, with 1536
    dimensions and the cosine metric, by exactly one create request. No
    other collection is touched, and a second call changes nothing. *)
Theorem loader_ensure_collection_exists_keeps_or_creates (s : LoaderJob.Cloud) :
  exists s1 s2 hs1 hs2,
    LoaderJob.ensure_collection_exists s = (Done tt, s1) /\
    LoaderJob.journal s1 = LoaderJob.journal s ++ hs1 /\
    LoaderJob.qdrant s1 !! LoaderJob.COLLECTION_NAME
    = Some (loader_collection_before s) /\
    (forall other, other <> LoaderJob.COLLECTION_NAME ->
       LoaderJob.qdrant s1 !! other = LoaderJob.qdrant s !! other) /\
    created hs1
    = (if bool_decide (is_Some (LoaderJob.qdrant s !! LoaderJob.COLLECTION_NAME))
       then []
       else [("sengol_incidents_full", 1536, COSINE)]) /\
    LoaderJob.ensure_collection_exists s1 = (Done tt, s2) /\
    LoaderJob.journal s2 = LoaderJob.journal s1 ++ hs2 /\
    LoaderJob.qdrant s2 = LoaderJob.qdrant s1 /\
    created hs2 = [].
Proof.
  eexists _, _, _, _.
  split; [apply loader_ensure_run|].
  split; [reflexivity|].
  split; [cbn [stored LoaderJob.qdrant]; by rewrite lookup_insert_eq|].
  split; [intros other Hne; cbn [stored LoaderJob.qdrant];
          by rewrite lookup_insert_ne|].
  split; [by destruct (bool_decide _)|].
  split; [apply loader_ensure_run|].
  split; [reflexivity|].
  cbn [stored noted LoaderJob.qdrant]. rewrite lookup_insert_eq.
  rewrite (bool_decide_eq_true_2 (is_Some (Some _))) by (by eexists).
  split; [|done].
  apply insert_id. rewrite loader_collection_before_stored.
  apply lookup_insert_eq.
Qed.

(** ** A load that fails *)

Lemma job_bind_assoc {S A B C} (c : Job.T S A) (k : A -> Job.T S B)
    (k' : B -> Job.T S C) s :
  Job.bind (Job.bind c k) k' s = Job.bind c (fun a => Job.bind (k a) k') s.
Proof. unfold Job.bind. by destruct (c s) as [[a|e|] s1]. Qed.

Lemma job_bind_ext {S A B} (c : Job.T S A) (k k' : A -> Job.T S B) s :
  (forall a s1, k a s1 = k' a s1) -> Job.bind c k s = Job.bind c k' s.
Proof. intros H. unfold Job.bind. by destruct (c s) as [[a|e|] s1]. Qed.

Lemma upsert_batches_app l1 l2 embeddings : forall total_upserted s,
  LoaderJob.upsert_batches (l1 ++ l2) embeddings total_upserted s
  = Job.bind (LoaderJob.upsert_batches l1 embeddings total_upserted)
      (fun total => LoaderJob.upsert_batches l2 embeddings total) s.
Proof.
  induction l1 as [|i l1 IH]; intros total s; [done|].
  cbn [app LoaderJob.upsert_batches].
  rewrite job_bind_assoc. apply job_bind_ext. intros _ s1.
  rewrite job_bind_assoc. apply job_bind_ext. intros points s2.
  rewrite job_bind_assoc. apply job_bind_ext. intros _ s3.
  apply IH.
Qed.

Lemma as_component_only_exceptions v :
  result_only_exceptions (Loader.as_component v).
Proof.
  destruct v; cbn [Loader.as_component];
    try (apply result_only_exceptions_raise; reflexivity);
    try apply result_only_exceptions_ok.
  apply result_only_exceptions_rbind; [apply of_int_only_exceptions|intros x].
  apply result_only_exceptions_ok.
Qed.

Lemma as_components_only_exceptions l :
  result_only_exceptions (Loader.as_components l).
Proof.
  induction l as [|v l IH]; cbn [Loader.as_components].
  - apply result_only_exceptions_ok.
  - apply result_only_exceptions_rbind; [apply as_component_only_exceptions|intros x].
    apply result_only_exceptions_rbind; [exact IH|intros xs].
    apply result_only_exceptions_ok.
Qed.

Lemma as_vector_only_exceptions v :
  result_only_exceptions (Loader.as_vector v).
Proof.
  destruct v; cbn [Loader.as_vector];
    try (apply result_only_exceptions_raise; reflexivity).
  apply result_only_exceptions_rbind; [apply as_components_only_exceptions|intros xs].
  apply result_only_exceptions_ok.
Qed.

Lemma point_of_embedding_only_exceptions emb :
  result_only_exceptions (Loader.point_of_embedding emb).
Proof.
  unfold Loader.point_of_embedding, Loader.or_else, Loader.get, subscript,
    Loader.slice_prefix, Loader.as_point_id.
  only_exceptions_cases; apply as_vector_only_exceptions.
Qed.
(** X19 — a load that meets a record it cannot transform. If the
    [j]-th record is the first that cannot be transformed, the load
    raises what the transformer raises for it, after printing the error;
    it publishes nothing. It is not undone: the [j // 100] batches before
    the one that holds the record were sent, and their points are in the
    collection. *)
Theorem load_fails_at_first_bad_record_after_earlier_batches
    (task : dict) (good rest : list value) (bad : value)
    (good_points : list PointStruct) (e : exn) (s : LoaderJob.Cloud) :
  Forall2 (fun emb p => Loader.point_of_embedding emb = Ok p) good good_points ->
  Loader.point_of_embedding bad = Raise e ->
  Forall (fun p => vector_dim p = Some (tc_size (loader_collection_before s)))
    good_points ->
  let written := take (length good / 100 * 100) good_points in
  exists s' hs,
    LoaderJob.load_to_qdrant task (good ++ bad :: rest) s = (Raised e, s') /\
    LoaderJob.journal s' = LoaderJob.journal s ++ hs /\
    concat (upserted_batches hs) = written /\
    length (upserted_batches hs) = (length good / 100)%nat /\
    published hs = [] /\
    last hs = Some (LoaderJob.Said (LoaderJob.LineErrorLoading e)) /\
    tc_points <$> (LoaderJob.qdrant s' !! LoaderJob.COLLECTION_NAME)
    = Some (upsert_points written (tc_points (loader_collection_before s))).
Proof.
  intros Hgood Hbad Hdim written.
  set (embeddings := good ++ bad :: rest).
  set (k := (length good / 100)%nat) in *.
  set (before := loader_collection_before s).
  pose proof (Forall2_length _ _ _ Hgood) as Hlen.
  assert (Hk : (k * 100 <= length good < k * 100 + 100)%nat).
  { subst k. pose proof (Nat.div_mod_eq (length good) 100).
    pose proof (Nat.mod_upper_bound (length good) 100). lia. }
  assert (Hm : exists m, batch_count (length embeddings) = (k + S m)%nat).
  { exists (batch_count (length embeddings) - S k)%nat.
    pose proof (batch_count_covers (length embeddings)) as Hcover.
    subst embeddings. rewrite length_app in *. cbn [length] in *.
    unfold LoaderJob.BATCH_SIZE in *. nia. }
  destruct Hm as [m Hm].
  assert (He : is_Exception e = true).
  { by apply (point_of_embedding_only_exceptions bad). }
  (* the batch that holds the bad record *)
  assert (Hbatch :
    Loader.points_of_batch
      (take LoaderJob.BATCH_SIZE (drop (k * LoaderJob.BATCH_SIZE) embeddings))
    = Raise e).
  { apply points_of_batch_Raise.
    exists (drop (k * 100) good), bad, (take (100 - (length good - k * 100) - 1) rest).
    split; [|split; [|done]].
    - subst embeddings. unfold LoaderJob.BATCH_SIZE.
      rewrite drop_app_le by lia.
      rewrite take_app_ge by (rewrite length_drop; lia).
      rewrite length_drop. f_equal.
      destruct (100 - (length good - k * 100))%nat as [|r] eqn:Hr; [lia|].
      cbn [take]. f_equal. f_equal. lia.
    - apply Forall_drop. eapply Forall2_Forall_l; [exact Hgood|].
      apply Forall_true. intros p emb Hp. by exists p. }
  (* the batches before it *)
  assert (Hfirst : forall s1,
    LoaderJob.qdrant s1 !! LoaderJob.COLLECTION_NAME = Some before ->
    LoaderJob.upsert_batches
      ((fun i => i * LoaderJob.BATCH_SIZE)%nat <$> seq 0 k) embeddings 0 s1
    = (Done (0 + Z.of_nat (length written)),
       stored (<[LoaderJob.COLLECTION_NAME :=
                   {| tc_size := tc_size before; tc_distance := tc_distance before;
                      tc_points := upsert_points written (tc_points before) |}]>
                 (LoaderJob.qdrant s1))
         (noted (concat (batch_happenings written
                           ((Z.of_nat (length embeddings) - 1)
                            / Z.of_nat LoaderJob.BATCH_SIZE + 1) <$> seq 0 k)) s1))).
  { intros s1 Hs1.
    pose proof (upsert_batches_run embeddings written k 0 before s1 0) as Hrun.
    cbv zeta in Hrun. rewrite drop_0 in Hrun.
    assert (Hidem : take (k * LoaderJob.BATCH_SIZE) written = written).
    { subst written. unfold LoaderJob.BATCH_SIZE. rewrite take_take. f_equal. lia. }
    rewrite Hidem in Hrun. apply Hrun; [|done|by apply Forall_take].
    subst embeddings written. unfold LoaderJob.BATCH_SIZE. cbn [Nat.add].
    rewrite take_app_le by lia. by apply Forall2_take. }
  set (batches := (Z.of_nat (length embeddings) - 1)
                  / Z.of_nat LoaderJob.BATCH_SIZE + 1) in *.
  exists
    (stored (<[LoaderJob.COLLECTION_NAME :=
                 {| tc_size := tc_size before; tc_distance := tc_distance before;
                    tc_points := upsert_points written (tc_points before) |}]>
               (LoaderJob.qdrant s))
       (noted ([LoaderJob.Said (LoaderJob.LineFound (Z.of_nat (length embeddings)))]
               ++ ensure_happenings
                    (bool_decide (is_Some (LoaderJob.qdrant s
                                           !! LoaderJob.COLLECTION_NAME)))
               ++ concat (batch_happenings written batches <$> seq 0 k)
               ++ [LoaderJob.Said (LoaderJob.LineUpsertingBatch (Z.of_nat k + 1) batches);
                   LoaderJob.Said (LoaderJob.LineErrorLoading e)]) s)).
  eexists.
  split.
  - unfold LoaderJob.load_to_qdrant, Job.try_except.
    erewrite job_bind_done by (apply loader_print_run).
    rewrite bool_decide_eq_false_2
      by (subst embeddings; rewrite length_app; cbn [length]; lia).
    erewrite job_bind_done by (apply loader_ensure_run).
    erewrite job_bind_raised.
    2:{ unfold LoaderJob.range. fold (batch_count (length embeddings)).
        rewrite Hm, seq_app, fmap_app. cbn [Nat.add seq fmap list_fmap].
        rewrite upsert_batches_app.
        erewrite job_bind_done by (apply Hfirst; apply lookup_insert_eq).
        cbn [LoaderJob.upsert_batches].
        erewrite job_bind_done by (apply loader_print_run).
        erewrite job_bind_raised; [reflexivity|].
        rewrite Hbatch. reflexivity. }
    rewrite He.
    erewrite job_bind_done by (apply loader_print_run).
    unfold Job.raise, stored, noted.
    cbn [LoaderJob.environ LoaderJob.journal LoaderJob.qdrant].
    rewrite insert_insert_eq, <- !app_assoc.
    rewrite Nat2Z.inj_mul, Z.div_mul by done. reflexivity.
  - split; [cbn [stored noted LoaderJob.journal]; reflexivity|].
    cbn [stored noted LoaderJob.journal LoaderJob.qdrant].
    rewrite lookup_insert_eq. cbn [fmap option_fmap option_map tc_points].
    rewrite !upserted_batches_app, !published_app.
    rewrite upserted_batches_of_batches, published_of_batches.
    assert (Hens : forall b, upserted_batches (ensure_happenings b) = []
                             /\ published (ensure_happenings b) = []).
    { by intros []. }
    destruct (Hens (bool_decide (is_Some (LoaderJob.qdrant s
                                          !! LoaderJob.COLLECTION_NAME))))
      as [-> ->].
    cbn [upserted_batches published omap list_omap app].
    rewrite !app_nil_r, length_fmap, length_seq, concat_slices, drop_0.
    repeat split.
    + subst written. unfold LoaderJob.BATCH_SIZE. rewrite take_take. f_equal. lia.
    + by rewrite app_comm_cons, !last_app.
Qed.

Lemma load_fails_at_first_bad_record_after_earlier_batches_witness :
  exists s' hs,
    LoaderJob.load_to_qdrant LoaderExamples.task
      (replicate 100 (VDict Examples.complete_record)
       ++ [Examples.record_without_id]) LoaderExamples.state
    = (Raised (KeyError "id"), s') /\
    LoaderJob.journal s' = [] ++ hs /\
    length (upserted_batches hs) = 1%nat /\
    published hs = [].
Proof.
  destruct (load_fails_at_first_bad_record_after_earlier_batches
              LoaderExamples.task
              (replicate 100 (VDict Examples.complete_record)) []
              Examples.record_without_id
              (replicate 100 LoaderExamples.loaded_point)
              (KeyError "id") LoaderExamples.state)
    as (s' & hs & Hrun & Hj & _ & Hlen & Hpub & _).
  - apply points_of_batch_Ok. vm_compute. reflexivity.
  - reflexivity.
  - apply Forall_replicate. vm_compute. reflexivity.
  - exists s', hs. split; [exact Hrun|]. split; [exact Hj|].
    split; [exact Hlen|exact Hpub].
Defined.
(** ** The export job *)

Lemma inner_done {A} (c : M A) s a w' :
  c (ExportJob.world s) = (Done a, w') ->
  ExportJob.inner c s = (Done a, with_world w' s).
Proof. unfold ExportJob.inner. by intros ->. Qed.

Lemma export_print_run l s :
  ExportJob.print l s = (Done tt, journaled [ExportJob.Said l] s).
Proof. done. Qed.

Lemma journaled_journaled a b s : journaled b (journaled a s) = journaled (a ++ b) s.
Proof. unfold journaled; simpl. by rewrite <- app_assoc. Qed.

Lemma uploads_app a b : uploads (a ++ b) = uploads a ++ uploads b.
Proof. unfold uploads. by rewrite omap_app. Qed.

Lemma has_char_replace_char old new s :
  new <> old -> has_char old (ExportJob.replace_char old new s) = false.
Proof.
  intros Hne. induction s as [|c s IH]; [done|].
  cbn [ExportJob.replace_char has_char]. rewrite IH, orb_false_r.
  destruct (decide (c = old)); by rewrite bool_decide_eq_false_2.
Qed.

Lemma has_char_replace_char_other c old new s :
  new <> c ->
  has_char c s = false -> has_char c (ExportJob.replace_char old new s) = false.
Proof.
  intros Hne. induction s as [|c' s IH]; [done|].
  cbn [ExportJob.replace_char has_char]. intros H.
  apply orb_false_iff in H as [Hc Hs]. rewrite IH, orb_false_r by done.
  destruct (decide (c' = old)); [by rewrite bool_decide_eq_false_2|done].
Qed.

(** The size of a file in MiB, as [upload_to_gcs] computes it. *)
Lemma file_size_defined n :
  Z.of_nat n < 2 ^ 63 ->
  exists mb,
    (let? kb := PyNum.truediv (Int (Z.of_nat n)) (Int 1024) in
     PyNum.truediv kb (Int 1024))%result = Ok mb.
Proof.
  intros Hn. cbn [PyNum.truediv].
  destruct (decide (Z.of_nat n = 0)) as [->|Hne].
  - eexists. vm_compute. reflexivity.
  - destruct (int_truediv_fin (Z.of_nat n) 1024 63 11) as (kb & -> & _);
      try lia.
    cbn [rbind PyNum.to_float].
    change (PyFloat.of_int 1024) with (Ok (S754_finite false 4503599627370496 (-42))).
    cbn [rbind]. unfold PyFloat.truediv. cbn [PyFloat.is_zero rbind].
    by eexists.
Qed.
Section ExportMain.
Variable int_of_str : string -> option Z.
Variable isoformat : Z -> string.
Variable json_dumps : value -> string.

Lemma export_get_qdrant_client_run s port :
  int_of_str (default "6333" (environ (ExportJob.world s) !! "QDRANT_PORT"))
  = Some port ->
  ExportJob.get_qdrant_client int_of_str s
  = (Done tt,
     journaled
       [ExportJob.Said
          (ExportJob.LineConnecting
             (default "10.128.0.2" (environ (ExportJob.world s) !! "QDRANT_HOST"))
             port)] s).
Proof.
  intros Hport. unfold ExportJob.get_qdrant_client.
  erewrite job_bind_done by (by apply inner_done).
  erewrite job_bind_done by (by apply inner_done).
  erewrite job_bind_done.
  2:{ apply job_lift_run. unfold Migrate.int. cbn [with_world ExportJob.world].
      by rewrite Hport. }
  rewrite export_print_run. by destruct s.
Qed.

Lemma upload_to_gcs_run data :
  Z.of_nat (String.length (json_dumps data)) < 2 ^ 63 ->
  exists file_size_mb, forall bucket_name file_name s,
    ExportJob.upload_to_gcs json_dumps data bucket_name file_name s
    = (Done ("gs://" +:+ bucket_name +:+ "/" +:+ file_name),
       {| ExportJob.world := ExportJob.world s;
          ExportJob.objects :=
            <[(bucket_name, file_name) := json_dumps data]> (ExportJob.objects s);
          ExportJob.journal :=
            ExportJob.journal s
            ++ [ExportJob.Said (ExportJob.LineUploading bucket_name file_name);
                ExportJob.Uploaded bucket_name file_name (json_dumps data);
                ExportJob.Said (ExportJob.LineUploadComplete file_size_mb)] |}).
Proof.
  intros Hlen. destruct (file_size_defined _ Hlen) as [mb Hmb].
  exists mb. intros bucket_name file_name s. unfold ExportJob.upload_to_gcs.
  erewrite job_bind_done by (apply export_print_run).
  erewrite job_bind_done by reflexivity.
  erewrite job_bind_done by (by apply job_lift_run).
  erewrite job_bind_done by (apply export_print_run).
  unfold Job.ret, journaled. cbn [ExportJob.world ExportJob.objects ExportJob.journal].
  by rewrite <- !app_assoc.
Qed.

(** A run of the export job over a collection that reports no point. *)
Lemma export_main_run fuel s c port :
  int_of_str (default "6333" (environ (ExportJob.world s) !! "QDRANT_PORT"))
  = Some port ->
  source_store (ExportJob.world s) !! "sengol_incidents" = Some c ->
  points_count c <= 0 ->
  (forall v, Z.of_nat (String.length (json_dumps v)) < 2 ^ 63) ->
  exists w' exported_at now file_size_mb,
    let data := export_data "sengol_incidents" exported_at [] in
    let file_name :=
      ExportText.file_name_of (ExportText.timestamp_of isoformat now) in
    let bucket_name := configured_bucket s in
    ExportJob.main int_of_str isoformat json_dumps fuel s
    = (Done 0,
       {| ExportJob.world := w';
          ExportJob.objects :=
            <[(bucket_name, file_name) := json_dumps data]> (ExportJob.objects s);
          ExportJob.journal :=
            ExportJob.journal s
            ++ [ExportJob.Said
                  (ExportJob.LineConnecting
                     (default "10.128.0.2"
                        (environ (ExportJob.world s) !! "QDRANT_HOST")) port);
                ExportJob.Said ExportJob.LineChecking;
                ExportJob.Said
                  (ExportJob.LineAvailable
                     (names_of (source_store (ExportJob.world s))));
                ExportJob.Said (ExportJob.LineStarting "sengol_incidents");
                ExportJob.Said (ExportJob.LineUploading bucket_name file_name);
                ExportJob.Uploaded bucket_name file_name (json_dumps data);
                ExportJob.Said (ExportJob.LineUploadComplete file_size_mb);
                ExportJob.Said ExportJob.LineCompleted;
                ExportJob.Said
                  (ExportJob.LineDataLocation
                     ("gs://" +:+ bucket_name +:+ "/" +:+ file_name));
                ExportJob.Said (ExportJob.LineTotalPoints (VInt 0))] |}) /\
    trace w'
    = trace (ExportJob.world s)
      ++ [Called SrcGetCollections;
          Printed (MsgExportGettingInfo "sengol_incidents");
          Called (SrcGetCollection "sengol_incidents");
          Printed (MsgExportHas "sengol_incidents" (points_count c))] /\
    target_store w' = target_store (ExportJob.world s).
Proof.
  intros Hport Hsrc Hzero Hjson.
  set (w1 := log [Called SrcGetCollections] (ExportJob.world s)).
  pose proof (export_collection_empty isoformat fuel "sengol_incidents" 100 w1 c
                Hsrc Hzero) as Hrun.
  set (exported_at := isoformat (clock w1 (ticks w1)) +:+ "Z") in *.
  set (data := export_data "sengol_incidents" exported_at []) in *.
  match type of Hrun with _ = (_, ?w) => set (w2 := w) in * end.
  set (now := clock w2 (ticks w2)).
  set (file_name := ExportText.file_name_of (ExportText.timestamp_of isoformat now)).
  destruct (upload_to_gcs_run data (Hjson data)) as [mb Hupload].
  exists (tick w2), exported_at, now, mb. cbv zeta.
  fold data. fold file_name.
  split; [|split].
  - unfold ExportJob.main.
    erewrite job_bind_done by (by apply inner_done).
    unfold Job.try_except.
    erewrite job_bind_done by (by apply export_get_qdrant_client_run).
    erewrite job_bind_done by (apply export_print_run).
    erewrite job_bind_done by (by apply inner_done).
    erewrite job_bind_done by (apply export_print_run).
    rewrite bool_decide_eq_false_2.
    2:{ rewrite not_in_names.
        cbn [with_world journaled ExportJob.world source_store log].
        by rewrite Hsrc. }
    erewrite job_bind_done by reflexivity.
    erewrite job_bind_done by (apply export_print_run).
    erewrite job_bind_done by (apply inner_done; exact Hrun).
    erewrite job_bind_done by (by apply inner_done).
    rewrite !journaled_journaled.
    erewrite job_bind_done by (apply Hupload).
    erewrite job_bind_done by (apply export_print_run).
    erewrite job_bind_done by (apply export_print_run).
    erewrite job_bind_done by (by apply job_lift_run).
    erewrite job_bind_done by (apply export_print_run).
    unfold Job.ret, journaled, with_world, configured_bucket.
    cbn [ExportJob.world ExportJob.objects ExportJob.journal].
    by rewrite <- !app_assoc.
  - subst w2 w1. cbn [trace tick log]. by rewrite <- !app_assoc.
  - reflexivity.
Qed.

(** A run of the export job over a collection that reports a point or
    more. *)
Lemma export_main_refused fuel s c port :
  int_of_str (default "6333" (environ (ExportJob.world s) !! "QDRANT_PORT"))
  = Some port ->
  source_store (ExportJob.world s) !! "sengol_incidents" = Some c ->
  0 < points_count c ->
  fuel <> O ->
  ExportJob.main int_of_str isoformat json_dumps fuel s
  = (Raised (SystemExit 1),
     {| ExportJob.world :=
          log [Called SrcGetCollections;
               Printed (MsgExportGettingInfo "sengol_incidents");
               Called (SrcGetCollection "sengol_incidents");
               Printed (MsgExportHas "sengol_incidents" (points_count c));
               Printed (MsgExportFetching 0 (Z.min 100 (points_count c)))]
            (ExportJob.world s);
        ExportJob.objects := ExportJob.objects s;
        ExportJob.journal :=
          ExportJob.journal s
          ++ [ExportJob.Said
                (ExportJob.LineConnecting
                   (default "10.128.0.2"
                      (environ (ExportJob.world s) !! "QDRANT_HOST")) port);
              ExportJob.Said ExportJob.LineChecking;
              ExportJob.Said
                (ExportJob.LineAvailable
                   (names_of (source_store (ExportJob.world s))));
              ExportJob.Said (ExportJob.LineStarting "sengol_incidents");
              ExportJob.Said (ExportJob.LineError AssertionError)] |}).
Proof.
  intros Hport Hsrc Hpos Hfuel.
  set (w1 := log [Called SrcGetCollections] (ExportJob.world s)).
  pose proof (export_collection_refused isoformat fuel "sengol_incidents" 100 w1 c
                Hsrc Hpos Hfuel) as Hrun.
  unfold ExportJob.main.
  erewrite job_bind_done by (by apply inner_done).
  unfold Job.try_except.
  erewrite job_bind_done by (by apply export_get_qdrant_client_run).
  erewrite job_bind_done by (apply export_print_run).
  erewrite job_bind_done by (by apply inner_done).
  erewrite job_bind_done by (apply export_print_run).
  rewrite bool_decide_eq_false_2.
  2:{ rewrite not_in_names.
      cbn [with_world journaled ExportJob.world source_store log].
      by rewrite Hsrc. }
  erewrite job_bind_done by reflexivity.
  erewrite job_bind_done by (apply export_print_run).
  erewrite job_bind_raised.
  2:{ unfold ExportJob.inner. cbn [with_world journaled ExportJob.world].
      fold w1. rewrite Hrun. reflexivity. }
  cbn [is_Exception].
  erewrite job_bind_done by (apply export_print_run).
  unfold Job.raise, journaled, with_world.
  cbn [ExportJob.world ExportJob.objects ExportJob.journal].
  subst w1. by rewrite log_log, <- !app_assoc.
Qed.

End ExportMain.
(** X20 — the export job over a collection that holds points. When the
    vector store holds the collection [sengol_incidents] and reports at
    least one point in it, the export job exits with status 1: the first
    scroll call of [export_collection] is refused ([AssertionError], for
    the keyword [with_vector]), [main] catches the exception and prints
    it as its last line. No page has been asked for, nothing is
    uploaded and the buckets are as they were. *)
Theorem export_job_over_points_exits_1_and_uploads_nothing
    (int_of_str : string -> option Z) (isoformat : Z -> string)
    (json_dumps : value -> string)
    (fuel : nat) (s : ExportJob.Cloud) (c : SourceCollection) (port : Z) :
  int_of_str (default "6333" (environ (ExportJob.world s) !! "QDRANT_PORT"))
  = Some port ->
  source_store (ExportJob.world s) !! "sengol_incidents" = Some c ->
  0 < points_count c ->
  fuel <> O ->
  exists s' hs evs,
    ExportJob.script int_of_str isoformat json_dumps fuel s = (Some 1, s') /\
    ExportJob.journal s' = ExportJob.journal s ++ hs /\
    trace (ExportJob.world s') = trace (ExportJob.world s) ++ evs /\
    forallb quiet evs = true /\
    uploads hs = [] /\
    ExportJob.objects s' = ExportJob.objects s /\
    last hs = Some (ExportJob.Said (ExportJob.LineError AssertionError)).
Proof.
  intros Hport Hsrc Hpos Hfuel.
  unfold ExportJob.script.
  rewrite (export_main_refused int_of_str isoformat json_dumps fuel s c port
             Hport Hsrc Hpos Hfuel).
  eexists _, _, _. split; [reflexivity|].
  cbn [ExportJob.world ExportJob.objects ExportJob.journal trace log].
  split; [reflexivity|]. split; [reflexivity|]. by repeat split.
Qed.

Lemma export_job_over_points_exits_1_and_uploads_nothing_witness :
  exists s' hs,
    ExportJob.script Examples.port_6333 ExportExamples.fixed_time
      ExportExamples.braces 5 ExportExamples.cloud
    = (Some 1, s') /\
    ExportJob.journal s' = [] ++ hs /\
    uploads hs = [] /\
    ExportJob.objects s' = ∅.
Proof.
  destruct (export_job_over_points_exits_1_and_uploads_nothing
              Examples.port_6333 ExportExamples.fixed_time ExportExamples.braces
              5 ExportExamples.cloud Examples.cursor_source 6333)
    as (s' & hs & evs & Hrun & Hj & _ & _ & Hup & Hobj & _).
  - reflexivity.
  - reflexivity.
  - vm_compute. reflexivity.
  - discriminate.
  - exists s', hs. split; [exact Hrun|]. split; [exact Hj|].
    split; [exact Hup|exact Hobj].
Defined.

(** X25 — the export job over a collection that holds no point. When the
    vector store holds the collection [sengol_incidents] and reports no
    point in it, the export job exits with status 0 after it has written
    exactly one object: into the bucket [GCS_BUCKET] names
    ([sengol-data-migrations] when it is unset), under a name made of
    [qdrant-exports/sengol_incidents-], a timestamp and [.json], with the
    serialisation of an export of no points as its content. The
    timestamp holds neither a colon nor a full stop. The last line
    printed gives 0 as the number of points, no page is asked for, and no
    other object of the buckets is touched. *)
Theorem export_job_over_no_points_uploads_one_object_named_by_a_safe_timestamp
    (int_of_str : string -> option Z) (isoformat : Z -> string)
    (json_dumps : value -> string)
    (fuel : nat) (s : ExportJob.Cloud) (c : SourceCollection) (port : Z) :
  int_of_str (default "6333" (environ (ExportJob.world s) !! "QDRANT_PORT"))
  = Some port ->
  source_store (ExportJob.world s) !! "sengol_incidents" = Some c ->
  points_count c <= 0 ->
  (forall v, Z.of_nat (String.length (json_dumps v)) < 2 ^ 63) ->
  exists s' hs evs timestamp exported_at,
    let data := export_data "sengol_incidents" exported_at [] in
    let object_name := (configured_bucket s, ExportText.file_name_of timestamp) in
    ExportJob.script int_of_str isoformat json_dumps fuel s = (Some 0, s') /\
    ExportJob.journal s' = ExportJob.journal s ++ hs /\
    trace (ExportJob.world s') = trace (ExportJob.world s) ++ evs /\
    filter (fun e => is_scan e = true) evs = [] /\
    uploads hs = [(object_name.1, object_name.2, json_dumps data)] /\
    ExportJob.objects s' = <[object_name := json_dumps data]> (ExportJob.objects s) /\
    has_char ExportText.colon timestamp = false /\
    has_char ExportText.full_stop timestamp = false /\
    last hs = Some (ExportJob.Said (ExportJob.LineTotalPoints (VInt 0))).
Proof.
  intros Hport Hsrc Hzero Hjson.
  destruct (export_main_run int_of_str isoformat json_dumps fuel s c port
              Hport Hsrc Hzero Hjson)
    as (w' & exported_at & now & mb & Hrun & Htrace & _).
  cbv zeta in Hrun.
  eexists _, _, _, (ExportText.timestamp_of isoformat now), exported_at.
  cbv zeta. unfold ExportJob.script. rewrite Hrun.
  cbn [ExportJob.world ExportJob.objects ExportJob.journal].
  split; [reflexivity|]. split; [reflexivity|]. split; [exact Htrace|].
  split; [reflexivity|]. split; [reflexivity|]. split; [reflexivity|].
  unfold ExportText.timestamp_of.
  split; [|split; [|reflexivity]].
  - apply has_char_replace_char_other; [done|].
    by apply has_char_replace_char.
  - by apply has_char_replace_char.
Qed.

Lemma export_job_over_no_points_uploads_one_object_named_by_a_safe_timestamp_witness :
  exists s' hs timestamp,
    ExportJob.script Examples.port_6333 ExportExamples.fixed_time
      ExportExamples.braces 5 ExportExamples.cloud_of_no_points
    = (Some 0, s') /\
    ExportJob.journal s' = [] ++ hs /\
    uploads hs
    = [("sengol-data-migrations", ExportText.file_name_of timestamp, "{}")] /\
    has_char ExportText.colon timestamp = false.
Proof.
  destruct (export_job_over_no_points_uploads_one_object_named_by_a_safe_timestamp
              Examples.port_6333 ExportExamples.fixed_time ExportExamples.braces
              5 ExportExamples.cloud_of_no_points
              (cursor_collection 2 COSINE []) 6333)
    as (s' & hs & evs & timestamp & exported_at & Hrun & Hj & _ & _ & Hup & _
        & Hcolon & _).
  - reflexivity.
  - reflexivity.
  - vm_compute. discriminate.
  - intros v. vm_compute. reflexivity.
  - exists s', hs, timestamp. split; [exact Hrun|]. split; [exact Hj|].
    split; [exact Hup|exact Hcolon].
Defined.

(** X21 — the export job without its collection. The job exports the
    collection [sengol_incidents] whatever [COLLECTION_NAME] says. When
    the vector store does not hold it, the job exits with status 1: it
    asks for no page, uploads nothing and leaves the buckets as they
    were; when the client could be set up, the last line printed is the
    error naming the collection. *)
Theorem export_job_without_its_collection_exits_1_and_uploads_nothing
    (int_of_str : string -> option Z) (isoformat : Z -> string)
    (json_dumps : value -> string) (fuel : nat) (s : ExportJob.Cloud) :
  source_store (ExportJob.world s) !! "sengol_incidents" = None ->
  exists s' hs evs,
    ExportJob.script int_of_str isoformat json_dumps fuel s = (Some 1, s') /\
    ExportJob.journal s' = ExportJob.journal s ++ hs /\
    trace (ExportJob.world s') = trace (ExportJob.world s) ++ evs /\
    forallb quiet evs = true /\
    uploads hs = [] /\
    ExportJob.objects s' = ExportJob.objects s /\
    (forall port,
        int_of_str (default "6333" (environ (ExportJob.world s) !! "QDRANT_PORT"))
        = Some port ->
        last hs
        = Some (ExportJob.Said (ExportJob.LineErrorNotFound "sengol_incidents"))).
Proof.
  intros Hsrc. unfold ExportJob.script, ExportJob.main.
  erewrite job_bind_done by (by apply inner_done).
  unfold Job.try_except.
  destruct (int_of_str (default "6333"
              (environ (ExportJob.world s) !! "QDRANT_PORT"))) as [port|] eqn:Hport.
  - erewrite job_bind_done by (by apply export_get_qdrant_client_run).
    erewrite job_bind_done by (apply export_print_run).
    erewrite job_bind_done by (by apply inner_done).
    erewrite job_bind_done by (apply export_print_run).
    erewrite job_bind_raised.
    2:{ rewrite bool_decide_eq_true_2.
        - erewrite job_bind_done by (apply export_print_run). reflexivity.
        - rewrite not_in_names.
          cbn [with_world journaled ExportJob.world source_store log].
          exact Hsrc. }
    cbn [is_Exception].
    eexists _, _, [Called SrcGetCollections].
    split; [reflexivity|].
    cbn [with_world journaled ExportJob.world ExportJob.journal ExportJob.objects
         trace log].
    rewrite <- !app_assoc.
    split; [reflexivity|]. split; [reflexivity|]. by repeat split.
  - erewrite job_bind_raised.
    2:{ unfold ExportJob.get_qdrant_client.
        erewrite job_bind_done by (by apply inner_done).
        erewrite job_bind_done by (by apply inner_done).
        erewrite job_bind_raised; [reflexivity|].
        unfold Migrate.int. cbn [with_world ExportJob.world].
        rewrite Hport. reflexivity. }
    cbn [is_Exception].
    erewrite job_bind_done by (apply export_print_run).
    eexists _, _, []. split; [reflexivity|].
    cbn [with_world journaled ExportJob.world ExportJob.journal ExportJob.objects].
    split; [reflexivity|]. split; [by rewrite app_nil_r|].
    repeat split. intros port Hsome. discriminate.
Qed.

Lemma export_job_without_its_collection_exits_1_and_uploads_nothing_witness :
  exists s' hs,
    ExportJob.script Examples.port_6333 ExportExamples.fixed_time
      ExportExamples.braces 5 ExportExamples.cloud_without_collection
    = (Some 1, s') /\
    ExportJob.journal s' = [] ++ hs /\
    uploads hs = [] /\
    ExportJob.objects s' = ∅.
Proof.
  destruct (export_job_without_its_collection_exits_1_and_uploads_nothing
              Examples.port_6333 ExportExamples.fixed_time ExportExamples.braces
              5 ExportExamples.cloud_without_collection)
    as (s' & hs & evs & Hrun & Hj & _ & _ & Hup & Hobj & _).
  - reflexivity.
  - exists s', hs. split; [exact Hrun|]. split; [exact Hj|].
    split; [exact Hup|exact Hobj].
Defined.
(** ** The numbering of the batches *)

Lemma batch_lines_app a b : batch_lines (a ++ b) = batch_lines a ++ batch_lines b.
Proof. unfold batch_lines. by rewrite omap_app. Qed.

Lemma batch_lines_of_batches points batches m : forall a,
  batch_lines (concat (batch_happenings points batches <$> seq a m))
  = (fun k => (Z.of_nat k + 1, batches)) <$> seq a m.
Proof.
  induction m as [|m IH]; intros a; [done|].
  cbn [seq fmap list_fmap concat]. rewrite batch_lines_app, IH. reflexivity.
Qed.

(** X22 — the numbering of the batches. A load that completes prints
    one line per upsert request, before the request: the lines number the
    batches 1, 2, ... up to the number of batches, and the number of
    batches each line shows, [(n - 1) // 100 + 1], is the number of
    requests made. *)
Theorem load_numbers_its_batches_from_1_to_their_count
    (task : dict) (embeddings : list value) (points : list PointStruct)
    (s : LoaderJob.Cloud) :
  embeddings <> [] ->
  Forall2 (fun emb p => Loader.point_of_embedding emb = Ok p) embeddings points ->
  Forall (fun p => vector_dim p = Some (tc_size (loader_collection_before s)))
    points ->
  text_or_absent task "sourceId" ->
  text_or_absent task "category" ->
  exists s' hs,
    LoaderJob.load_to_qdrant task embeddings s = (Done tt, s') /\
    LoaderJob.journal s' = LoaderJob.journal s ++ hs /\
    let count := length (upserted_batches hs) in
    batch_lines hs
    = (fun k => (Z.of_nat k + 1, Z.of_nat count)) <$> seq 0 count.
Proof.
  intros Hne Hall Hdim Hsource Hcategory.
  eexists _, _. split; [by apply load_to_qdrant_run|].
  split; [reflexivity|].
  assert (Hens : forall b, upserted_batches (ensure_happenings b) = []
                           /\ batch_lines (ensure_happenings b) = []).
  { by intros []. }
  unfold load_happenings, completion_message.
  rewrite !upserted_batches_app, !batch_lines_app.
  rewrite upserted_batches_of_batches, batch_lines_of_batches.
  destruct (Hens (bool_decide (is_Some (LoaderJob.qdrant s
                                        !! LoaderJob.COLLECTION_NAME))))
    as [-> ->].
  cbn [upserted_batches batch_lines omap list_omap app].
  rewrite !app_nil_r, length_fmap, length_seq.
  assert (Hcount :
    (Z.of_nat (length embeddings) - 1) / Z.of_nat LoaderJob.BATCH_SIZE + 1
    = Z.of_nat (batch_count (length embeddings))).
  { unfold batch_count, LoaderJob.BATCH_SIZE. rewrite Nat2Z.inj_div.
    destruct embeddings as [|emb embeddings]; [done|]. cbn [length].
    replace (Z.of_nat (S (length embeddings) + 100 - 1))
      with ((Z.of_nat (S (length embeddings)) - 1) + 1 * Z.of_nat 100) by lia.
    rewrite Z.div_add by done. reflexivity. }
  by rewrite Hcount.
Qed.

Lemma load_numbers_its_batches_from_1_to_their_count_witness :
  exists s' hs,
    LoaderJob.load_to_qdrant LoaderExamples.task
      (replicate 101 (VDict Examples.complete_record)) LoaderExamples.state
    = (Done tt, s') /\
    LoaderJob.journal s' = [] ++ hs /\
    batch_lines hs = [(1, 2); (2, 2)].
Proof.
  destruct (load_numbers_its_batches_from_1_to_their_count
              LoaderExamples.task
              (replicate 101 (VDict Examples.complete_record))
              (replicate 101 LoaderExamples.loaded_point) LoaderExamples.state)
    as (s' & hs & Hrun & Hj & Hlines).
  - discriminate.
  - apply points_of_batch_Ok. vm_compute. reflexivity.
  - apply Forall_replicate. vm_compute. reflexivity.
  - right. eexists. reflexivity.
  - right. eexists. reflexivity.
  - exists s', hs. split; [exact Hrun|]. split; [exact Hj|].
    cbv zeta in Hlines. rewrite Hlines. clear Hlines.
    revert Hj Hrun. intros Hj. vm_compute in Hj. subst hs.
    intros Hrun. vm_compute in Hrun. injection Hrun as <-.
    vm_compute. reflexivity.
Defined.
(** ** What the count of the destination counts *)

(** X23 — what the count of the destination counts. A migration into a
    destination that is empty or missing leaves as many points as the
    records the scroll calls returned have distinct ids, and reports that
    number as [target_points]; the count-mismatch warning is printed if
    and only if that number is not the count the source reported. Three
    points with the ids 1, 2 and 3 migrated in batches of 2: the store
    starts the second page at id 2, the records returned carry the ids
    1, 2 and 2, the destination counts 2 and the warning is printed. *)
Theorem migration_counts_the_distinct_ids_returned
    (isoformat : Z -> string) (fuel : nat) (name : string)
    (batch_size : Z) (w : World) (c : SourceCollection) :
  source_store w !! name = Some c ->
  respects_contract (vectors_size c) c ->
  tc_size (destination_before w name (vectors_size c)) = vectors_size c ->
  tc_points (destination_before w name (vectors_size c)) = ∅ ->
  1 <= batch_size ->
  points_count c < 2 ^ 63 ->
  clock_in_range w ->
  ceil_div (points_count c) batch_size <= Z.of_nat fuel ->
  exists v w' evs,
    Migrate.migrate_collection isoformat fuel name batch_size w = (Done v, w') /\
    trace w' = trace w ++ evs /\
    let distinct :=
      Z.of_nat (length (remove_dups (pt_id <$> fetched (scroll_pages evs)))) in
    target_count w' name = distinct /\
    Migrate.metadata_field v "target_points" = Ok (VInt distinct) /\
    (Printed MsgWarningMismatch ∈ evs <-> distinct <> points_count c).
Proof.
  intros Hsrc Hc Hsize Hempty Hbatch Htotal Hclock Hfuel.
  destruct (migrate_collection_run isoformat fuel name batch_size w c
              Hsrc Hc Hsize Hbatch Htotal Hclock Hfuel)
    as (loop_events & w' & migrated_at & duration & Hrun & Hext & Htgt & Hpages & _ & Hloop).
  cbv zeta in *. destruct Hext as (_ & _ & _ & Htrace).
  rewrite Hempty in Hrun, Htrace, Htgt.
  rewrite size_upsert_points_distinct in Hrun, Htrace.
  eexists _, w', (migration_events _ _ _ _ loop_events _).
  split; [exact Hrun|]. split; [exact Htrace|].
  rewrite scroll_pages_loop_only, Hpages.
  split; [|split; [reflexivity|]].
  - rewrite (target_count_insert _ _ _ _ Htgt). cbn [tc_points].
    by rewrite size_upsert_points_distinct.
  - by apply mismatch_warning_in_events.
Qed.

Lemma migration_counts_the_distinct_ids_returned_witness :
  exists v w' evs,
    Migrate.migrate_collection Examples.no_text 5 "incidents" 2
      (Examples.world Examples.cursor_source Examples.empty_target)
    = (Done v, w') /\
    trace w' = [] ++ evs /\
    pt_id <$> fetched (scroll_pages evs) = [IdInt 1; IdInt 2; IdInt 2] /\
    target_count w' "incidents" = 2 /\
    Printed MsgWarningMismatch ∈ evs.
Proof.
  destruct (migration_counts_the_distinct_ids_returned
              Examples.no_text 5 "incidents" 2
              (Examples.world Examples.cursor_source Examples.empty_target)
              Examples.cursor_source)
    as (v & w' & evs & Hrun & Htrace & Hcount & _ & Hwarn).
  - reflexivity.
  - apply cursor_collection_respects_contract, three_points_well_formed.
  - reflexivity.
  - reflexivity.
  - lia.
  - reflexivity.
  - apply seconds_clock_in_range.
  - vm_compute. discriminate.
  - assert (Hids : pt_id <$> fetched (scroll_pages evs) = [IdInt 1; IdInt 2; IdInt 2]).
    { change (trace w' = evs) in Htrace. subst evs.
      replace w' with (snd (Migrate.migrate_collection Examples.no_text 5
                              "incidents" 2
                              (Examples.world Examples.cursor_source
                                 Examples.empty_target)))
        by (by rewrite Hrun).
      vm_compute. reflexivity. }
    exists v, w', evs. split; [exact Hrun|]. split; [exact Htrace|].
    split; [exact Hids|].
    rewrite Hids in Hcount, Hwarn.
    split; [exact Hcount|]. apply Hwarn. vm_compute. discriminate.
Defined.

(** ** A destination of another dimension *)

Lemma upsert_attempts_app a b :
  upsert_attempts (a ++ b) = upsert_attempts a ++ upsert_attempts b.
Proof. unfold upsert_attempts. by rewrite omap_app. Qed.

Lemma target_upsert_refused name tc points w :
  target_store w !! name = Some tc ->
  Exists (fun p => vector_dim p <> Some (tc_size tc)) points ->
  target_upsert name points w
  = (Raised UnexpectedResponse, log [Called (TgtUpsert name points)] w).
Proof.
  intros Htc Hbad. unfold target_upsert, bind, record.
  cbn [target_store log]. rewrite Htc.
  assert (forallb (fun p => bool_decide (vector_dim p = Some (tc_size tc))) points
          = false) as ->; [|done].
  induction Hbad as [p ps Hp|p ps _ IH]; simpl.
  - by rewrite bool_decide_eq_false_2.
  - by rewrite IH, andb_false_r.
Qed.

Section MainFails.
Variable int_of_str : string -> option Z.
Variable isoformat : Z -> string.

(** [main] when [migrate_collection] raises. *)
Lemma script_when_migration_raises fuel w port host key e w2 :
  int_of_str (default "6333" (environ w !! "SOURCE_QDRANT_PORT")) = Some port ->
  environ w !! "TARGET_QDRANT_HOST" = Some host -> host <> "" ->
  environ w !! "TARGET_QDRANT_API_KEY" = Some key -> key <> "" ->
  is_Some (source_store w !! configured_collection w) ->
  Migrate.migrate_collection isoformat fuel (configured_collection w) 100
    (log (prelude_events w port host) w) = (Raised e, w2) ->
  is_Exception e = true ->
  Migrate.script int_of_str isoformat fuel w
  = (Some 1, log [Printed (MsgError e)] w2).
Proof.
  intros Hport Hhost Hhost' Hkey Hkey' Hsrc Hrun He.
  unfold Migrate.script, Migrate.main.
  erewrite bind_done by reflexivity. fold (configured_collection w).
  unfold try_except.
  unfold Migrate.get_source_qdrant_client, Migrate.get_target_qdrant_client.
  erewrite bind_done.
  2:{ erewrite bind_done by reflexivity. erewrite bind_done by reflexivity.
      erewrite bind_done. 2:{ apply lift_run. unfold Migrate.int. by rewrite Hport. }
      apply print_run. }
  erewrite bind_done.
  2:{ erewrite bind_done. 2:{ unfold getenv. simpl. rewrite Hhost. reflexivity. }
      erewrite bind_done. 2:{ unfold getenv. simpl. rewrite Hkey. reflexivity. }
      rewrite !bool_decide_eq_false_2 by done. apply print_run. }
  step_print.
  erewrite bind_done by (apply source_get_collections_run).
  step_print.
  erewrite bind_done.
  2:{ cbn [source_store log]. rewrite bool_decide_eq_false_2; [reflexivity|].
      intros Hin. apply not_in_names in Hin. rewrite Hin in Hsrc.
      by destruct Hsrc. }
  step_print.
  erewrite bind_done by (apply target_get_collections_run).
  step_print. step_print.
  rewrite !log_log. cbn [source_store target_store log].
  erewrite bind_raised by exact Hrun.
  rewrite He. unfold bind. rewrite print_run. reflexivity.
Qed.

(** X24 — a destination of another dimension. When the destination
    already holds the collection with another vector size than the
    records', the collection is neither recreated nor resized: the first
    upload is refused, the job prints the error and exits with status 1,
    and the destination is as it was. *)
Theorem destination_of_another_dimension_fails_the_first_upload
    (fuel : nat) (w : World) (c : SourceCollection) (tc : TargetCollection)
    (port : Z) (host key : string) :
  int_of_str (default "6333" (environ w !! "SOURCE_QDRANT_PORT")) = Some port ->
  environ w !! "TARGET_QDRANT_HOST" = Some host -> host <> "" ->
  environ w !! "TARGET_QDRANT_API_KEY" = Some key -> key <> "" ->
  let name := configured_collection w in
  source_store w !! name = Some c ->
  target_store w !! name = Some tc ->
  0 < points_count c ->
  let page := scroll c 0 (Z.min 100 (points_count c)) in
  Exists (fun p => vector_dim p <> Some (tc_size tc)) (records page) ->
  exists w' evs,
    Migrate.script int_of_str isoformat (S fuel) w = (Some 1, w') /\
    trace w' = trace w ++ evs /\
    target_store w' = target_store w /\
    filter (fun e => is_create e = true) evs = [] /\
    upsert_attempts evs = [records page] /\
    last evs = Some (Printed (MsgError UnexpectedResponse)).
Proof.
  intros Hport Hhost Hhost' Hkey Hkey' name Hsrc Htgt Hcount page Hbad.
  subst name.
  assert (Hne : exists p ps, records page = p :: ps).
  { destruct (records page) as [|p ps]; [by apply Exists_nil in Hbad|by eexists _, _]. }
  destruct Hne as (p & ps & Hrec).
  eexists _, _. split.
  - eapply (script_when_migration_raises (S fuel) w port host key
              UnexpectedResponse _ Hport Hhost Hhost' Hkey Hkey');
      [by eexists| |reflexivity].
    unfold Migrate.migrate_collection.
    step_print. erewrite bind_done by (by apply source_get_collection_run).
    cbn [info_points_count info_size].
    step_print. step_print.
    erewrite bind_done by (apply ensure_collection_exists_run).
    erewrite bind_done by (apply utcnow_run).
    erewrite bind_raised; [reflexivity|].
    cbn [Migrate.scan_loop Migrate.offset Migrate.migrated_count].
    rewrite bool_decide_eq_true_2 by done.
    step_print. rewrite Z.sub_0_r, Z.add_0_l.
    erewrite bind_done by (by apply source_scroll_run).
    fold page. rewrite Hrec.
    step_print. rewrite map_point_id.
    erewrite bind_raised; [reflexivity|].
    apply (target_upsert_refused _ tc).
    + cbn [target_store log with_target tick]. unfold destination_before.
      cbn [target_store log]. rewrite Htgt. apply lookup_insert_eq.
    + by rewrite <- Hrec.
  - cbn [trace target_store log with_target tick]. rewrite !log_log.
    unfold destination_before. cbn [trace target_store log with_target tick].
    rewrite Htgt, insert_id by done.
    rewrite bool_decide_eq_true_2 by eauto.
    rewrite <- !app_assoc.
    split; [reflexivity|]. split; [reflexivity|].
    unfold prelude_events. rewrite <- Hrec.
    split; [by rewrite ?filter_app, ?filter_cons, ?filter_nil|].
    split; [reflexivity|].
    by rewrite !last_app.
Qed.

End MainFails.
Lemma destination_of_another_dimension_fails_the_first_upload_witness :
  exists w' evs,
    Migrate.script Examples.port_6333 Examples.no_text 1
      (Examples.world (honest_collection 2 COSINE Examples.three_points)
         MoreExamples.target_of_dimension_3)
    = (Some 1, w') /\
    trace w' = [] ++ evs /\
    target_store w' = MoreExamples.target_of_dimension_3 /\
    last evs = Some (Printed (MsgError UnexpectedResponse)).
Proof.
  destruct (destination_of_another_dimension_fails_the_first_upload
              Examples.port_6333 Examples.no_text 0
              (Examples.world (honest_collection 2 COSINE Examples.three_points)
                 MoreExamples.target_of_dimension_3)
              (honest_collection 2 COSINE Examples.three_points)
              {| tc_size := 3; tc_distance := COSINE; tc_points := ∅ |}
              6333 "cluster.example" "secret")
    as (w' & evs & Hrun & Htrace & Htgt & _ & _ & Hlast).
  - reflexivity.
  - reflexivity.
  - discriminate.
  - reflexivity.
  - discriminate.
  - reflexivity.
  - reflexivity.
  - reflexivity.
  - apply Exists_cons_hd. vm_compute. discriminate.
  - exists w', evs. split; [exact Hrun|]. split; [exact Htrace|].
    split; [exact Htgt|exact Hlast].
Defined.
